(** * Fraud-detection service: drift engine, signed tokens, authorization
      dependencies and alert fan-out, embedded from the Python sources.

    Layout: Part I holds the embedding (one module per source file),
    Part II the theorems about it. *)

From Stdlib Require Import Ascii String ZArith QArith Qround Qabs Reals Psatz Sorted.
From stdpp Require Import base decidable option list strings pretty gmap.

Local Open Scope string_scope.

(* ===================================================================== *)
(** * Part I.  The embedding                                              *)
(* ===================================================================== *)

(** ** Python exceptions and fallible computations *)

Module Py.

(** The exception classes that the modelled code can meet.  [HTTPException]
    carries what FastAPI's constructor is given: status code, detail text
    and the value of the [WWW-Authenticate] header. *)
Inductive exn : Type :=
| HTTPException (status_code : nat) (detail : string) (www_authenticate : string)
| ValueError
| TypeError
| AttributeError
| IndexError
| KeyError
| OtherException (name : string).

Inductive result (A : Type) : Type :=
| Ok (a : A)
| Raise (e : exn).

Arguments Ok {A} a.
Arguments Raise {A} e.

Definition bind {A B : Type} (m : result A) (k : A -> result B) : result B :=
  match m with
  | Ok a => k a
  | Raise e => Raise e
  end.

(** [try: body except Exception: handler]: every modelled exception derives
    from [Exception]. *)
Definition try_except {A : Type} (body : result A) (handler : exn -> result A) : result A :=
  match body with
  | Ok a => Ok a
  | Raise e => handler e
  end.

Definition is_HTTPException (e : exn) : bool :=
  match e with
  | HTTPException _ _ _ => true
  | _ => false
  end.

(** [try: body except HTTPException: handler]: other exceptions pass through. *)
Definition try_except_HTTP {A : Type} (body : result A) (handler : exn -> result A) : result A :=
  match body with
  | Ok a => Ok a
  | Raise e => if is_HTTPException e then handler e else Raise e
  end.

(** Insertion-ordered dictionaries with string keys ([dict] keeps insertion
    order; assigning to a present key keeps its position). *)
Definition dict (V : Type) : Type := list (string * V).

Fixpoint dict_get {V : Type} (d : dict V) (k : string) : option V :=
  match d with
  | [] => None
  | (k', v) :: d' => if String.eqb k' k then Some v else dict_get d' k
  end.

Fixpoint dict_set {V : Type} (d : dict V) (k : string) (v : V) : dict V :=
  match d with
  | [] => [(k, v)]
  | (k', v') :: d' =>
      if String.eqb k' k then (k', v) :: d' else (k', v') :: dict_set d' k v
  end.

Definition dict_keys {V : Type} (d : dict V) : list string := map fst d.

(** [str.lower()] on ASCII letters.  The code only compares the result with
    "true", and no character outside ASCII lowers to one of t, r, u, e. *)
Definition lower_ascii (c : ascii) : ascii :=
  let n := nat_of_ascii c in
  if (65 <=? n)%nat && (n <=? 90)%nat then ascii_of_nat (n + 32) else c.

Fixpoint lower (s : string) : string :=
  match s with
  | EmptyString => EmptyString
  | String c s' => String (lower_ascii c) (lower s')
  end.

(** [os.getenv(name, default)] on the process environment. *)
Definition getenv (env : gmap string string) (name default : string) : string :=
  match env !! name with
  | Some v => v
  | None => default
  end.

End Py.

Export Py.

(** The error monad, through stdpp's [mret]/[mbind] so that sequencing is
    written [x ← m; k]. *)
#[global] Instance result_ret : MRet Py.result := @Py.Ok.
#[global] Instance result_bind : MBind Py.result :=
  fun (A B : Type) (k : A -> Py.result B) (m : Py.result A) => Py.bind m k.

(** ** src/monitoring/drift_detection.py *)

Module Drift.

Local Open Scope R_scope.

(** Python floats as seen by the drift engine: a finite binary64 number,
    given by the real number it denotes, or NaN.  The two infinities are not
    modelled: the one division by zero the engine can perform is 0/0 on an
    empty sample, the logarithm is only taken of clamped, positive
    fractions, and the numbers the engine computes (fractions of counts,
    their quotients and logarithms) stay far below the overflow threshold. *)
Inductive float : Type :=
| Fin (x : R)
| NaN.

#[global] Instance Rlt_decision (x y : R) : Decision (x < y) := Rlt_dec x y.
#[global] Instance Req_decision : EqDecision R := Req_dec_T.

(** IEEE comparisons: anything involving NaN is false. *)
Definition float_lt (a b : float) : bool :=
  match a, b with
  | Fin x, Fin y => bool_decide (x < y)
  | _, _ => false
  end.

Definition float_gt (a b : float) : bool := float_lt b a.

Definition float_eq (a b : float) : bool :=
  match a, b with
  | Fin x, Fin y => bool_decide (x = y)
  | _, _ => false
  end.


(** *** NumPy and binary64 arithmetic

    What the engine computes with but this repository does not define.
    The numbers are IEEE-754 binary64: every arithmetic operation returns
    the float nearest to the exact result, and a literal such as [0.3]
    denotes the float nearest to 3/10.

    - [rnd x] is the float nearest to the real number [x] (ties to even);
    - [unit_roundoff] is the largest relative error of [rnd] on a normal
      number and [smallest_positive] the smallest positive float (2^-53 and
      2^-1074 for binary64);
    - [np_log x] is what [np.log] returns on the positive float [x];
    - [np_sum] is [np.sum] of a float array (NumPy adds pairwise, in an
      order that depends on the length);
    - [np_linspace start stop num] is [np.linspace(start, stop, num)];
    - [interpolated_percentile a q] is the entry of [np.percentile(a, ...)]
      for the percentile [q] of the non-empty array [a]: NumPy's default
      "linear" method, which interpolates in binary64 between the two order
      statistics next to the index [(len(a) - 1) * (q / 100)].

    Sample arrays hold finite floats, given as the rationals they denote. *)
Class NumPy : Type := {
  rnd : R -> R;
  unit_roundoff : R;
  smallest_positive : R;
  np_log : R -> R;
  np_sum : list float -> float;
  np_linspace : Q -> Q -> nat -> list Q;
  interpolated_percentile : list Q -> Q -> Q
}.

(** What is used of them.  Every law holds of binary64 with
    round-to-nearest and of NumPy on results below the overflow threshold;
    every law also holds of exact arithmetic, where [rnd] is the identity
    and the two constants are 0.

    - rounding is monotone and leaves floats (0 and 1 among them)
      unchanged;
    - a real number of magnitude at least [smallest_positive] does not round
      to 0, and no float other than 0 is smaller than [smallest_positive];
    - the relative error of rounding is at most [unit_roundoff] on numbers
      that are not subnormal, and its absolute error is at most
      [2 * unit_roundoff] on numbers of magnitude at most 2;
    - two different floats differ by at least [unit_roundoff] times the
      smaller magnitude, and the quotient of two different positive floats
      does not round to 1;
    - [np.log] is within half of its magnitude of the logarithm (it is
      accurate to a few units in the last place);
    - [np.sum] is NaN when an entry is, adds two floats with one rounding,
      and on non-negative floats returns a non-negative float that is 0
      only if every entry is;
    - [np.linspace(0, 100, num)] has [num] entries, non-decreasing and
      between 0 and 100;
    - a percentile of a non-empty array does not decrease when [q] grows
      and does not depend on the order of the array. *)
Class NumPyLaws (N : NumPy) : Prop := {
  rnd_mono : forall x y : R, x <= y -> rnd x <= rnd y;
  rnd_idem : forall x : R, rnd (rnd x) = rnd x;
  rnd_0 : rnd 0 = 0;
  rnd_1 : rnd 1 = 1;
  unit_roundoff_range : 0 <= unit_roundoff <= / 2 ^ 53;
  smallest_positive_range : 0 <= smallest_positive <= unit_roundoff ^ 2 / 2 ^ 200;
  rnd_nonzero : forall x : R, x <> 0 -> smallest_positive <= Rabs x -> rnd x <> 0;
  rnd_smallest : forall x : R, rnd x <> 0 -> smallest_positive <= Rabs (rnd x);
  rnd_relative : forall x : R,
    smallest_positive <= unit_roundoff * Rabs x ->
    Rabs (rnd x - x) <= unit_roundoff * Rabs x;
  rnd_absolute : forall x : R, Rabs x <= 2 -> Rabs (rnd x - x) <= 2 * unit_roundoff;
  rnd_gap : forall x y : R,
    rnd x = x -> rnd y = y -> x <> y ->
    unit_roundoff * Rmin (Rabs x) (Rabs y) <= Rabs (x - y);
  rnd_div_one : forall x y : R,
    rnd x = x -> rnd y = y -> 0 < x -> 0 < y -> rnd (x / y) = 1 -> x = y;
  np_log_accurate : forall x : R,
    rnd x = x -> 0 < x -> Rabs (np_log x - ln x) <= Rabs (ln x) / 2;
  np_sum_nan : forall l : list float, In NaN l -> np_sum l = NaN;
  np_sum_pair : forall x y : R, np_sum [Fin x; Fin y] = Fin (rnd (x + y));
  np_sum_nonneg : forall l : list float,
    (forall f : float, In f l -> exists x : R, f = Fin x /\ 0 <= x) ->
    exists s : R,
      np_sum l = Fin s /\ 0 <= s /\ (s = 0 -> forall f : float, In f l -> f = Fin 0);
  np_sum_zeros : forall l : list float,
    (forall f : float, In f l -> f = Fin 0) -> np_sum l = Fin 0;
  np_linspace_length : forall num : nat, length (np_linspace 0 100 num) = num;
  np_linspace_range : forall (num : nat) (q : Q),
    In q (np_linspace 0 100 num) -> (0 <= q /\ q <= 100)%Q;
  np_linspace_sorted : forall (num i : nat) (q1 q2 : Q),
    np_linspace 0 100 num !! i = Some q1 -> np_linspace 0 100 num !! S i = Some q2 ->
    (q1 <= q2)%Q;
  interpolated_percentile_mono : forall (a : list Q) (q1 q2 : Q),
    a <> [] -> (0 <= q1)%Q -> (q1 <= q2)%Q -> (q2 <= 100)%Q ->
    (interpolated_percentile a q1 <= interpolated_percentile a q2)%Q;
  interpolated_percentile_perm : forall (a a' : list Q) (q : Q),
    Permutation a a' -> (interpolated_percentile a q == interpolated_percentile a' q)%Q
}.

(** The arithmetic of floats: each operation rounds its exact result. *)
Definition float_sub {N : NumPy} (a b : float) : float :=
  match a, b with
  | Fin x, Fin y => Fin (rnd (x - y))
  | _, _ => NaN
  end.

Definition float_mul {N : NumPy} (a b : float) : float :=
  match a, b with
  | Fin x, Fin y => Fin (rnd (x * y))
  | _, _ => NaN
  end.

(** Division; [x / 0] is NaN here (for [x <> 0] IEEE gives an infinity,
    which the engine never produces). *)
Definition float_div {N : NumPy} (a b : float) : float :=
  match a, b with
  | Fin x, Fin y => if bool_decide (y = 0) then NaN else Fin (rnd (x / y))
  | _, _ => NaN
  end.

(** [np.log]: NaN on a negative number (and on 0, where NumPy gives an
    infinity that the engine never produces). *)
Definition float_log {N : NumPy} (a : float) : float :=
  match a with
  | Fin x => if bool_decide (0 < x) then Fin (np_log x) else NaN
  | NaN => NaN
  end.

(** [np.percentile(a, q)] for an array [q] of percentiles: [ValueError]
    when a percentile is outside [0, 100], [IndexError] when [a] is empty
    (NumPy 1.22 and later index the last element of the partitioned
    array). *)
Definition np_percentile {N : NumPy} (a : list Q) (q : list Q) : result (list Q) :=
  if negb (forallb (fun x => Qle_bool 0 x && Qle_bool x 100) q) then Raise ValueError
  else match a with
       | [] => Raise IndexError
       | _ :: _ => Ok (map (interpolated_percentile a) q)
       end.

(** Bin edges: the breakpoints are floats, and the two outer ones are
    overwritten with the infinities. *)
Inductive edge : Type :=
| NegInf
| Edge (q : Q)
| PosInf.

Definition edge_le (a b : edge) : bool :=
  match a, b with
  | NegInf, _ => true
  | _, PosInf => true
  | Edge x, Edge y => Qle_bool x y
  | _, _ => false
  end.

Definition edge_lt (a b : edge) : bool := negb (edge_le b a).

(** [not np.any(bin_edges[:-1] > bin_edges[1:])]. *)
Fixpoint increases_monotonically (edges : list edge) : bool :=
  match edges with
  | a :: ((b :: _) as tl) => negb (edge_lt b a) && increases_monotonically tl
  | _ => true
  end.

Definition count_if (f : Q -> bool) (a : list Q) : nat := length (List.filter f a).

(** Every bin is half-open, [lo <= x < hi], except the last one, which
    also takes its right edge. *)
Fixpoint bin_counts (a : list Q) (edges : list edge) : list nat :=
  match edges with
  | lo :: ((hi :: rest) as tl) =>
      let in_bin (x : Q) :=
        edge_le lo (Edge x) &&
        match rest with
        | [] => edge_le (Edge x) hi
        | _ :: _ => edge_lt (Edge x) hi
        end in
      count_if in_bin a :: bin_counts a tl
  | _ => []
  end.

(** [np.histogram(a, bins=edges)[0]]: [ValueError] unless the edges
    increase monotonically. *)
Definition np_histogram (a : list Q) (edges : list edge) : result (list nat) :=
  if increases_monotonically edges then Ok (bin_counts a edges) else Raise ValueError.

(** [counts / len(sample)], elementwise: counts and lengths are integers
    that binary64 holds exactly, and each quotient is rounded. *)
Definition np_divide {N : NumPy} (counts : list nat) (n : nat) : list float :=
  map (fun c : nat => float_div (Fin (INR c)) (Fin (INR n))) counts.

(** [np.where(percents == 0, 0.0001, percents)]. *)
Definition np_where_zero (percents : list float) (value : float) : list float :=
  map (fun p => if float_eq p (Fin 0) then value else p) percents.

Record FraudDriftDetector : Type := {
  threshold_psi : float;
  threshold_ks : float
}.

(** [FraudDriftDetector()] with the default thresholds. *)
Definition default_detector : FraudDriftDetector :=
  {| threshold_psi := Fin (2 / 10); threshold_ks := Fin (5 / 100) |}.

(** One summand of the index:
    [(cur_percents - ref_percents) * np.log(cur_percents / ref_percents)]. *)
Definition psi_term {N : NumPy} (c r : float) : float :=
  float_mul (float_sub c r) (float_log (float_div c r)).

(** [calculate_psi], statement by statement; the literal [0.0001] is the
    float nearest to 1/10000. *)
Definition calculate_psi {N : NumPy} (reference current : list Q) (bins : nat) : result float :=
  percentiles ← np_percentile reference (np_linspace 0 100 (bins + 1));
  let breakpoints := map Edge percentiles in
  let breakpoints := <[0%nat := NegInf]> breakpoints in
  let breakpoints := <[pred (length breakpoints) := PosInf]> breakpoints in
  ref_counts ← np_histogram reference breakpoints;
  cur_counts ← np_histogram current breakpoints;
  let ref_percents := np_divide ref_counts (length reference) in
  let cur_percents := np_divide cur_counts (length current) in
  let ref_percents := np_where_zero ref_percents (Fin (rnd (1 / 10000))) in
  let cur_percents := np_where_zero cur_percents (Fin (rnd (1 / 10000))) in
  let psi := np_sum (zip_with psi_term cur_percents ref_percents) in
  Ok psi.

(** The bin edges that [calculate_psi] builds from a non-empty [reference]
    (the value of [breakpoints] after the two assignments). *)
Definition psi_breakpoints {N : NumPy} (reference : list Q) (bins : nat) : list edge :=
  let percentiles :=
    map (interpolated_percentile reference) (np_linspace 0 100 (bins + 1)) in
  let breakpoints := <[0%nat := NegInf]> (map Edge percentiles) in
  <[pred (length breakpoints) := PosInf]> breakpoints.

(** The binned, floor-clamped distribution of [sample] over the breakpoints
    that [calculate_psi] derives from [reference]: the array that the code
    calls [ref_percents] (for [sample = reference]) or [cur_percents] just
    before the sum. *)
Definition binned_distribution {N : NumPy} (reference sample : list Q) (bins : nat)
  : result (list float) :=
  percentiles ← np_percentile reference (np_linspace 0 100 (bins + 1));
  let breakpoints := map Edge percentiles in
  let breakpoints := <[0%nat := NegInf]> breakpoints in
  let breakpoints := <[pred (length breakpoints) := PosInf]> breakpoints in
  counts ← np_histogram sample breakpoints;
  Ok (np_where_zero (np_divide counts (length sample)) (Fin (rnd (1 / 10000)))).

(** A clamped fraction: a positive float that is at most 1 and at least
    [m]. *)
Definition fraction {N : NumPy} (m : R) (f : float) : Prop :=
  exists x : R, f = Fin x /\ rnd x = x /\ 0 < x /\ m <= x /\ x <= 1.

(** *** SciPy and string formatting

    What the engine calls but this repository does not define: the
    two-sample Kolmogorov-Smirnov routine (which may raise), the numbers
    that the chi-square routine returns once its input check has passed, and
    the rendering [f"{psi:.4f}"] of a float. *)
Class Externals : Type := {
  stats_ks_2samp : list Q -> list Q -> result (float * float);
  chisquare_values : list float -> list float -> float * float;
  format_4f : float -> string
}.



(** [calculate_ks_test]. *)
Definition calculate_ks_test `{Externals} (reference current : list Q) : result (float * float) :=
  '(ks_stat, p_value) ← stats_ks_2samp reference current;
  Ok (ks_stat, p_value).

(** [_classify_drift_severity]. *)
Definition _classify_drift_severity (psi : float) : string :=
  if float_lt psi (Fin (1 / 10)) then "none"
  else if float_lt psi (Fin (2 / 10)) then "moderate"
  else "significant".

(** A pandas data frame, as far as the engine looks at it: named columns
    of cells, a cell being a number or a missing value. *)
Abbreviation DataFrame := (gmap string (list (option Q))).

(** [column.dropna().values]. *)
Definition dropna_values (column : list (option Q)) : list Q := omap (fun cell : option Q => cell) column.

(** One entry of the drift report. *)
Record DriftFinding : Type := {
  psi : float;
  ks_statistic : float;
  ks_p_value : float;
  drift_detected : bool;
  drift_severity : string
}.

(** The [for feature in features] loop of [detect_feature_drift], with the
    report built so far as the accumulator. *)
Fixpoint detect_feature_drift_loop `{Externals} {N : NumPy} (self : FraudDriftDetector)
    (reference_data current_data : DataFrame) (features : list string)
    (drift_report : Py.dict DriftFinding) : result (Py.dict DriftFinding) :=
  match features with
  | [] => Ok drift_report
  | feature :: features' =>
      match reference_data !! feature, current_data !! feature with
      | Some ref_column, Some cur_column =>
          let ref_values := dropna_values ref_column in
          let cur_values := dropna_values cur_column in
          psi ← calculate_psi ref_values cur_values 10;
          '(ks_stat, p_value) ← calculate_ks_test ref_values cur_values;
          let drift_detected :=
            float_gt psi (threshold_psi self) || float_lt p_value (threshold_ks self) in
          let drift_report :=
            dict_set drift_report feature
              {| psi := psi;
                 ks_statistic := ks_stat;
                 ks_p_value := p_value;
                 drift_detected := drift_detected;
                 drift_severity := _classify_drift_severity psi |} in
          detect_feature_drift_loop self reference_data current_data features' drift_report
      | _, _ =>
          (* logger.warning(...); continue *)
          detect_feature_drift_loop self reference_data current_data features' drift_report
      end
  end.

(** [detect_feature_drift]. *)
Definition detect_feature_drift `{Externals} {N : NumPy} (self : FraudDriftDetector)
    (reference_data current_data : DataFrame) (features : list string)
  : result (Py.dict DriftFinding) :=
  detect_feature_drift_loop self reference_data current_data features [].





Definition newline : string := String "010"%char "".

(** One line of the listing: [f"    - {feature}: PSI = {psi:.4f}\n"]. *)
Definition summary_line `{Externals} (feature : string) (psi : float) : string :=
  "    - " ++ feature ++ ": PSI = " ++ format_4f psi ++ newline.

(** The body of [for feature in drift_features[:5]], appending one line per
    feature; [drift_report[feature]] raises [KeyError] on a missing key. *)
Fixpoint summary_lines `{Externals} (drift_report : Py.dict DriftFinding)
    (features : list string) (summary : string) : result string :=
  match features with
  | [] => Ok summary
  | feature :: features' =>
      match dict_get drift_report feature with
      | None => Raise KeyError
      | Some metrics =>
          let psi := psi metrics in
          summary_lines drift_report features' (summary ++ summary_line feature psi)
      end
  end.

(** [generate_drift_summary]. *)
Definition generate_drift_summary `{Externals} (drift_report : Py.dict DriftFinding)
  : result string :=
  let total_features := length drift_report in
  let drift_features :=
    map fst (List.filter (fun item : string * DriftFinding => drift_detected (snd item))
                         drift_report) in
  let summary := "Drift Detection Summary:" ++ newline in
  let summary := summary ++ "  Total features monitored: " ++ pretty total_features ++ newline in
  let summary := summary ++ "  Features with drift: " ++ pretty (length drift_features) ++ newline in
  match drift_features with
  | [] => Ok summary
  | _ :: _ =>
      let summary := summary ++ newline ++ "  Critical features:" ++ newline in
      summary_lines drift_report (take 5 drift_features) summary
  end.

#[global] Instance Qlt_decision (x y : Q) : Decision (x < y)%Q :=
  match Qlt_le_dec x y with
  | left H => left H
  | right H => right (Qle_not_lt _ _ H)
  end.

(** *** Notions used to state what [detect_feature_drift] reports *)

Section FeatureDriftNotions.
Context `{Externals} {N : NumPy}.
Variables (self : FraudDriftDetector) (reference_data current_data : DataFrame).

(** An ordinary finding for [feature]: every field computed from the two
    null-dropped columns. *)
Definition ordinary_finding (feature : string) (finding : DriftFinding) : Prop :=
  exists (ref_column cur_column : list (option Q)) (x : R) (ks_stat p_value : float),
    reference_data !! feature = Some ref_column /\
    current_data !! feature = Some cur_column /\
    calculate_psi (dropna_values ref_column) (dropna_values cur_column) 10 = Ok (Fin x) /\
    stats_ks_2samp (dropna_values ref_column) (dropna_values cur_column)
      = Ok (ks_stat, p_value) /\
    psi finding = Fin x /\
    ks_statistic finding = ks_stat /\
    ks_p_value finding = p_value /\
    drift_detected finding =
      float_gt (Fin x) (threshold_psi self) || float_lt p_value (threshold_ks self) /\
    drift_severity finding = _classify_drift_severity (Fin x).

Definition on_both_sides (feature : string) : Prop :=
  is_Some (reference_data !! feature) /\ is_Some (current_data !! feature).

(** Both null-dropped columns of [feature] keep at least one value, and
    the KS routine returns on them. *)
Definition computable (feature : string) : Prop :=
  forall ref_column cur_column : list (option Q),
    reference_data !! feature = Some ref_column ->
    current_data !! feature = Some cur_column ->
    dropna_values ref_column <> [] /\
    dropna_values cur_column <> [] /\
    exists ks : float * float,
      stats_ks_2samp (dropna_values ref_column) (dropna_values cur_column) = Ok ks.

End FeatureDriftNotions.



(** Two frames with a zero-variance "amount" column on the reference side
    and no "hour" column at all. *)
Definition flat_reference : DataFrame :=
  {[ "amount" := [Some 5%Q; None; Some 5%Q] ]}.

Definition flat_current : DataFrame :=
  {[ "amount" := [Some 5%Q; Some 7%Q] ]}.

(** *** The words of the specification, for comparison with the code *)


(** The claim's words: |current - reference| / reference, and 0 when the
    reference rate is 0. *)
Definition spec_rate_change (current_rate reference_rate : R) : R :=
  if decide (reference_rate = 0) then 0
  else Rabs (current_rate - reference_rate) / reference_rate.

(** The same formula evaluated in binary64 on two floats: the difference
    and the quotient are each rounded. *)
Definition rounded_rate_change {N : NumPy} (current_rate reference_rate : R) : R :=
  if decide (reference_rate = 0) then 0
  else rnd (Rabs (rnd (current_rate - reference_rate)) / reference_rate).

(** A sample is small enough for its length to be an array length: at
    most 2^63 entries. *)
Definition array_sized (sample : list Q) : Prop := INR (length sample) <= 2 ^ 63.

(** The features that the summary lists, with the PSI printed for each. *)
Definition listed (drift_report : Py.dict DriftFinding) : list (string * DriftFinding) :=
  take 5 (List.filter (fun item : string * DriftFinding => drift_detected (snd item))
                      drift_report).

(** The lines printed for them, one after the other. *)
Fixpoint concat_lines `{Externals} (items : list (string * DriftFinding)) : string :=
  match items with
  | [] => ""
  | (feature, metrics) :: items' => summary_line feature (psi metrics) ++ concat_lines items'
  end.

(** A report with six drifted features, entered in increasing order of PSI. *)
Definition drifted (x : R) : DriftFinding :=
  {| psi := Fin x; ks_statistic := Fin 1; ks_p_value := Fin 0;
     drift_detected := true; drift_severity := "significant" |}.

Definition six_drifted : Py.dict DriftFinding :=
  [("f1", drifted (21 / 100)); ("f2", drifted (22 / 100)); ("f3", drifted (23 / 100));
   ("f4", drifted (24 / 100)); ("f5", drifted (25 / 100)); ("f6", drifted (90 / 100))].

(** Stand-ins for the external routines, to exhibit inputs on which the
    hypotheses of the theorems below hold: a KS routine that reports no
    difference, a chi-square routine that reports a perfect fit, and a
    formatter that prints nothing. *)
Definition stub_externals : Externals :=
  {| stats_ks_2samp := fun _ _ => Ok (Fin 0, Fin 1);
     chisquare_values := fun _ _ => (Fin 0, Fin 1);
     format_4f := fun _ => "" |}.

(** *** Exact arithmetic

    An instance of the interface in which nothing is rounded: the
    logarithm is the real one, sums are exact, [np.linspace] and the
    percentiles are computed over the rationals.  It is used only to
    exhibit inputs for the theorems below, and to see that the laws can
    hold together. *)

Fixpoint insert_sorted (x : Q) (l : list Q) : list Q :=
  match l with
  | [] => [x]
  | y :: l' => if Qle_bool x y then x :: l else y :: insert_sorted x l'
  end.

Definition sorted_copy (a : list Q) : list Q := foldr insert_sorted [] a.

(** [num] points from [start] to [stop], endpoint included: [m = num - 1]
    steps. *)
Definition exact_linspace_point (start stop : Q) (m i : nat) : Q :=
  (start + (stop - start) * inject_Z (Z.of_nat i) / inject_Z (Z.of_nat m))%Q.

Definition exact_linspace (start stop : Q) (num : nat) : list Q :=
  match num with
  | O => []
  | S O => [start]
  | S m => map (exact_linspace_point start stop m) (seq 0 num)
  end.

(** Linear interpolation of a sorted array at a fractional index: the
    index is split into its floor and its fractional part, the neighbour
    above is clipped to the last index, and the two order statistics are
    interpolated. *)
Definition exact_lerp_at (sorted : list Q) (virtual_index : Q) : Q :=
  let previous := Z.to_nat (Qfloor virtual_index) in
  let next := Nat.min (S previous) (length sorted - 1) in
  let gamma := (virtual_index - inject_Z (Qfloor virtual_index))%Q in
  let lo := nth previous sorted 0%Q in
  let hi := nth next sorted 0%Q in
  (lo + (hi - lo) * gamma)%Q.

Definition exact_percentile (sorted : list Q) (q : Q) : Q :=
  exact_lerp_at sorted (q / 100 * inject_Z (Z.of_nat (length sorted - 1)))%Q.

Definition exact_add (a b : float) : float :=
  match a, b with
  | Fin x, Fin y => Fin (x + y)
  | _, _ => NaN
  end.

Definition exact_sum (l : list float) : float := foldr exact_add (Fin 0) l.

Definition exact_numpy : NumPy :=
  {| rnd := fun x : R => x;
     unit_roundoff := 0;
     smallest_positive := 0;
     np_log := ln;
     np_sum := exact_sum;
     np_linspace := exact_linspace;
     interpolated_percentile := fun (a : list Q) (q : Q) => exact_percentile (sorted_copy a) q |}.

(** *** Further notions for the drift engine *)

(** [feature] names a column of both frames: the test that the loop of
    [detect_feature_drift] makes before it looks at the column. *)
Definition in_both_frames (reference_data current_data : DataFrame) (feature : string) : bool :=
  bool_decide (is_Some (reference_data !! feature)) &&
  bool_decide (is_Some (current_data !! feature)).

Section ReportNotions.
Context `{Externals} {N : NumPy}.
Variables (self : FraudDriftDetector) (reference_data current_data : DataFrame).

(** What an entry of the report is made of: the index (which may be NaN)
    and the KS pair of the two null-dropped columns, the flag and the
    severity label derived from them. *)
Definition computed_finding (feature : string) (finding : DriftFinding) : Prop :=
  exists ref_column cur_column : list (option Q),
    reference_data !! feature = Some ref_column /\
    current_data !! feature = Some cur_column /\
    calculate_psi (dropna_values ref_column) (dropna_values cur_column) 10 = Ok (psi finding) /\
    stats_ks_2samp (dropna_values ref_column) (dropna_values cur_column)
      = Ok (ks_statistic finding, ks_p_value finding) /\
    drift_detected finding =
      float_gt (psi finding) (threshold_psi self) ||
      float_lt (ks_p_value finding) (threshold_ks self) /\
    drift_severity finding = _classify_drift_severity (psi finding).

End ReportNotions.

(** The order of the three severity labels. *)
Definition severity_rank (severity : string) : nat :=
  if decide (severity = "none") then 0
  else if decide (severity = "moderate") then 1
  else 2.


End Drift.

(** ** api/auth.py *)

Module Auth.

(** *** JSON values, as [json.loads] builds them *)

(** A JSON float: a finite number, or one of the three literals [NaN],
    [Infinity], [-Infinity] that Python's [json] module reads and writes. *)
Inductive jfloat : Type :=
| FFin (q : Q)
| FNaN
| FPosInf
| FNegInf.

#[local] Set Warnings "-register-all".

Inductive json : Type :=
| JNull
| JBool (b : bool)
| JInt (z : Z)
| JFloat (f : jfloat)
| JStr (s : string)
| JList (items : list json)
| JObj (items : Py.dict json).

(** A JSON value that a Python object can be: the keys of every dictionary
    in it are distinct, and a finite float is written in lowest terms. *)
Fixpoint json_wf (v : json) : Prop :=
  match v with
  | JFloat (FFin q) => Qred q = q
  | JList items => fold_right (fun x P => json_wf x /\ P) True items
  | JObj items =>
      NoDup (map fst items) /\
      fold_right (fun kv P => json_wf (snd kv) /\ P) True items
  | _ => True
  end.

(** Python truthiness of a JSON value. *)
Definition truthy (v : json) : bool :=
  match v with
  | JNull => false
  | JBool b => b
  | JInt z => negb (Z.eqb z 0)
  | JFloat (FFin q) => negb (Qeq_bool q 0)
  | JFloat _ => true
  | JStr s => negb (String.eqb s "")
  | JList items => negb (Nat.eqb (length items) 0)
  | JObj items => negb (Nat.eqb (length items) 0)
  end.

(** [payload.get(key, default)]: only dictionaries have [get]. *)
Definition py_get (payload : json) (key : string) (default : json) : result json :=
  match payload with
  | JObj items =>
      match dict_get items key with
      | Some v => Ok v
      | None => Ok default
      end
  | _ => Raise AttributeError
  end.

Definition Qlt_bool (x y : Q) : bool := negb (Qle_bool y x).

(** [t > v] for a float [t] and a JSON value [v]: numbers and booleans
    compare, everything else is a [TypeError]. *)
Definition float_gt_json (t : Q) (v : json) : result bool :=
  match v with
  | JInt z => Ok (Qlt_bool (inject_Z z) t)
  | JBool b => Ok (Qlt_bool (if b then 1 else 0) t)
  | JFloat (FFin q) => Ok (Qlt_bool q t)
  | JFloat FNaN => Ok false
  | JFloat FPosInf => Ok false
  | JFloat FNegInf => Ok true
  | JNull | JStr _ | JList _ | JObj _ => Raise TypeError
  end.

(** *** Strings *)

(** [s.split(sep)] for a one-character separator. *)
Fixpoint split_on (sep : ascii) (s : string) : list string :=
  match s with
  | EmptyString => [EmptyString]
  | String c s' =>
      if Ascii.eqb c sep then EmptyString :: split_on sep s'
      else match split_on sep s' with
           | piece :: pieces => String c piece :: pieces
           | [] => [String c EmptyString]
           end
  end.

Fixpoint mem_char (c : ascii) (s : string) : bool :=
  match s with
  | EmptyString => false
  | String c' s' => Ascii.eqb c' c || mem_char c s'
  end.

(** [a, b = pieces]: [ValueError] unless there are exactly two. *)
Definition unpack2 (pieces : list string) : result (string * string) :=
  match pieces with
  | [a; b] => Ok (a, b)
  | _ => Raise ValueError
  end.

(** *** What the module takes from its runtime

    The standard-library and pydantic routines that [auth.py] calls, and the
    module constant [SECRET_KEY] (read from the environment at import). *)
Class Runtime : Type := {
  SECRET_KEY : string;
  (** [sha256(s.encode("utf-8")).hexdigest()] *)
  sha256_hexdigest : string -> string;
  (** [base64.urlsafe_b64encode(b).decode("utf-8")] *)
  urlsafe_b64encode : string -> string;
  (** [base64.urlsafe_b64decode(s.encode("utf-8"))] *)
  urlsafe_b64decode : string -> result string;
  (** [json.dumps(v).encode("utf-8")] *)
  json_dumps : json -> string;
  json_loads : string -> result json;
  (** pydantic's validation of the [username] field of [TokenData] *)
  validate_username : json -> result string;
  (** [str.title()] *)
  str_title : string -> string
}.

(** The documented behaviour of those routines that the theorems rely on. *)
Class RuntimeLaws (R : Runtime) : Prop := {
  b64_roundtrip : forall b : string, urlsafe_b64decode (urlsafe_b64encode b) = Ok b;
  b64_alphabet : forall b : string, mem_char "." (urlsafe_b64encode b) = false;
  hexdigest_alphabet : forall s : string, mem_char "." (sha256_hexdigest s) = false;
  json_roundtrip : forall v : json, json_wf v -> json_loads (json_dumps v) = Ok v;
  validate_username_str : forall s : string, validate_username (JStr s) = Ok s
}.

(** *** Models *)

Record TokenData : Type := {
  username : option string;
  scopes : list string
}.

Record User : Type := {
  user_username : string;
  email : option string;
  full_name : option string;
  disabled : option bool
}.

Record HTTPAuthorizationCredentials : Type := {
  scheme : string;
  credentials : string
}.

Definition ACCESS_TOKEN_EXPIRE_MINUTES : Z := 30.

(** *** Clock, [datetime] and [timedelta]

    The clock is read in seconds since the epoch.  A [datetime] is a whole
    number of microseconds since the epoch, a [timedelta] a whole number of
    microseconds. *)
Definition time_time (clock : Q) : Q := clock.

Definition datetime_now (clock : Q) : Z := Qfloor (clock * 1000000).

Definition timedelta_minutes (m : Z) : Z := m * 60 * 1000000.

(** [expires_delta or timedelta(minutes=...)]: [None] and the zero
    [timedelta] are falsy. *)
Definition timedelta_or (expires_delta : option Z) (default : Z) : Z :=
  match expires_delta with
  | Some d => if Z.eqb d 0 then default else d
  | None => default
  end.

(** [int(expire.timestamp())]: the seconds, truncated towards zero. *)
Definition int_timestamp (expire : Z) : Z := Z.quot expire 1000000.

(** *** The heap of dictionaries

    [create_access_token] receives a reference to the caller's dictionary. *)
Abbreviation loc := positive.
Abbreviation heap := (gmap loc (Py.dict json)).

(** [d.copy()]: a new dictionary object with the same items.  (A Python
    reference always denotes an object; the [None] branch only makes the
    function total.) *)
Definition dict_copy (h : heap) (d : loc) : result loc * heap :=
  match h !! d with
  | Some items => let fresh_loc := fresh (dom h) in (Ok fresh_loc, <[fresh_loc := items]> h)
  | None => (Raise (OtherException "dangling reference"), h)
  end.

(** [d.update(other)] for a literal [other]: the object at [d] is changed
    in place. *)
Definition dict_update (h : heap) (d : loc) (other : Py.dict json) : heap :=
  alter (fun items => fold_left (fun acc kv => dict_set acc (fst kv) (snd kv)) other items) d h.

(** *** Token functions *)

Definition _sign `{Runtime} (payload : string) : string :=
  sha256_hexdigest (payload ++ SECRET_KEY).

(** [create_access_token], on the heap [h] and with the clock reading
    [clock]; it returns the token and the heap it leaves. *)
Definition create_access_token `{Runtime} (h : heap) (clock : Q)
    (data : loc) (expires_delta : option Z) : result string * heap :=
  match dict_copy h data with
  | (Raise e, h) => (Raise e, h)
  | (Ok to_encode, h) =>
      let expire :=
        (datetime_now clock
         + timedelta_or expires_delta (timedelta_minutes ACCESS_TOKEN_EXPIRE_MINUTES))%Z in
      let h := dict_update h to_encode [("exp", JInt (int_timestamp expire))] in
      match h !! to_encode with
      | None => (Raise (OtherException "dangling reference"), h)
      | Some items =>
          let payload := urlsafe_b64encode (json_dumps (JObj items)) in
          let signature := _sign payload in
          (Ok (payload ++ "." ++ signature), h)
      end
  end.

Definition credentials_exception : exn :=
  HTTPException 401 "Could not validate credentials" "Bearer".

(** [decode_access_token], with the clock reading [clock]. *)
Definition decode_access_token `{Runtime} (clock : Q) (token : string) : result TokenData :=
  try_except
    ('(payload_b64, signature) ← unpack2 (split_on "." token);
     if negb (String.eqb signature (_sign payload_b64)) then Raise credentials_exception
     else
       raw ← urlsafe_b64decode payload_b64;
       payload ← json_loads raw;
       username ← py_get payload "sub" JNull;
       exp_ts ← py_get payload "exp" (JInt 0);
       rejected ← (if negb (truthy username) then Ok true
                   else float_gt_json (time_time clock) exp_ts);
       if (rejected : bool) then Raise credentials_exception
       else
         username ← validate_username username;
         Ok {| username := Some username; scopes := [] |})
    (fun _ => Raise credentials_exception).

(** *** Dependencies *)

(** [get_current_user]. *)
Definition get_current_user `{Runtime} (clock : Q)
    (creds : option HTTPAuthorizationCredentials) : result User :=
  match creds with
  | None => Raise (HTTPException 403 "Not authenticated" "Bearer")
  | Some c =>
      if String.eqb (credentials c) "" then Raise (HTTPException 403 "Not authenticated" "Bearer")
      else
        let token := credentials c in
        token_data ← decode_access_token clock token;
        match username token_data with
        | None => Raise AttributeError
        | Some name =>
            Ok {| user_username := name;
                  email := Some (name ++ "@example.com");
                  full_name := Some (str_title name);
                  disabled := Some false |}
        end
  end.

Definition api_key_auth_enabled (env : gmap string string) : bool :=
  String.eqb (lower (getenv env "ENABLE_API_KEY_AUTH" "false")) "true".

(** [verify_api_key]. *)
Definition verify_api_key (env : gmap string string) (api_key : option string) : result bool :=
  if negb (api_key_auth_enabled env) then Ok true
  else
    let valid_api_key := env !! "API_KEY" in
    match valid_api_key with
    | None => Ok true
    | Some valid =>
        if String.eqb valid "" then Ok true
        else
          match api_key with
          | None => Raise (HTTPException 401 "Invalid or missing API Key" "API-Key")
          | Some key =>
              if negb (String.eqb key valid)
              then Raise (HTTPException 401 "Invalid or missing API Key" "API-Key")
              else Ok true
          end
    end.

(** [User(username="api_key_user", email="api@example.com")]. *)
Definition api_key_user : User :=
  {| user_username := "api_key_user";
     email := Some "api@example.com";
     full_name := None;
     disabled := None |}.

(** [try: return body / except HTTPException: pass]: [Some] when the
    function returned from inside the [try], [None] when control falls
    through to the next statement. *)
Definition try_return {A : Type} (body : result A) : result (option A) :=
  try_except_HTTP (a ← body; Ok (Some a)) (fun _ => Ok None).

(** [get_current_user_optional]. *)
Definition get_current_user_optional `{Runtime} (env : gmap string string) (clock : Q)
    (creds : option HTTPAuthorizationCredentials) (api_key : option string)
  : result (option User) :=
  returned ← match creds with
             | Some _ => try_return (get_current_user clock creds)
             | None => Ok None
             end;
  match returned with
  | Some user => Ok (Some user)
  | None =>
      returned ← match api_key with
                 | Some key =>
                     if negb (String.eqb key "")
                     then try_return (_ ← verify_api_key env api_key; Ok api_key_user)
                     else Ok None
                 | None => Ok None
                 end;
      match returned with
      | Some user => Ok (Some user)
      | None => Ok None
      end
  end.

(** *** Notions used to state the theorems *)

Section Notions.
Context `{Runtime}.

(** The ways in which a token can fail validation. *)
Inductive failure_mode (clock : Q) (token : string) : Prop :=
| wrong_separator_count :
    length (split_on "." token) <> 2%nat -> failure_mode clock token
| signature_mismatch (payload_b64 signature : string) :
    split_on "." token = [payload_b64; signature] ->
    signature <> _sign payload_b64 -> failure_mode clock token
| malformed_encoding (payload_b64 : string) (e : exn) :
    split_on "." token = [payload_b64; _sign payload_b64] ->
    urlsafe_b64decode payload_b64 = Raise e -> failure_mode clock token
| malformed_json (payload_b64 raw : string) (e : exn) :
    split_on "." token = [payload_b64; _sign payload_b64] ->
    urlsafe_b64decode payload_b64 = Ok raw ->
    json_loads raw = Raise e -> failure_mode clock token
| claims_not_an_object (payload_b64 raw : string) (payload : json) :
    split_on "." token = [payload_b64; _sign payload_b64] ->
    urlsafe_b64decode payload_b64 = Ok raw ->
    json_loads raw = Ok payload ->
    (forall items, payload <> JObj items) -> failure_mode clock token
| missing_or_empty_subject (payload_b64 raw : string) (payload subject : json) :
    split_on "." token = [payload_b64; _sign payload_b64] ->
    urlsafe_b64decode payload_b64 = Ok raw ->
    json_loads raw = Ok payload ->
    py_get payload "sub" JNull = Ok subject ->
    truthy subject = false -> failure_mode clock token
| expiry_not_a_number (payload_b64 raw : string) (payload subject exp_ts : json) (e : exn) :
    split_on "." token = [payload_b64; _sign payload_b64] ->
    urlsafe_b64decode payload_b64 = Ok raw ->
    json_loads raw = Ok payload ->
    py_get payload "sub" JNull = Ok subject ->
    truthy subject = true ->
    py_get payload "exp" (JInt 0) = Ok exp_ts ->
    float_gt_json (time_time clock) exp_ts = Raise e -> failure_mode clock token
| expired (payload_b64 raw : string) (payload subject exp_ts : json) :
    split_on "." token = [payload_b64; _sign payload_b64] ->
    urlsafe_b64decode payload_b64 = Ok raw ->
    json_loads raw = Ok payload ->
    py_get payload "sub" JNull = Ok subject ->
    truthy subject = true ->
    py_get payload "exp" (JInt 0) = Ok exp_ts ->
    float_gt_json (time_time clock) exp_ts = Ok true -> failure_mode clock token
| subject_not_a_string (payload_b64 raw : string) (payload subject exp_ts : json) (e : exn) :
    split_on "." token = [payload_b64; _sign payload_b64] ->
    urlsafe_b64decode payload_b64 = Ok raw ->
    json_loads raw = Ok payload ->
    py_get payload "sub" JNull = Ok subject ->
    truthy subject = true ->
    py_get payload "exp" (JInt 0) = Ok exp_ts ->
    float_gt_json (time_time clock) exp_ts = Ok false ->
    validate_username subject = Raise e -> failure_mode clock token.

(** The claims that [create_access_token] encodes, and the token it
    returns, for a caller's dictionary [items]. *)
Definition issued_claims (clock : Q) (expires_delta : option Z) (items : Py.dict json)
  : Py.dict json :=
  dict_set items "exp"
    (JInt (int_timestamp
             (datetime_now clock
              + timedelta_or expires_delta (timedelta_minutes ACCESS_TOKEN_EXPIRE_MINUTES)))).

Definition issued_token (clock : Q) (expires_delta : option Z) (items : Py.dict json) : string :=
  let payload := urlsafe_b64encode (json_dumps (JObj (issued_claims clock expires_delta items))) in
  payload ++ "." ++ _sign payload.

(** The bearer path hands back an identity. *)
Definition bearer_identity (clock : Q) (creds : option HTTPAuthorizationCredentials)
  : option User :=
  match creds with
  | Some _ =>
      match get_current_user clock creds with
      | Ok user => Some user
      | Raise _ => None
      end
  | None => None
  end.

(** The key that API-key verification compares against, when there is one. *)
Definition configured_key (env : gmap string string) : option string :=
  match env !! "API_KEY" with
  | Some valid => if String.eqb valid "" then None else Some valid
  | None => None
  end.

End Notions.

(** A heap holding the claims of one login, [{"sub": "alice"}]. *)
Definition alice_heap : heap := {[ 1%positive := [("sub", JStr "alice")] ]}.

(** *** A runtime that satisfies the laws

    Used to exhibit inputs on which the hypotheses of the theorems hold: it
    writes a value as the binary digits of its code in a countable
    enumeration, so encoding is injective and never produces a dot.  It
    stands in for the real codecs only where their laws are all that
    matters. *)

Fixpoint digits_of_pos (p : positive) : string :=
  match p with
  | xH => EmptyString
  | xO p' => String "0" (digits_of_pos p')
  | xI p' => String "1" (digits_of_pos p')
  end.

Fixpoint pos_of_digits (s : string) : option positive :=
  match s with
  | EmptyString => Some xH
  | String c s' =>
      match pos_of_digits s' with
      | Some p =>
          if Ascii.eqb c "0" then Some (xO p)
          else if Ascii.eqb c "1" then Some (xI p)
          else None
      | None => None
      end
  end.

Definition leaf : Type := (bool + Z) + ((Z * positive) + (nat + string)).

Fixpoint tree_of_json (v : json) : gen_tree leaf :=
  match v with
  | JNull => GenNode 0 []
  | JBool b => GenLeaf (inl (inl b))
  | JInt z => GenLeaf (inl (inr z))
  | JFloat (FFin q) => GenLeaf (inr (inl (Qnum q, Qden q)))
  | JFloat FNaN => GenLeaf (inr (inr (inl 0%nat)))
  | JFloat FPosInf => GenLeaf (inr (inr (inl 1%nat)))
  | JFloat FNegInf => GenLeaf (inr (inr (inl 2%nat)))
  | JStr s => GenLeaf (inr (inr (inr s)))
  | JList items => GenNode 1 (map tree_of_json items)
  | JObj items =>
      GenNode 2 (map (fun kv : string * json =>
                        GenNode 3 [GenLeaf (inr (inr (inr (fst kv)))); tree_of_json (snd kv)])
                     items)
  end.

Fixpoint json_of_tree (t : gen_tree leaf) : json :=
  match t with
  | GenLeaf (inl (inl b)) => JBool b
  | GenLeaf (inl (inr z)) => JInt z
  | GenLeaf (inr (inl (n, d))) => JFloat (FFin (Qmake n d))
  | GenLeaf (inr (inr (inl O))) => JFloat FNaN
  | GenLeaf (inr (inr (inl (S O)))) => JFloat FPosInf
  | GenLeaf (inr (inr (inl _))) => JFloat FNegInf
  | GenLeaf (inr (inr (inr s))) => JStr s
  | GenNode 1 ts => JList (map json_of_tree ts)
  | GenNode 2 ts =>
      JObj (map (fun t' : gen_tree leaf =>
                   match t' with
                   | GenNode _ [GenLeaf (inr (inr (inr k))); tv] => (k, json_of_tree tv)
                   | _ => (EmptyString, JNull)
                   end) ts)
  | GenNode _ _ => JNull
  end.

Definition model_runtime : Runtime :=
  {| SECRET_KEY := "your-secret-key-change-in-production";
     sha256_hexdigest := fun s : string => digits_of_pos (encode s);
     urlsafe_b64encode := fun b : string => digits_of_pos (encode b);
     urlsafe_b64decode := fun s : string =>
       match pos_of_digits s ≫= decode with
       | Some b => Ok (b : string)
       | None => Raise ValueError
       end;
     json_dumps := fun v : json => digits_of_pos (encode (tree_of_json v));
     json_loads := fun s : string =>
       match pos_of_digits s ≫= decode with
       | Some t => Ok (json_of_tree t)
       | None => Raise ValueError
       end;
     validate_username := fun v =>
       match v with
       | JStr s => Ok s
       | _ => Raise ValueError
       end;
     str_title := fun s => s |}.

(** *** The active-user dependency *)

(** [get_current_active_user], given what [Depends(get_current_user)]
    resolved to.  The exception is raised without headers; the header field
    is left empty. *)
Definition get_current_active_user (current_user : option User) : result User :=
  match current_user with
  | None => Raise (HTTPException 400 "Inactive user" "")
  | Some user =>
      match disabled user with
      | Some true => Raise (HTTPException 400 "Inactive user" "")
      | _ => Ok user
      end
  end.

(** [Depends(get_current_active_user)], as the framework resolves it: the
    inner dependency first, its exception passed on. *)
Definition current_active_user `{Runtime} (clock : Q)
    (creds : option HTTPAuthorizationCredentials) : result User :=
  current_user ← get_current_user clock creds;
  get_current_active_user (Some current_user).

(** *** Passwords and the user table *)

(** [get_password_hash]. *)
Definition get_password_hash `{Runtime} (password : string) : string :=
  sha256_hexdigest password.

(** [verify_password]. *)
Definition verify_password `{Runtime} (plain_password hashed_password : string) : bool :=
  String.eqb hashed_password (get_password_hash plain_password).

(** [fake_users_db]. *)
Definition fake_users_db `{Runtime} : Py.dict (Py.dict json) :=
  [("admin",
    [("username", JStr "admin");
     ("full_name", JStr "Admin User");
     ("email", JStr "admin@frauddetection.com");
     ("hashed_password", JStr (get_password_hash "admin123"));
     ("disabled", JBool false)]);
   ("testuser",
    [("username", JStr "testuser");
     ("full_name", JStr "Test User");
     ("email", JStr "test@frauddetection.com");
     ("hashed_password", JStr (get_password_hash "test123"));
     ("disabled", JBool false)])].

(** [User] built from the items of [user_dict] as keyword arguments:
    pydantic ignores the keys that the model does not declare; a value of
    another type than the declared one is reported here as a validation
    error. *)
Definition optional_str_field (v : option json) : result (option string) :=
  match v with
  | None | Some JNull => Ok None
  | Some (JStr s) => Ok (Some s)
  | Some _ => Raise (OtherException "ValidationError")
  end.

Definition optional_bool_field (v : option json) : result (option bool) :=
  match v with
  | None | Some JNull => Ok None
  | Some (JBool b) => Ok (Some b)
  | Some _ => Raise (OtherException "ValidationError")
  end.

Definition User_of_dict (user_dict : Py.dict json) : result User :=
  match dict_get user_dict "username" with
  | Some (JStr name) =>
      user_email ← optional_str_field (dict_get user_dict "email");
      user_full_name ← optional_str_field (dict_get user_dict "full_name");
      user_disabled ← optional_bool_field (dict_get user_dict "disabled");
      Ok {| user_username := name;
            email := user_email;
            full_name := user_full_name;
            disabled := user_disabled |}
  | _ => Raise (OtherException "ValidationError")
  end.

(** [authenticate_user]. *)
Definition authenticate_user `{Runtime} (username password : string) : result (option User) :=
  match dict_get fake_users_db username with
  | None => Ok None
  | Some user_dict =>
      if negb (truthy (JObj user_dict)) then Ok None
      else
        match dict_get user_dict "hashed_password" with
        | None => Raise KeyError
        | Some hashed_password =>
            if negb match hashed_password with
                    | JStr digest => verify_password password digest
                    | _ => false
                    end
            then Ok None
            else user ← User_of_dict user_dict; Ok (Some user)
        end
  end.

End Auth.

(** ** src/monitoring/alerts.py *)

Module Alerts.

Inductive AlertSeverity : Type := INFO | WARNING | ERROR | CRITICAL.

Inductive AlertChannel : Type := SLACK | TEAMS | EMAIL | WEBHOOK.

#[global] Instance AlertChannel_eq_dec : EqDecision AlertChannel.
Proof. solve_decision. Defined.

#[global] Instance AlertChannel_countable : Countable AlertChannel.
Proof.
  refine (inj_countable'
            (fun ch => match ch with SLACK => 0 | TEAMS => 1 | EMAIL => 2 | WEBHOOK => 3 end)%nat
            (fun n => match n with
                      | 0 => SLACK | 1 => TEAMS | 2 => EMAIL | _ => WEBHOOK
                      end)%nat _).
  intros []; reflexivity.
Defined.

Record Alert : Type := {
  title : string;
  message : string;
  severity : AlertSeverity;
  timestamp : string;
  metrics : option (Py.dict Auth.json);
  metadata : option (Py.dict Auth.json)
}.

Record AlertManager : Type := {
  slack_enabled : bool;
  teams_enabled : bool;
  email_enabled : bool;
  slack_webhook : option string;
  teams_webhook : option string
}.

(** Truthiness of an optional string: [None] and [""] are falsy. *)
Definition truthy_str (s : option string) : bool :=
  match s with
  | Some v => negb (String.eqb v "")
  | None => false
  end.

(** [AlertManager.__init__], reading the process environment [env]. *)
Definition AlertManager_init (env : gmap string string) : AlertManager :=
  {| slack_enabled := String.eqb (lower (getenv env "SLACK_ENABLED" "false")) "true";
     teams_enabled := String.eqb (lower (getenv env "TEAMS_ENABLED" "false")) "true";
     email_enabled := String.eqb (lower (getenv env "EMAIL_ENABLED" "false")) "true";
     slack_webhook := env !! "SLACK_WEBHOOK_URL";
     teams_webhook := env !! "TEAMS_WEBHOOK_URL" |}.

(** The outside world: posting to a webhook ([requests.post] followed by
    [raise_for_status]), the SMTP conversation, [int] of a string, and the
    wall clock rendered by [strftime]. *)
Class Outside : Type := {
  requests_post : option string -> Alert -> result unit;
  smtp_send : string -> Z -> Alert -> result unit;
  int_of_string : string -> result Z;
  now_string : string
}.

(** The senders are run against a log of the channels on which a delivery
    was attempted. *)
Definition attempt (ch : AlertChannel) (log : list AlertChannel) : list AlertChannel :=
  log ++ [ch].

(** [_send_slack]: any exception is caught and reported as [False]. *)
Definition _send_slack `{Outside} (self : AlertManager) (alert : Alert)
    (log : list AlertChannel) : bool * list AlertChannel :=
  (match try_except (_ ← requests_post (slack_webhook self) alert; Ok true)
                    (fun _ => Ok false) with
   | Ok b => b
   | Raise _ => false
   end, attempt SLACK log).

(** [_send_teams]. *)
Definition _send_teams `{Outside} (self : AlertManager) (alert : Alert)
    (log : list AlertChannel) : bool * list AlertChannel :=
  (match try_except (_ ← requests_post (teams_webhook self) alert; Ok true)
                    (fun _ => Ok false) with
   | Ok b => b
   | Raise _ => false
   end, attempt TEAMS log).

(** [_send_email], reading the SMTP settings from the environment. *)
Definition _send_email `{Outside} (env : gmap string string) (alert : Alert)
    (log : list AlertChannel) : bool * list AlertChannel :=
  (match try_except
           (let smtp_server := getenv env "SMTP_SERVER" "smtp.gmail.com" in
            smtp_port ← int_of_string (getenv env "SMTP_PORT" "587");
            let smtp_username := env !! "SMTP_USERNAME" in
            let smtp_password := env !! "SMTP_PASSWORD" in
            let from_email := env !! "ALERT_EMAIL_FROM" in
            let to_email := env !! "ALERT_EMAIL_TO" in
            if negb (truthy_str smtp_username && truthy_str smtp_password &&
                     truthy_str from_email && truthy_str to_email)
            then Ok false
            else _ ← smtp_send smtp_server smtp_port alert; Ok true)
           (fun _ => Ok false) with
   | Ok b => b
   | Raise _ => false
   end, attempt EMAIL log).

(** [send_alert]: the outcome mapping and the log of attempts. *)
Definition send_alert `{Outside} (self : AlertManager) (env : gmap string string)
    (title message : string) (severity : AlertSeverity)
    (metrics metadata : option (Py.dict Auth.json)) (log : list AlertChannel)
  : gmap AlertChannel bool * list AlertChannel :=
  let alert :=
    {| title := title; message := message; severity := severity;
       timestamp := now_string; metrics := metrics; metadata := metadata |} in
  let results : gmap AlertChannel bool := ∅ in
  let '(results, log) :=
    if slack_enabled self && truthy_str (slack_webhook self)
    then let '(sent, log) := _send_slack self alert log in (<[SLACK := sent]> results, log)
    else (results, log) in
  let '(results, log) :=
    if teams_enabled self && truthy_str (teams_webhook self)
    then let '(sent, log) := _send_teams self alert log in (<[TEAMS := sent]> results, log)
    else (results, log) in
  let '(results, log) :=
    if email_enabled self
    then let '(sent, log) := _send_email env alert log in (<[EMAIL := sent]> results, log)
    else (results, log) in
  (results, log).

(** The claim's words: the channels enabled when the manager is built from
    the environment [env]. *)
Definition spec_channel_enabled (env : gmap string string) (ch : AlertChannel) : Prop :=
  match ch with
  | SLACK =>
      lower (getenv env "SLACK_ENABLED" "false") = "true" /\
      exists url : string, env !! "SLACK_WEBHOOK_URL" = Some url /\ url <> ""
  | TEAMS =>
      lower (getenv env "TEAMS_ENABLED" "false") = "true" /\
      exists url : string, env !! "TEAMS_WEBHOOK_URL" = Some url /\ url <> ""
  | EMAIL => lower (getenv env "EMAIL_ENABLED" "false") = "true"
  | WEBHOOK => False
  end.

(** *** The two alert wrappers *)

(** The renderings used in the alert texts: [f"{x:.4f}"] of a float, and
    [f"{x:.2%}"] and [f"{x:.1f}"] of a finite number. *)
Class Formats : Type := {
  fmt_4f : Auth.jfloat -> string;
  fmt_2pct : Q -> string;
  fmt_1f : Q -> string
}.

(** [x < c] for a float [x] and a finite constant [c]. *)
Definition jfloat_lt (x : Auth.jfloat) (c : Q) : bool :=
  match x with
  | Auth.FFin q => Auth.Qlt_bool q c
  | Auth.FNegInf => true
  | Auth.FNaN | Auth.FPosInf => false
  end.

(** [send_drift_alert]; the caller's [threshold] defaults to 0.2. *)
Definition send_drift_alert `{Outside} `{Formats} (self : AlertManager)
    (env : gmap string string) (feature_name : string)
    (drift_score threshold : Auth.jfloat) (log : list AlertChannel)
  : gmap AlertChannel bool * list AlertChannel :=
  let severity := if jfloat_lt drift_score (3 # 10) then WARNING else CRITICAL in
  send_alert self env
    ("Data Drift Detected: " ++ feature_name)
    ("Drift score (" ++ fmt_4f drift_score ++ ") exceeds threshold (" ++ fmt_4f threshold
       ++ "). " ++ "Consider retraining the model.")
    severity
    (Some [("drift_score", Auth.JFloat drift_score); ("threshold", Auth.JFloat threshold);
           ("feature", Auth.JStr feature_name)])
    (Some [("alert_type", Auth.JStr "data_drift");
           ("model", Auth.JStr "fraud-detection-model")])
    log.

(** [send_fraud_spike_alert], for finite rates (computed exactly); without
    a positive expected rate the increase is the integer 0. *)
Definition send_fraud_spike_alert `{Outside} `{Formats} (self : AlertManager)
    (env : gmap string string) (current_rate expected_rate : Q)
    (log : list AlertChannel) : gmap AlertChannel bool * list AlertChannel :=
  let increase : Q :=
    if Auth.Qlt_bool 0 expected_rate
    then (Qabs (current_rate - expected_rate) / expected_rate * 100)%Q
    else 0%Q in
  let severity := if Auth.Qlt_bool increase 50 then WARNING else CRITICAL in
  send_alert self env
    "Fraud Rate Spike Detected"
    ("Current fraud rate (" ++ fmt_2pct current_rate ++ ") is " ++ fmt_1f increase
       ++ "% higher " ++ "than expected (" ++ fmt_2pct expected_rate
       ++ "). Investigate immediately.")
    severity
    (Some [("current_fraud_rate", Auth.JFloat (Auth.FFin current_rate));
           ("expected_fraud_rate", Auth.JFloat (Auth.FFin expected_rate));
           ("increase_pct",
            if Auth.Qlt_bool 0 expected_rate
            then Auth.JFloat (Auth.FFin increase) else Auth.JInt 0)])
    (Some [("alert_type", Auth.JStr "fraud_spike")])
    log.

(** The outcome that a sender reports for a delivery. *)
Definition delivered (outcome : result unit) : bool :=
  match outcome with
  | Ok _ => true
  | Raise _ => false
  end.

End Alerts.

(** ** api/main.py *)

Module Api.
Import Auth.

(** *** The token and identity endpoints *)




(** *** The prediction endpoints *)

Definition MODEL_VERSION : string := "1.0.0".

(** The loaded model, as far as the handlers look at it: the optional
    attribute [feature_names_in_], and [predict_proba(X)[0, 1]] on a frame of
    one row, which may raise.  Probabilities are finite numbers. *)
Record Model : Type := {
  feature_names_in_ : option (list string);
  predict_proba : Py.dict Q -> result Q
}.

(** What the handlers take from outside: the hexadecimal digits of the
    [n]-th random UUID, the wall clock rendered by [isoformat], and [str] of
    an exception. *)
Class Server : Type := {
  uuid4_hex : nat -> string;
  isoformat_now : string;
  str_of_exn : exn -> string
}.

(** [classify_risk_level]. *)
Definition classify_risk_level (probability : Q) : string :=
  if Qlt_bool probability (3 # 10) then "LOW"
  else if Qlt_bool probability (5 # 10) then "MEDIUM"
  else if Qlt_bool probability (7 # 10) then "HIGH"
  else "CRITICAL".

(** [str.upper()] on ASCII letters. *)
Definition upper_ascii (c : ascii) : ascii :=
  let n := nat_of_ascii c in
  if (97 <=? n)%nat && (n <=? 122)%nat then ascii_of_nat (n - 32) else c.

Fixpoint upper (s : string) : string :=
  match s with
  | EmptyString => EmptyString
  | String c s' => String (upper_ascii c) (upper s')
  end.

(** [generate_transaction_id], with the number of UUIDs drawn so far. *)
Definition generate_transaction_id `{Server} (draws : nat) : string * nat :=
  ("TXN-" ++ upper (String.substring 0 12 (uuid4_hex draws)), S draws).

Definition expected_columns : list string :=
  ["Time"; "V1"; "V2"; "V3"; "V4"; "V5"; "V6"; "V7"; "V8"; "V9";
   "V10"; "V11"; "V12"; "V13"; "V14"; "V15"; "V16"; "V17"; "V18";
   "V19"; "V20"; "V21"; "V22"; "V23"; "V24"; "V25"; "V26"; "V27";
   "V28"; "Amount"].

(** [for col in columns: if col not in df.columns: df[col] = 0.0], on a
    frame of one row. *)
Definition add_missing (columns : list string) (df : Py.dict Q) : Py.dict Q :=
  fold_left
    (fun (df : Py.dict Q) (col : string) =>
       if bool_decide (col ∈ dict_keys df) then df else dict_set df col 0%Q)
    columns df.

(** [df[columns]]: the named columns in the given order; [KeyError] for a
    missing one. *)
Fixpoint select_columns (df : Py.dict Q) (columns : list string) : result (Py.dict Q) :=
  match columns with
  | [] => Ok []
  | col :: columns' =>
      match dict_get df col with
      | None => Raise KeyError
      | Some value =>
          selected ← select_columns df columns';
          Ok ((col, value) :: selected)
      end
  end.

(** [align_features], for the global [MODEL]. *)
Definition align_features (MODEL : option Model) (df : Py.dict Q) : result (Py.dict Q) :=
  match MODEL with
  | None => Ok df
  | Some model =>
      let df := add_missing expected_columns df in
      df ← select_columns df expected_columns;
      match feature_names_in_ model with
      | Some model_features =>
          let df := add_missing model_features df in
          select_columns df model_features
      | None => Ok df
      end
  end.

Record PredictionResponse : Type := {
  transaction_id : string;
  fraud_probability : Q;
  is_fraud : bool;
  risk_level : string;
  threshold_used : Q;
  model_version : string;
  prediction_timestamp : string
}.

(** The constructor of [PredictionResponse]: pydantic checks
    [0 <= fraud_probability <= 1]. *)
Definition PredictionResponse_new (transaction_id : string) (fraud_probability : Q)
    (is_fraud : bool) (risk_level : string) (threshold_used : Q)
    (model_version prediction_timestamp : string) : result PredictionResponse :=
  if Qle_bool 0 fraud_probability && Qle_bool fraud_probability 1
  then Ok {| transaction_id := transaction_id;
             fraud_probability := fraud_probability;
             is_fraud := is_fraud;
             risk_level := risk_level;
             threshold_used := threshold_used;
             model_version := model_version;
             prediction_timestamp := prediction_timestamp |}
  else Raise (OtherException "ValidationError").

(** The statements that both prediction handlers run for one transaction
    (given as [transaction.model_dump()]), for the globals [MODEL] and
    [OPTIMAL_THRESHOLD]. *)
Definition predict_one `{Server} (model : Model) (OPTIMAL_THRESHOLD : Q)
    (transaction : Py.dict Q) (draws : nat) : result (PredictionResponse * nat) :=
  let features_dict := transaction in
  let features_df := features_dict in
  features_df ← align_features (Some model) features_df;
  fraud_probability ← predict_proba model features_df;
  let is_fraud := Qle_bool OPTIMAL_THRESHOLD fraud_probability in
  let risk_level := classify_risk_level fraud_probability in
  let '(transaction_id, draws) := generate_transaction_id draws in
  response ← PredictionResponse_new transaction_id fraud_probability is_fraud risk_level
               OPTIMAL_THRESHOLD MODEL_VERSION isoformat_now;
  Ok (response, draws).

(** [predict_single], once its dependencies are resolved. *)
Definition predict_single `{Server} (MODEL : option Model) (OPTIMAL_THRESHOLD : Q)
    (transaction : Py.dict Q) (draws : nat) : result (PredictionResponse * nat) :=
  match MODEL with
  | None => Raise (HTTPException 503 "Model not loaded" "")
  | Some model =>
      try_except (predict_one model OPTIMAL_THRESHOLD transaction draws)
        (fun e => Raise (HTTPException 500 ("Prediction error: " ++ str_of_exn e) ""))
  end.

(** The [for transaction in request.transactions] loop of [predict_batch]. *)
Fixpoint predict_loop `{Server} (model : Model) (OPTIMAL_THRESHOLD : Q)
    (transactions : list (Py.dict Q)) (predictions : list PredictionResponse)
    (draws : nat) : result (list PredictionResponse * nat) :=
  match transactions with
  | [] => Ok (predictions, draws)
  | transaction :: transactions' =>
      '(response, draws) ← predict_one model OPTIMAL_THRESHOLD transaction draws;
      predict_loop model OPTIMAL_THRESHOLD transactions' (predictions ++ [response]) draws
  end.

Record BatchPredictionResponse : Type := {
  predictions : list PredictionResponse;
  total_transactions : nat;
  fraud_count : nat;
  fraud_rate : Q;
  processing_time : Q
}.

(** [predict_batch]; [start_time] and [end_time] are the two readings of
    [time.time()]. *)
Definition predict_batch `{Server} (MODEL : option Model) (OPTIMAL_THRESHOLD : Q)
    (transactions : list (Py.dict Q)) (start_time end_time : Q) (draws : nat)
  : result (BatchPredictionResponse * nat) :=
  match MODEL with
  | None => Raise (HTTPException 503 "Model not loaded" "")
  | Some model =>
      try_except
        ('(predictions, draws) ← predict_loop model OPTIMAL_THRESHOLD transactions [] draws;
         let fraud_count := length (List.filter is_fraud predictions) in
         let fraud_rate :=
           match predictions with
           | _ :: _ => (inject_Z (Z.of_nat fraud_count)
                        / inject_Z (Z.of_nat (length predictions)))%Q
           | [] => 0%Q
           end in
         let processing_time := (end_time - start_time)%Q in
         Ok ({| predictions := predictions;
                total_transactions := length predictions;
                fraud_count := fraud_count;
                fraud_rate := fraud_rate;
                processing_time := processing_time |}, draws))
        (fun e => Raise (HTTPException 500 ("Batch prediction error: " ++ str_of_exn e) ""))
  end.

(** The order of the four risk levels. *)
Definition risk_rank (level : string) : nat :=
  if decide (level = "LOW") then 0
  else if decide (level = "MEDIUM") then 1
  else if decide (level = "HIGH") then 2
  else 3.

(** *** Loading the model *)




End Api.

(* ===================================================================== *)
(** * Part II.  Theorems                                                   *)
(* ===================================================================== *)

(* --------------------------------------------------------------------- *)
(** ** Dictionaries and strings *)

Module PyFacts.

Section Dict.
Context {V : Type}.

Lemma dict_get_set (d : Py.dict V) (k k' : string) (v : V) :
  dict_get (dict_set d k v) k' = if decide (k = k') then Some v else dict_get d k'.
Proof.
  induction d as [|[k0 v0] d IH]; simpl.
  - destruct (String.eqb_spec k k') as [-> | NE].
    + now rewrite decide_True.
    + now rewrite decide_False.
  - destruct (String.eqb_spec k0 k) as [-> | NE]; simpl.
    + destruct (String.eqb_spec k k') as [-> | NE'].
      * now rewrite decide_True.
      * now rewrite decide_False.
    + destruct (String.eqb_spec k0 k') as [-> | NE'].
      * rewrite decide_False by congruence. reflexivity.
      * exact IH.
Qed.
End Dict.

Lemma dict_get_set_same {V : Type} (d : Py.dict V) (k : string) (v : V) :
  dict_get (dict_set d k v) k = Some v.
Proof. rewrite dict_get_set. now rewrite decide_True. Qed.

Lemma dict_get_set_other {V : Type} (d : Py.dict V) (k k' : string) (v : V) :
  k <> k' -> dict_get (dict_set d k v) k' = dict_get d k'.
Proof. intros NE. rewrite dict_get_set. now rewrite decide_False. Qed.

Lemma dict_set_keys_elem {V : Type} (d : Py.dict V) (k k' : string) (v : V) :
  k' ∈ map fst (dict_set d k v) <-> k' = k \/ k' ∈ map fst d.
Proof.
  induction d as [|[k0 v0] d IH]; simpl.
  - rewrite list_elem_of_singleton, elem_of_nil. tauto.
  - destruct (String.eqb_spec k0 k) as [-> | NE]; simpl.
    + rewrite !elem_of_cons. tauto.
    + rewrite !elem_of_cons, IH. tauto.
Qed.

Lemma dict_set_NoDup {V : Type} (d : Py.dict V) (k : string) (v : V) :
  NoDup (map fst d) -> NoDup (map fst (dict_set d k v)).
Proof.
  induction d as [|[k0 v0] d IH]; simpl; intros Hnd.
  - apply NoDup_singleton.
  - apply NoDup_cons in Hnd as [Hk0 Hnd].
    destruct (String.eqb_spec k0 k) as [-> | NE]; simpl.
    + apply NoDup_cons_2; assumption.
    + apply NoDup_cons_2; [|now apply IH].
      rewrite dict_set_keys_elem. intros [-> | Hin]; [congruence | contradiction].
Qed.

Lemma dict_get_In {V : Type} (d : Py.dict V) (k : string) (v : V) :
  NoDup (dict_keys d) -> In (k, v) d -> dict_get d k = Some v.
Proof.
  induction d as [|[k0 v0] d IH]; intros Hnd Hin; [contradiction|].
  apply NoDup_cons in Hnd as [Hk0 Hnd]. simpl.
  destruct Hin as [E | Hin].
  - injection E as -> ->. now rewrite String.eqb_refl.
  - destruct (String.eqb_spec k0 k) as [-> | NE]; [|now apply IH].
    exfalso. apply Hk0. apply list_elem_of_In. unfold dict_keys.
    apply in_map_iff. exists (k, v). split; [reflexivity | exact Hin].
Qed.

Lemma string_app_assoc (a b c : string) : (a ++ b) ++ c = a ++ (b ++ c).
Proof.
  induction a as [|ch a IH]; [reflexivity|].
  change (String ch ((a ++ b) ++ c) = String ch (a ++ (b ++ c))). now rewrite IH.
Qed.

Lemma string_app_empty_r (a : string) : a ++ "" = a.
Proof.
  induction a as [|ch a IH]; [reflexivity|].
  change (String ch (a ++ "") = String ch a). now rewrite IH.
Qed.

End PyFacts.

(* --------------------------------------------------------------------- *)
(** ** Drift detection *)

Module DriftSpec.
Import Drift PyFacts.
Local Open Scope R_scope.

Lemma float_lt_Fin (x y : R) : float_lt (Fin x) (Fin y) = true <-> x < y.
Proof. unfold float_lt. apply bool_decide_eq_true. Qed.

Lemma float_lt_Fin_false (x y : R) : float_lt (Fin x) (Fin y) = false <-> y <= x.
Proof.
  unfold float_lt. rewrite bool_decide_eq_false. split; lra.
Qed.

(** *** Severity classification *)

(** C1.  Severity is a step function of PSI alone: for every real [psi] the
    classifier answers "none" exactly when [psi < 0.1], "moderate" exactly
    when [0.1 <= psi < 0.2] and "significant" exactly when [psi >= 0.2]; at
    the boundaries, 0.1 is "moderate" and 0.2 is "significant". *)
Theorem C1_classify_drift_severity_step :
  forall psi : R,
    (_classify_drift_severity (Fin psi) = "none" <-> psi < 1 / 10) /\
    (_classify_drift_severity (Fin psi) = "moderate" <-> 1 / 10 <= psi < 2 / 10) /\
    (_classify_drift_severity (Fin psi) = "significant" <-> 2 / 10 <= psi) /\
    _classify_drift_severity (Fin (1 / 10)) = "moderate" /\
    _classify_drift_severity (Fin (2 / 10)) = "significant".
Proof.
  assert (Hcases : forall x : R,
    (x < 1 / 10 /\ _classify_drift_severity (Fin x) = "none") \/
    (1 / 10 <= x < 2 / 10 /\ _classify_drift_severity (Fin x) = "moderate") \/
    (2 / 10 <= x /\ _classify_drift_severity (Fin x) = "significant")).
  { intros x. unfold _classify_drift_severity.
    destruct (float_lt (Fin x) (Fin (1 / 10))) eqn:H1.
    - apply float_lt_Fin in H1. left. split; [lra | reflexivity].
    - apply float_lt_Fin_false in H1.
      destruct (float_lt (Fin x) (Fin (2 / 10))) eqn:H2.
      + apply float_lt_Fin in H2. right; left. split; [lra | reflexivity].
      + apply float_lt_Fin_false in H2. right; right. split; [lra | reflexivity]. }
  intros psi.
  destruct (Hcases psi) as [[H E] | [[H E] | [H E]]];
    destruct (Hcases (1 / 10)) as [[H1 E1] | [[H1 E1] | [H1 E1]]]; try lra;
    destruct (Hcases (2 / 10)) as [[H2 E2] | [[H2 E2] | [H2 E2]]]; try lra;
    rewrite E, E1, E2;
    (split; [| split; [| split; [| split]]]); try reflexivity;
    split; intros; try discriminate; try lra; reflexivity.
Qed.

(** *** Exact arithmetic: sorting and percentiles *)

Section Sorting.
Local Open Scope Q_scope.

Lemma insert_sorted_length (x : Q) (l : list Q) :
  length (insert_sorted x l) = S (length l).
Proof.
  induction l as [|y l IH]; simpl; [reflexivity|].
  destruct (Qle_bool x y); simpl; [reflexivity | now rewrite IH].
Qed.

Lemma sorted_copy_length (a : list Q) : length (sorted_copy a) = length a.
Proof.
  induction a as [|x a IH]; simpl; [reflexivity|].
  fold (sorted_copy a). now rewrite insert_sorted_length, IH.
Qed.

Lemma insert_sorted_Forall (P : Q -> Prop) (x : Q) (l : list Q) :
  P x -> Forall P l -> Forall P (insert_sorted x l).
Proof.
  intros Hx Hl. induction Hl as [|y l Hy Hl IH]; simpl.
  - repeat constructor; assumption.
  - destruct (Qle_bool x y); repeat constructor; assumption.
Qed.

Lemma insert_sorted_sorted (x : Q) (l : list Q) :
  StronglySorted Qle l -> StronglySorted Qle (insert_sorted x l).
Proof.
  induction 1 as [|y l Hs IH Hall]; simpl.
  - repeat constructor.
  - destruct (Qle_bool x y) eqn:E.
    + apply Qle_bool_iff in E. constructor; [constructor; assumption|].
      constructor; [assumption|].
      eapply List.Forall_impl; [|exact Hall]. intros z Hz. simpl in Hz. lra.
    + assert (y <= x).
      { destruct (Qlt_le_dec y x) as [H|H]; [lra|].
        apply Qle_bool_iff in H. congruence. }
      constructor; [assumption|].
      apply insert_sorted_Forall; assumption.
Qed.

Lemma sorted_copy_sorted (a : list Q) : StronglySorted Qle (sorted_copy a).
Proof.
  induction a as [|x a IH]; simpl; [constructor|].
  apply insert_sorted_sorted, IH.
Qed.

Lemma sorted_nth_le (s : list Q) :
  StronglySorted Qle s ->
  forall i j : nat, (i <= j)%nat -> (j < length s)%nat -> nth i s 0 <= nth j s 0.
Proof.
  induction 1 as [|y l Hs IH Hall]; intros i j Hij Hj; simpl in Hj; [lia|].
  destruct i as [|i], j as [|j]; simpl; try lia.
  - lra.
  - rewrite List.Forall_forall in Hall. apply Hall, nth_In. lia.
  - apply IH; lia.
Qed.
End Sorting.

Section Percentile.
Local Open Scope Q_scope.
Variable s : list Q.
Hypothesis Hs : StronglySorted Qle s.
Hypothesis Hn : (0 < length s)%nat.

Let top : Q := inject_Z (Z.of_nat (length s - 1)).

Lemma exact_percentile_lerp (q : Q) :
  exact_percentile s q = exact_lerp_at s (q / 100 * top).
Proof. reflexivity. Qed.

Lemma floor_range (v : Q) :
  0 <= v -> v <= top ->
  (0 <= Qfloor v)%Z /\ (Z.to_nat (Qfloor v) <= length s - 1)%nat /\
  inject_Z (Qfloor v) <= v /\ v < inject_Z (Qfloor v) + 1.
Proof.
  intros H0 H1.
  assert (F0 : (0 <= Qfloor v)%Z).
  { change 0%Z with (Qfloor 0). apply Qfloor_resp_le, H0. }
  assert (F1 : (Qfloor v <= Z.of_nat (length s - 1))%Z).
  { rewrite <- (Qfloor_Z (Z.of_nat (length s - 1))). apply Qfloor_resp_le, H1. }
  repeat split; [exact F0 | lia | apply Qfloor_le |].
  pose proof (Qlt_floor v) as H. rewrite inject_Z_plus in H. exact H.
Qed.

Lemma exact_lerp_at_between (v : Q) :
  0 <= v -> v <= top ->
  nth (Z.to_nat (Qfloor v)) s 0 <= exact_lerp_at s v /\
  exact_lerp_at s v <= nth (Nat.min (S (Z.to_nat (Qfloor v))) (length s - 1)) s 0.
Proof.
  intros H0 H1. destruct (floor_range v H0 H1) as (F0 & F1 & G0 & G1).
  unfold exact_lerp_at.
  set (previous := Z.to_nat (Qfloor v)) in *.
  set (next := Nat.min (S previous) (length s - 1)).
  assert (Hle : nth previous s 0 <= nth next s 0).
  { apply sorted_nth_le; [exact Hs | unfold next; lia | unfold next; lia]. }
  set (lo := nth previous s 0) in *. set (hi := nth next s 0) in *.
  set (g := v - inject_Z (Qfloor v)).
  assert (0 <= g) by (unfold g; lra).
  assert (g <= 1) by (unfold g; lra).
  split; nra.
Qed.

Lemma exact_lerp_at_mono (v w : Q) :
  0 <= v -> v <= w -> w <= top -> exact_lerp_at s v <= exact_lerp_at s w.
Proof.
  intros H0 Hvw H1.
  assert (Hv1 : v <= top) by lra. assert (Hw0 : 0 <= w) by lra.
  destruct (floor_range v H0 Hv1) as (Fv0 & Fv1 & Gv0 & Gv1).
  destruct (floor_range w Hw0 H1) as (Fw0 & Fw1 & Gw0 & Gw1).
  assert (Hfl : (Qfloor v <= Qfloor w)%Z) by (apply Qfloor_resp_le, Hvw).
  destruct (Z.eq_dec (Qfloor v) (Qfloor w)) as [E | NE].
  - unfold exact_lerp_at. rewrite <- E.
    set (previous := Z.to_nat (Qfloor v)) in *.
    set (next := Nat.min (S previous) (length s - 1)).
    assert (Hle : nth previous s 0 <= nth next s 0).
    { apply sorted_nth_le; [exact Hs | unfold next; lia | unfold next; lia]. }
    set (lo := nth previous s 0) in *. set (hi := nth next s 0) in *.
    set (f := inject_Z (Qfloor v)) in *.
    nra.
  - destruct (exact_lerp_at_between v H0 Hv1) as [_ Hup].
    destruct (exact_lerp_at_between w Hw0 H1) as [Hdown _].
    assert (Hmid : nth (Nat.min (S (Z.to_nat (Qfloor v))) (length s - 1)) s 0
                   <= nth (Z.to_nat (Qfloor w)) s 0).
    { apply sorted_nth_le; [exact Hs | lia | lia]. }
    lra.
Qed.

Lemma exact_percentile_mono (q1 q2 : Q) :
  0 <= q1 -> q1 <= q2 -> q2 <= 100 ->
  exact_percentile s q1 <= exact_percentile s q2.
Proof.
  intros H0 H12 H2. rewrite !exact_percentile_lerp.
  assert (Ht : 0 <= top).
  { unfold top. change 0 with (inject_Z 0). rewrite <- Zle_Qle. lia. }
  assert (A0 : 0 <= q1 / 100) by (apply Qle_shift_div_l; lra).
  assert (A1 : q1 / 100 <= q2 / 100).
  { unfold Qdiv. apply Qmult_le_compat_r; [exact H12 | discriminate]. }
  assert (A2 : q2 / 100 <= 1) by (apply Qle_shift_div_r; lra).
  set (a := q1 / 100) in *. set (b := q2 / 100) in *.
  apply exact_lerp_at_mono; nra.
Qed.

End Percentile.

Section Order.
Local Open Scope Q_scope.

Lemma Qle_bool_false (x y : Q) : Qle_bool x y = false -> y < x.
Proof.
  intros Hf. apply Qnot_le_lt. intros Hle. apply Qle_bool_iff in Hle. congruence.
Qed.

Lemma insert_sorted_equiv (x : Q) (s s' : list Q) :
  Forall2 Qeq s s' -> Forall2 Qeq (insert_sorted x s) (insert_sorted x s').
Proof.
  induction 1 as [|y y' s s' Hy Hs IH]; cbn [insert_sorted].
  - constructor; [reflexivity | constructor].
  - rewrite (Qleb_comp x x (Qeq_refl x) y y' Hy). destruct (Qle_bool x y').
    + constructor; [reflexivity|]. now constructor.
    + now constructor.
Qed.

Lemma Forall2_Qeq_refl (s : list Q) : Forall2 Qeq s s.
Proof. induction s; constructor; [reflexivity | assumption]. Qed.

Lemma insert_sorted_swap (x y : Q) (s : list Q) :
  Forall2 Qeq (insert_sorted x (insert_sorted y s)) (insert_sorted y (insert_sorted x s)).
Proof.
  induction s as [|a s IH]; cbn [insert_sorted].
  - destruct (Qle_bool x y) eqn:Hxy, (Qle_bool y x) eqn:Hyx;
      try apply Qle_bool_iff in Hxy; try apply Qle_bool_iff in Hyx;
      try apply Qle_bool_false in Hxy; try apply Qle_bool_false in Hyx;
      repeat constructor; lra.
  - destruct (Qle_bool y a) eqn:Hya, (Qle_bool x a) eqn:Hxa; cbn [insert_sorted];
      rewrite ?Hya, ?Hxa;
      destruct (Qle_bool x y) eqn:Hxy, (Qle_bool y x) eqn:Hyx; cbn [insert_sorted];
      rewrite ?Hya, ?Hxa;
      try apply Qle_bool_iff in Hxy; try apply Qle_bool_iff in Hyx;
      try apply Qle_bool_iff in Hya; try apply Qle_bool_iff in Hxa;
      try apply Qle_bool_false in Hxy; try apply Qle_bool_false in Hyx;
      try apply Qle_bool_false in Hya; try apply Qle_bool_false in Hxa;
      try (exfalso; lra);
      repeat (constructor; [lra|]); try apply Forall2_Qeq_refl; try exact IH.
Qed.

Lemma Forall2_Qeq_trans (s1 s2 s3 : list Q) :
  Forall2 Qeq s1 s2 -> Forall2 Qeq s2 s3 -> Forall2 Qeq s1 s3.
Proof.
  intros H12. revert s3. induction H12 as [|x y s1 s2 Hxy _ IH]; intros s3 H23.
  - exact H23.
  - inversion H23 as [|y' z s2' s3' Hyz H23' E1 E2]; subst.
    constructor; [now rewrite Hxy | now apply IH].
Qed.

Lemma sorted_copy_Permutation (a a' : list Q) :
  Permutation a a' -> Forall2 Qeq (sorted_copy a) (sorted_copy a').
Proof.
  unfold sorted_copy. induction 1 as [|x l l' _ IH|x y l|l l' l'' _ IH1 _ IH2]; cbn [foldr].
  - constructor.
  - now apply insert_sorted_equiv.
  - apply insert_sorted_swap.
  - now apply Forall2_Qeq_trans with (foldr insert_sorted [] l').
Qed.

Lemma nth_equiv (s s' : list Q) :
  Forall2 Qeq s s' -> forall i : nat, nth i s 0 == nth i s' 0.
Proof.
  induction 1 as [|x y s s' Hxy _ IH]; intros [|i]; cbn [nth]; try reflexivity.
  - exact Hxy.
  - apply IH.
Qed.

Lemma exact_percentile_equiv (s s' : list Q) (q : Q) :
  Forall2 Qeq s s' -> exact_percentile s q == exact_percentile s' q.
Proof.
  intros Hs. unfold exact_percentile, exact_lerp_at.
  rewrite <- (Forall2_length _ _ _ Hs). cbv zeta.
  rewrite !(nth_equiv s s' Hs). reflexivity.
Qed.

End Order.

Section Linspace.
Local Open Scope Q_scope.

Local Abbreviation grid bins := (exact_linspace_point 0 100 bins).

Lemma exact_linspace_grid (bins : nat) :
  (1 <= bins)%nat ->
  exact_linspace 0 100 (bins + 1) = map (grid bins) (seq 0 (bins + 1)).
Proof.
  intros H. rewrite Nat.add_1_r. destruct bins as [|m]; [lia|]. reflexivity.
Qed.

Lemma grid_mono (bins i j : nat) :
  (1 <= bins)%nat -> (i <= j)%nat -> grid bins i <= grid bins j.
Proof.
  intros Hb Hij. unfold exact_linspace_point, Qdiv.
  assert (0 <= / inject_Z (Z.of_nat bins)).
  { apply Qinv_le_0_compat. change 0 with (inject_Z 0). rewrite <- Zle_Qle. lia. }
  assert (inject_Z (Z.of_nat i) <= inject_Z (Z.of_nat j)) by (rewrite <- Zle_Qle; lia).
  set (a := inject_Z (Z.of_nat i)) in *. set (b := inject_Z (Z.of_nat j)) in *.
  set (c := / inject_Z (Z.of_nat bins)) in *. nra.
Qed.

Lemma grid_0 (bins : nat) : grid bins 0 == 0.
Proof. unfold exact_linspace_point. simpl. unfold Qdiv. ring. Qed.

Lemma grid_bins (bins : nat) : (1 <= bins)%nat -> grid bins bins == 100.
Proof.
  intros H. unfold exact_linspace_point. field.
  change 0 with (inject_Z 0). rewrite inject_Z_injective. lia.
Qed.

Lemma grid_range (bins i : nat) :
  (1 <= bins)%nat -> (i <= bins)%nat -> 0 <= grid bins i /\ grid bins i <= 100.
Proof.
  intros Hb Hi.
  pose proof (grid_0 bins) as E0. pose proof (grid_bins bins Hb) as E1.
  pose proof (grid_mono bins 0 i Hb) as M0. pose proof (grid_mono bins i bins Hb) as M1.
  specialize (M0 ltac:(lia)). specialize (M1 ltac:(lia)).
  split; lra.
Qed.


Lemma exact_linspace_length (num : nat) : length (exact_linspace 0 100 num) = num.
Proof.
  destruct num as [|[|m]]; [reflexivity | reflexivity |].
  unfold exact_linspace. now rewrite length_map, length_seq.
Qed.

Lemma exact_linspace_range (num : nat) (q : Q) :
  In q (exact_linspace 0 100 num) -> 0 <= q /\ q <= 100.
Proof.
  destruct num as [|[|m]].
  - intros [].
  - intros [<- | []]. split; discriminate.
  - unfold exact_linspace. intros Hq. apply in_map_iff in Hq as (i & <- & Hi).
    apply in_seq in Hi. apply grid_range; lia.
Qed.

Lemma exact_linspace_sorted (num i : nat) (q1 q2 : Q) :
  exact_linspace 0 100 num !! i = Some q1 -> exact_linspace 0 100 num !! S i = Some q2 ->
  q1 <= q2.
Proof.
  destruct num as [|[|m]].
  - discriminate.
  - intros _ H2. discriminate.
  - unfold exact_linspace. rewrite !list_lookup_fmap. intros H1 H2.
    destruct (seq 0 (S (S m)) !! S i) as [j|] eqn:Ej; [|discriminate].
    destruct (seq 0 (S (S m)) !! i) as [k|] eqn:Ek; [|discriminate].
    apply lookup_seq in Ej as [-> _]. apply lookup_seq in Ek as [-> _].
    injection H1 as <-. injection H2 as <-. apply grid_mono; lia.
Qed.

End Linspace.

(** *** Exact arithmetic satisfies the laws *)

Section ExactLaws.
Local Open Scope R_scope.

Lemma exact_sum_nan (l : list float) : In NaN l -> exact_sum l = NaN.
Proof.
  induction l as [|f l IH]; [intros []|]. intros [-> | Hin]; [reflexivity|].
  cbn [exact_sum foldr]. fold (exact_sum l). rewrite (IH Hin). now destruct f.
Qed.

Lemma exact_sum_nonneg (l : list float) :
  (forall f : float, In f l -> exists x : R, f = Fin x /\ 0 <= x) ->
  exists s : R,
    exact_sum l = Fin s /\ 0 <= s /\ (s = 0 -> forall f : float, In f l -> f = Fin 0).
Proof.
  induction l as [|f l IH]; intros Hall.
  - exists 0. split; [reflexivity|]. split; [lra|]. intros _ f [].
  - destruct IH as (s & Es & Hs & Hzero); [intros g Hg; apply Hall; now right|].
    destruct (Hall f (or_introl eq_refl)) as (x & -> & Hx).
    exists (x + s). cbn [exact_sum foldr]. fold (exact_sum l). rewrite Es.
    split; [reflexivity|]. split; [lra|].
    intros H0 g [<- | Hg]; [f_equal; lra | apply Hzero; [lra | exact Hg]].
Qed.

Lemma exact_sum_zeros (l : list float) :
  (forall f : float, In f l -> f = Fin 0) -> exact_sum l = Fin 0.
Proof.
  induction l as [|f l IH]; intros Hall; [reflexivity|].
  cbn [exact_sum foldr]. fold (exact_sum l).
  rewrite IH by (intros g Hg; apply Hall; now right).
  rewrite (Hall f (or_introl eq_refl)). cbn [exact_add]. f_equal. lra.
Qed.

(** The exact instance is lawful. *)
Lemma exact_numpy_laws : NumPyLaws exact_numpy.
Proof.
  split; cbn [rnd unit_roundoff smallest_positive np_log np_sum np_linspace
              interpolated_percentile exact_numpy].
  - intros x y H. exact H.
  - reflexivity.
  - reflexivity.
  - reflexivity.
  - lra.
  - lra.
  - intros x H _. exact H.
  - intros x _. apply Rabs_pos.
  - intros x _. rewrite Rminus_diag, Rabs_R0. lra.
  - intros x _. rewrite Rminus_diag, Rabs_R0. lra.
  - intros x y _ _ _. rewrite Rmult_0_l. apply Rabs_pos.
  - intros x y _ _ Hx Hy H.
    assert (E : x = x / y * y) by (field; lra). rewrite H in E. lra.
  - intros x _ _. rewrite Rminus_diag, Rabs_R0. pose proof (Rabs_pos (ln x)). lra.
  - exact exact_sum_nan.
  - intros x y. cbn [exact_sum foldr exact_add]. f_equal. lra.
  - exact exact_sum_nonneg.
  - exact exact_sum_zeros.
  - exact exact_linspace_length.
  - exact exact_linspace_range.
  - exact exact_linspace_sorted.
  - intros a q1 q2 Ha H0 H12 H2. apply exact_percentile_mono; try assumption.
    + apply sorted_copy_sorted.
    + rewrite sorted_copy_length. destruct a; [congruence | cbn; lia].
  - intros a a' q Hp. apply exact_percentile_equiv. now apply sorted_copy_Permutation.
Qed.

End ExactLaws.

Section Breakpoints.
Local Open Scope Q_scope.

Lemma edge_lt_negb (a b : edge) : negb (edge_lt b a) = edge_le a b.
Proof. unfold edge_lt. apply negb_involutive. Qed.

Lemma increases_monotonically_lookup (edges : list edge) :
  increases_monotonically edges = true <->
  (forall (i : nat) (a b : edge),
      edges !! i = Some a -> edges !! S i = Some b -> edge_le a b = true).
Proof.
  induction edges as [|a [|b tl] IH].
  - split; [intros _ i x y H; discriminate | reflexivity].
  - split; [intros _ [|i] x y H1 H2; discriminate | reflexivity].
  - change (increases_monotonically (a :: b :: tl))
      with (negb (edge_lt b a) && increases_monotonically (b :: tl)).
    rewrite edge_lt_negb, andb_true_iff, IH. split.
    + intros [Hab Htl] [|i] x y H1 H2.
      * simpl in H1, H2. congruence.
      * apply (Htl i); assumption.
    + intros H. split.
      * apply (H 0%nat); reflexivity.
      * intros i x y H1 H2. apply (H (S i)); assumption.
Qed.

Lemma breakpoints_increase (ps : list Q) :
  (forall (i : nat) (x y : Q), ps !! i = Some x -> ps !! S i = Some y -> x <= y) ->
  let breakpoints := <[0%nat := NegInf]> (map Edge ps) in
  increases_monotonically (<[pred (length breakpoints) := PosInf]> breakpoints) = true.
Proof.
  intros Hps breakpoints. apply increases_monotonically_lookup.
  intros i a b Ha Hb.
  assert (Hlen : length breakpoints = length ps).
  { unfold breakpoints. now rewrite length_insert, length_map. }
  rewrite Hlen in Ha, Hb.
  assert (Hi : (S i < length ps)%nat).
  { apply lookup_lt_Some in Hb. rewrite length_insert, Hlen in Hb. exact Hb. }
  destruct (decide (S i = pred (length ps))) as [E | NE].
  - rewrite E in Hb. rewrite list_lookup_insert_eq in Hb by lia.
    injection Hb as <-. destruct a; reflexivity.
  - rewrite list_lookup_insert_ne in Hb by lia.
    rewrite list_lookup_insert_ne in Ha by lia.
    unfold breakpoints in Ha, Hb.
    rewrite list_lookup_insert_ne in Hb by lia.
    rewrite list_lookup_fmap in Hb.
    destruct (ps !! S i) as [y|] eqn:Ey; [|discriminate]. injection Hb as <-.
    destruct i as [|i].
    + rewrite list_lookup_insert_eq in Ha by (rewrite length_map; lia).
      injection Ha as <-. reflexivity.
    + rewrite list_lookup_insert_ne in Ha by lia.
      rewrite list_lookup_fmap in Ha.
      destruct (ps !! S i) as [x|] eqn:Ex; [|discriminate]. injection Ha as <-.
      simpl. apply Qle_bool_iff. eapply Hps; eassumption.
Qed.

End Breakpoints.

(** *** Rounding *)

Section Rounding.
Context {N : NumPy} {laws : NumPyLaws N}.

Lemma ln_le_minus_1 (x : R) : 0 < x -> ln x <= x - 1.
Proof.
  intros Hx. pose proof (exp_ineq1_le (ln x)) as H.
  rewrite exp_ln in H by exact Hx. lra.
Qed.

Lemma ln_ge_1_minus_inv (x : R) : 0 < x -> 1 - / x <= ln x.
Proof.
  intros Hx. pose proof (ln_le_minus_1 (/ x) (Rinv_0_lt_compat _ Hx)) as H.
  rewrite ln_Rinv in H by exact Hx. lra.
Qed.

Lemma roundoff_half : 0 <= unit_roundoff <= 1 / 2.
Proof. pose proof unit_roundoff_range. lra. Qed.

Lemma smallest_small : 0 <= smallest_positive <= unit_roundoff / 2 ^ 64.
Proof.
  pose proof unit_roundoff_range. pose proof smallest_positive_range.
  assert (unit_roundoff <= 1) by lra. split; [lra | nra].
Qed.

Lemma rnd_nonneg (x : R) : 0 <= x -> 0 <= rnd x.
Proof. intros H. rewrite <- rnd_0. now apply rnd_mono. Qed.

Lemma rnd_nonpos (x : R) : x <= 0 -> rnd x <= 0.
Proof. intros H. rewrite <- rnd_0. now apply rnd_mono. Qed.

Lemma rnd_le_1 (x : R) : x <= 1 -> rnd x <= 1.
Proof. intros H. rewrite <- rnd_1. now apply rnd_mono. Qed.

Lemma rnd_ge_1 (x : R) : 1 <= x -> 1 <= rnd x.
Proof. intros H. rewrite <- rnd_1. now apply rnd_mono. Qed.

Lemma rnd_pos (x : R) : 0 < x -> smallest_positive <= x -> 0 < rnd x.
Proof.
  intros Hx Hs. pose proof (rnd_nonneg x ltac:(lra)) as H0.
  assert (rnd x <> 0); [|lra].
  apply rnd_nonzero; [lra|]. rewrite Rabs_pos_eq by lra. exact Hs.
Qed.

Lemma rnd_near (x : R) :
  0 <= x -> smallest_positive <= unit_roundoff * x -> x / 2 <= rnd x <= 2 * x.
Proof.
  intros Hx Hs. pose proof (rnd_relative x) as H.
  rewrite (Rabs_pos_eq x) in H by exact Hx. specialize (H Hs).
  pose proof roundoff_half. split_Rabs; nra.
Qed.

Lemma rnd_away (x : R) :
  smallest_positive <= unit_roundoff * Rabs x -> Rabs x / 2 <= Rabs (rnd x).
Proof.
  intros Hs. pose proof (rnd_relative x Hs) as H.
  pose proof roundoff_half. split_Rabs; nra.
Qed.

Lemma quotient_ge (c r : R) : 0 < c -> 0 < r -> r <= 1 -> c <= c / r.
Proof.
  intros Hc Hr Hr1. apply (Rmult_le_reg_r r); [exact Hr|].
  unfold Rdiv. rewrite Rmult_assoc, Rinv_l by lra. nra.
Qed.

Lemma quotient_ge_1 (c r : R) : 0 < r -> r <= c -> 1 <= c / r.
Proof.
  intros Hr Hrc. apply (Rmult_le_reg_r r); [exact Hr|].
  unfold Rdiv. rewrite Rmult_assoc, Rinv_l by lra. lra.
Qed.

Lemma quotient_le_1 (c r : R) : 0 < r -> c <= r -> c / r <= 1.
Proof.
  intros Hr Hrc. apply (Rmult_le_reg_r r); [exact Hr|].
  unfold Rdiv. rewrite Rmult_assoc, Rinv_l by lra. lra.
Qed.

Lemma psi_term_unfold (c r : R) :
  0 < c -> 0 < r -> smallest_positive <= c -> r <= 1 ->
  0 < rnd (c / r) /\
  psi_term (Fin c) (Fin r) = Fin (rnd (rnd (c - r) * np_log (rnd (c / r)))).
Proof.
  intros Hc Hr Hs Hr1.
  assert (Hq : 0 < rnd (c / r)).
  { pose proof (quotient_ge c r Hc Hr Hr1). apply rnd_pos; lra. }
  split; [exact Hq|].
  unfold psi_term, float_div, float_sub, float_log, float_mul.
  rewrite bool_decide_eq_false_2 by lra.
  rewrite bool_decide_eq_true_2 by exact Hq. reflexivity.
Qed.

Lemma np_log_sign (x : R) :
  rnd x = x -> 0 < x ->
  (1 <= x -> 0 <= np_log x) /\ (x <= 1 -> np_log x <= 0) /\
  Rabs (ln x) / 2 <= Rabs (np_log x).
Proof.
  intros Hf Hx. pose proof (np_log_accurate x Hf Hx) as H.
  pose proof (ln_le_minus_1 x Hx) as Hup.
  pose proof (ln_ge_1_minus_inv x Hx) as Hdown.
  split; [|split].
  - intros H1. assert (/ x <= 1) by (rewrite <- Rinv_1; apply Rinv_le_contravar; lra).
    split_Rabs; lra.
  - intros H1. split_Rabs; lra.
  - split_Rabs; lra.
Qed.

Lemma psi_term_value (c r : R) :
  rnd c = c -> rnd r = r -> 0 < c -> 0 < r -> smallest_positive <= c -> c <= 1 -> r <= 1 ->
  exists t : R, psi_term (Fin c) (Fin r) = Fin t /\ 0 <= t /\ (c = r -> t = 0).
Proof.
  intros Fc Fr Hc Hr Hs Hc1 Hr1.
  destruct (psi_term_unfold c r Hc Hr Hs Hr1) as [Hq ->].
  eexists. split; [reflexivity|].
  destruct (np_log_sign (rnd (c / r)) (rnd_idem _) Hq) as (Hge & Hle & _).
  split.
  - apply rnd_nonneg. destruct (Rle_dec r c) as [Hrc | Hrc].
    + apply Rmult_le_pos.
      * apply rnd_nonneg. lra.
      * apply Hge, rnd_ge_1, quotient_ge_1; assumption.
    + assert (Hd : rnd (c - r) <= 0) by (apply rnd_nonpos; lra).
      assert (Hl : np_log (rnd (c / r)) <= 0).
      { apply Hle, rnd_le_1, quotient_le_1; lra. }
      nra.
  - intros ->. rewrite Rminus_diag, rnd_0, Rmult_0_l. apply rnd_0.
Qed.

Lemma psi_term_zero (c r : R) :
  rnd c = c -> rnd r = r -> / 2 ^ 64 <= c -> c <= 1 -> / 2 ^ 64 <= r -> r <= 1 ->
  psi_term (Fin c) (Fin r) = Fin 0 -> c = r.
Proof.
  intros Fc Fr Hc Hc1 Hr Hr1 Hterm.
  destruct (Req_dec c r) as [E | NE]; [exact E | exfalso].
  pose proof roundoff_half as Hu. pose proof smallest_small as Hs.
  pose proof smallest_positive_range as Hs2.
  set (u := unit_roundoff) in *. set (eta := smallest_positive) in *.
  assert (Hm : 0 < / 2 ^ 64) by lra.
  assert (Hc0 : 0 < c) by lra. assert (Hr0 : 0 < r) by lra.
  assert (Hsc : eta <= c) by nra.
  destruct (psi_term_unfold c r Hc0 Hr0 Hsc Hr1) as [Hq E].
  rewrite E in Hterm. injection Hterm as Hterm.
  (* the difference *)
  pose proof (rnd_gap c r Fc Fr NE) as Hgap. fold u in Hgap.
  rewrite (Rabs_pos_eq c), (Rabs_pos_eq r) in Hgap by lra.
  assert (Hmin : / 2 ^ 64 <= Rmin c r) by (apply Rmin_glb; assumption).
  assert (Hdiff : u / 2 ^ 64 <= Rabs (c - r)) by nra.
  assert (Hdiff0 : 0 < Rabs (c - r)) by (apply Rabs_pos_lt; lra).
  assert (Hd : Rabs (c - r) / 2 <= Rabs (rnd (c - r))).
  { apply rnd_away. fold u eta. nra. }
  (* the quotient *)
  set (X := rnd (c / r)) in *.
  assert (FX : rnd X = X) by apply rnd_idem.
  assert (HX1 : X <> 1).
  { intros HX. apply NE. now apply (rnd_div_one c r). }
  assert (Hquot : / 2 ^ 64 <= c / r) by (pose proof (quotient_ge c r Hc0 Hr0 Hr1); lra).
  assert (Hquot' : c / r <= 2 ^ 64).
  { apply (Rmult_le_reg_r r); [exact Hr0|].
    unfold Rdiv. rewrite Rmult_assoc, Rinv_l by lra. nra. }
  assert (HXr : c / r / 2 <= X <= 2 * (c / r)).
  { apply rnd_near; [lra|]. fold u eta. nra. }
  pose proof (rnd_gap X 1 FX rnd_1 HX1) as HgapX. fold u in HgapX.
  rewrite (Rabs_pos_eq X), (Rabs_pos_eq 1) in HgapX by lra.
  assert (HminX : / 2 ^ 65 <= Rmin X 1) by (apply Rmin_glb; lra).
  assert (HlnX : u / 2 ^ 130 <= Rabs (ln X) /\ 0 < Rabs (ln X)).
  { split; [|apply Rabs_pos_lt, ln_neq_0; assumption].
    pose proof (ln_le_minus_1 X Hq) as Hup.
    pose proof (ln_ge_1_minus_inv X Hq) as Hdown.
    destruct (Rle_dec 1 X) as [H1 | H1].
    - assert (HXinv : / 2 ^ 65 <= / X).
      { apply Rinv_le_contravar; lra. }
      assert (Hstep : (X - 1) * / X <= ln X).
      { replace ((X - 1) * / X) with (1 - / X) by (field; lra). exact Hdown. }
      assert (Hgap1 : u * Rmin X 1 <= X - 1) by (revert HgapX; split_Rabs; lra).
      assert (u / 2 ^ 65 <= X - 1) by nra.
      assert (u / 2 ^ 130 <= (X - 1) * / X) by nra.
      split_Rabs; lra.
    - assert (Hgap1 : u * Rmin X 1 <= 1 - X) by (revert HgapX; split_Rabs; lra).
      assert (u / 2 ^ 65 <= 1 - X) by nra.
      split_Rabs; nra. }
  destruct (np_log_sign X FX Hq) as (_ & _ & Hlog).
  set (d := rnd (c - r)) in *. set (L := np_log X) in *.
  assert (Hprod : Rabs (d * L) = Rabs d * Rabs L) by apply Rabs_mult.
  assert (Hpos : 0 < Rabs d * Rabs L) by (apply Rmult_lt_0_compat; lra).
  assert (Hbig : eta <= Rabs (d * L)).
  { rewrite Hprod.
    assert (u / 2 ^ 65 <= Rabs d) by lra.
    assert (u / 2 ^ 131 <= Rabs L) by lra.
    assert (u / 2 ^ 65 * (u / 2 ^ 131) <= Rabs d * Rabs L)
      by (apply Rmult_le_compat; lra).
    nra. }
  apply (rnd_nonzero (d * L)); [|exact Hbig|exact Hterm].
  intros H0. rewrite H0, Rabs_R0 in Hprod. lra.
Qed.


Lemma floor_value :
  let v := rnd (1 / 10000) in
  rnd v = v /\ 0 < v /\ smallest_positive <= v /\ / 2 ^ 64 <= v /\ v <= 1.
Proof.
  intros v. pose proof roundoff_half as Hu. pose proof smallest_small as Hs.
  pose proof smallest_positive_range as Hs2.
  assert (Hpos : 0 < v) by (apply rnd_pos; lra).
  split; [apply rnd_idem|]. split; [exact Hpos|]. split; [|split].
  - pose proof (rnd_smallest (1 / 10000)) as H. fold v in H.
    rewrite (Rabs_pos_eq v) in H by lra. apply H. lra.
  - pose proof (rnd_near (1 / 10000)) as H. fold v in H.
    destruct H as [H _]; [lra | nra | lra].
  - apply rnd_le_1. lra.
Qed.

Lemma quotient_value (c n : nat) :
  (0 < n)%nat -> (c <= n)%nat ->
  let x := rnd (INR c / INR n) in
  x <> 0 ->
  rnd x = x /\ 0 < x /\ smallest_positive <= x /\ x <= 1 /\
  (INR n <= 2 ^ 63 -> / 2 ^ 64 <= x).
Proof.
  intros Hn Hc x Hx.
  pose proof roundoff_half as Hu. pose proof smallest_small as Hs.
  assert (Hn' : 0 < INR n) by (apply lt_0_INR; exact Hn).
  assert (Hc' : INR c <= INR n) by (apply le_INR; exact Hc).
  pose proof (pos_INR c) as Hc0.
  assert (Hq0 : 0 <= INR c / INR n).
  { apply Rmult_le_pos; [exact Hc0 | left; apply Rinv_0_lt_compat; exact Hn']. }
  assert (Hq1 : INR c / INR n <= 1) by (apply quotient_le_1; assumption).
  assert (H0 : 0 <= x) by (apply rnd_nonneg; exact Hq0).
  split; [apply rnd_idem|]. split; [lra|]. split; [|split].
  - pose proof (rnd_smallest (INR c / INR n) Hx) as H. fold x in H.
    rewrite (Rabs_pos_eq x) in H by lra. exact H.
  - apply rnd_le_1. exact Hq1.
  - intros Hsize.
    assert (Hc1 : (1 <= c)%nat).
    { destruct c; [|lia]. exfalso. apply Hx. unfold x. cbn [INR].
      unfold Rdiv. rewrite Rmult_0_l. apply rnd_0. }
    apply le_INR in Hc1. cbn [INR] in Hc1.
    assert (Hinv : / 2 ^ 63 <= / INR n) by (apply Rinv_le_contravar; lra).
    assert (Hq : / 2 ^ 63 <= INR c / INR n).
    { unfold Rdiv. assert (0 < / INR n) by (apply Rinv_0_lt_compat; exact Hn'). nra. }
    destruct (rnd_near (INR c / INR n)) as [H _]; [exact Hq0 | | fold x in H; lra].
    pose proof smallest_positive_range. nra.
Qed.

Lemma clamped_fraction (counts : list nat) (n : nat) :
  (0 < n)%nat -> Forall (fun c : nat => (c <= n)%nat) counts ->
  let dist := np_where_zero (np_divide counts n) (Fin (rnd (1 / 10000))) in
  Forall (fraction smallest_positive) dist /\
  (INR n <= 2 ^ 63 -> Forall (fraction (/ 2 ^ 64)) dist).
Proof.
  intros Hn Hall dist.
  assert (Hn' : INR n <> 0) by (apply not_0_INR; lia).
  destruct floor_value as (Fv & Hv0 & Hvs & Hv64 & Hv1).
  assert (Hcases : forall f : float, In f dist ->
            fraction smallest_positive f /\ (INR n <= 2 ^ 63 -> fraction (/ 2 ^ 64) f)).
  { intros f Hf. unfold dist, np_where_zero, np_divide in Hf. rewrite map_map in Hf.
    apply in_map_iff in Hf as (c & <- & Hc).
    rewrite List.Forall_forall in Hall. specialize (Hall c Hc). cbv beta in Hall.
    unfold float_div. rewrite (bool_decide_eq_false_2 _ Hn').
    unfold float_eq. case_bool_decide as E.
    - split; [|intros _]; eexists; (split; [reflexivity|]); repeat split; assumption.
    - destruct (quotient_value c n Hn Hall E) as (Fx & Hx0 & Hxs & Hx1 & Hx64).
      split; [|intros Hsize; specialize (Hx64 Hsize)];
        eexists; (split; [reflexivity|]); repeat split; assumption. }
  split; [|intros Hsize]; apply List.Forall_forall; intros f Hf;
    destruct (Hcases f Hf) as [H1 H2]; [exact H1 | exact (H2 Hsize)].
Qed.

Lemma count_if_le (f : Q -> bool) (a : list Q) : (count_if f a <= length a)%nat.
Proof.
  unfold count_if. induction a as [|x a IH]; [reflexivity|].
  cbn [List.filter]. destruct (f x); cbn [length]; lia.
Qed.

Lemma bin_counts_le (a : list Q) (edges : list edge) :
  Forall (fun c : nat => (c <= length a)%nat) (bin_counts a edges).
Proof.
  induction edges as [|lo [|hi rest] IH]; [constructor | constructor |].
  change (bin_counts a (lo :: hi :: rest)) with
    (count_if (fun x => edge_le lo (Edge x) &&
                 match rest with [] => edge_le (Edge x) hi | _ :: _ => edge_lt (Edge x) hi end) a
     :: bin_counts a (hi :: rest)).
  constructor; [apply count_if_le | exact IH].
Qed.

Lemma bin_counts_length (a : list Q) (edges : list edge) :
  length (bin_counts a edges) = pred (length edges).
Proof.
  induction edges as [|lo [|hi rest] IH]; [reflexivity | reflexivity |].
  change (bin_counts a (lo :: hi :: rest)) with
    (count_if (fun x => edge_le lo (Edge x) &&
                 match rest with [] => edge_le (Edge x) hi | _ :: _ => edge_lt (Edge x) hi end) a
     :: bin_counts a (hi :: rest)).
  rewrite length_cons, IH. reflexivity.
Qed.

(** *** The index as a sum of non-negative terms *)

Lemma psi_terms_nonneg (cs : list float) :
  Forall (fraction smallest_positive) cs ->
  forall rs : list float,
    Forall (fraction smallest_positive) rs ->
    forall f : float, In f (zip_with psi_term cs rs) -> exists x : R, f = Fin x /\ 0 <= x.
Proof.
  induction 1 as [|c cs Pc Hc IH]; intros rs Hr f Hf; [destruct Hf|].
  destruct Hr as [|r rs Pr Hr]; [destruct Hf|].
  destruct Hf as [<- | Hf]; [|now apply (IH rs Hr)].
  destruct Pc as (x & -> & Fx & Hx0 & Hxs & Hx1).
  destruct Pr as (y & -> & Fy & Hy0 & Hys & Hy1).
  destruct (psi_term_value x y Fx Fy Hx0 Hy0 Hxs Hx1 Hy1) as (t & -> & Ht & _).
  now exists t.
Qed.

Lemma psi_terms_same (cs : list float) :
  Forall (fraction smallest_positive) cs ->
  forall f : float, In f (zip_with psi_term cs cs) -> f = Fin 0.
Proof.
  induction 1 as [|c cs Pc Hc IH]; intros f Hf; [destruct Hf|].
  destruct Hf as [<- | Hf]; [|now apply IH].
  destruct Pc as (x & -> & Fx & Hx0 & Hxs & Hx1).
  destruct (psi_term_value x x Fx Fx Hx0 Hx0 Hxs Hx1 Hx1) as (t & -> & _ & Hzero).
  f_equal. now apply Hzero.
Qed.

Lemma psi_terms_zero (cs : list float) :
  Forall (fraction (/ 2 ^ 64)) cs ->
  forall rs : list float,
    Forall (fraction (/ 2 ^ 64)) rs -> length cs = length rs ->
    (forall f : float, In f (zip_with psi_term cs rs) -> f = Fin 0) -> cs = rs.
Proof.
  induction 1 as [|c cs Pc Hc IH]; intros rs Hr Hlen Hzero.
  - destruct rs; [reflexivity | discriminate].
  - destruct Hr as [|r rs Pr Hr]; [discriminate|].
    f_equal.
    + destruct Pc as (x & -> & Fx & Hx0 & Hxs & Hx1).
      destruct Pr as (y & -> & Fy & Hy0 & Hys & Hy1).
      f_equal. apply psi_term_zero; try assumption.
      apply Hzero. now left.
    + apply IH; [exact Hr | now injection Hlen |].
      intros f Hf. apply Hzero. now right.
Qed.

Lemma psi_sum (cs rs : list float) :
  Forall (fraction smallest_positive) cs -> Forall (fraction smallest_positive) rs ->
  length cs = length rs ->
  exists psi : R,
    np_sum (zip_with psi_term cs rs) = Fin psi /\
    0 <= psi /\
    (cs = rs -> psi = 0) /\
    (Forall (fraction (/ 2 ^ 64)) cs -> Forall (fraction (/ 2 ^ 64)) rs ->
     psi = 0 -> cs = rs).
Proof.
  intros Hc Hr Hlen.
  destruct (np_sum_nonneg (zip_with psi_term cs rs) (psi_terms_nonneg cs Hc rs Hr))
    as (psi & Epsi & Hpos & Hzero).
  exists psi. split; [exact Epsi|]. split; [exact Hpos|]. split.
  - intros <-. rewrite (np_sum_zeros _ (psi_terms_same cs Hc)) in Epsi. congruence.
  - intros Hc' Hr' H0. apply psi_terms_zero; try assumption. now apply Hzero.
Qed.

(** *** [calculate_psi] on a non-empty reference *)

Lemma linspace_in_range (num : nat) :
  forallb (fun x => Qle_bool 0 x && Qle_bool x 100) (np_linspace 0 100 num) = true.
Proof.
  apply forallb_forall. intros q Hq. destruct (np_linspace_range num q Hq) as [H0 H1].
  apply andb_true_iff. split; apply Qle_bool_iff; assumption.
Qed.

Lemma np_percentile_ok (reference : list Q) (bins : nat) :
  reference <> [] ->
  np_percentile reference (np_linspace 0 100 (bins + 1)) =
  Ok (map (interpolated_percentile reference) (np_linspace 0 100 (bins + 1))).
Proof.
  intros Hne. unfold np_percentile. rewrite linspace_in_range. cbn [negb].
  destruct reference as [|x a]; [congruence | reflexivity].
Qed.

Lemma percentiles_increase (reference : list Q) (bins : nat) :
  reference <> [] ->
  let ps := map (interpolated_percentile reference) (np_linspace 0 100 (bins + 1)) in
  forall (i : nat) (x y : Q), ps !! i = Some x -> ps !! S i = Some y -> (x <= y)%Q.
Proof.
  intros Hne ps i x y Hx Hy. unfold ps in Hx, Hy.
  rewrite list_lookup_fmap in Hx, Hy.
  destruct (np_linspace 0 100 (bins + 1) !! i) as [q1|] eqn:E1; [|discriminate].
  destruct (np_linspace 0 100 (bins + 1) !! S i) as [q2|] eqn:E2; [|discriminate].
  injection Hx as <-. injection Hy as <-.
  pose proof (np_linspace_sorted _ _ _ _ E1 E2) as H12.
  apply list_elem_of_lookup_2, list_elem_of_In, np_linspace_range in E1 as [H0 _].
  apply list_elem_of_lookup_2, list_elem_of_In, np_linspace_range in E2 as [_ H1].
  now apply interpolated_percentile_mono.
Qed.

Lemma psi_breakpoints_length (reference : list Q) (bins : nat) :
  length (psi_breakpoints reference bins) = S bins.
Proof.
  unfold psi_breakpoints. rewrite !length_insert, !length_map, np_linspace_length. lia.
Qed.

Lemma np_histogram_ok (reference sample : list Q) (bins : nat) :
  reference <> [] ->
  np_histogram sample (psi_breakpoints reference bins) =
  Ok (bin_counts sample (psi_breakpoints reference bins)).
Proof.
  intros Hne. unfold np_histogram.
  unfold psi_breakpoints at 1.
  rewrite (breakpoints_increase _ (percentiles_increase reference bins Hne)).
  reflexivity.
Qed.

Local Abbreviation clamped reference sample bins :=
  (np_where_zero
     (np_divide (bin_counts sample (psi_breakpoints reference bins)) (length sample))
     (Fin (rnd (1 / 10000)))).

Lemma binned_distribution_eq (reference sample : list Q) (bins : nat) :
  reference <> [] ->
  binned_distribution reference sample bins =
  Ok (np_where_zero
        (np_divide (bin_counts sample (psi_breakpoints reference bins)) (length sample))
        (Fin (rnd (1 / 10000)))).
Proof.
  intros Hne. unfold binned_distribution.
  rewrite (np_percentile_ok reference bins Hne).
  change (Ok ?ps ≫= ?k) with (k ps). cbv beta zeta.
  fold (psi_breakpoints reference bins).
  rewrite (np_histogram_ok reference sample bins Hne). reflexivity.
Qed.

Lemma calculate_psi_eq (reference current : list Q) (bins : nat) :
  reference <> [] ->
  forall ref_dist cur_dist : list float,
    binned_distribution reference reference bins = Ok ref_dist ->
    binned_distribution reference current bins = Ok cur_dist ->
    calculate_psi reference current bins = Ok (np_sum (zip_with psi_term cur_dist ref_dist)).
Proof.
  intros Hne ref_dist cur_dist Hr Hc.
  rewrite binned_distribution_eq in Hr, Hc by assumption.
  injection Hr as <-. injection Hc as <-.
  unfold calculate_psi.
  rewrite (np_percentile_ok reference bins Hne).
  change (Ok ?ps ≫= ?k) with (k ps). cbv beta zeta.
  fold (psi_breakpoints reference bins).
  rewrite !(np_histogram_ok reference _ bins Hne). reflexivity.
Qed.

Lemma binned_fractions (reference sample : list Q) (bins : nat) :
  sample <> [] ->
  let dist := np_where_zero
                (np_divide (bin_counts sample (psi_breakpoints reference bins)) (length sample))
                (Fin (rnd (1 / 10000))) in
  length dist = bins /\
  Forall (fraction smallest_positive) dist /\
  (array_sized sample -> Forall (fraction (/ 2 ^ 64)) dist).
Proof.
  intros Hs dist. split.
  - unfold dist, np_where_zero, np_divide.
    now rewrite !length_map, bin_counts_length, psi_breakpoints_length.
  - apply clamped_fraction; [destruct sample; [congruence | cbn; lia] | apply bin_counts_le].
Qed.

Lemma calculate_psi_total (reference current : list Q) (bins : nat) :
  reference <> [] -> current <> [] ->
  exists psi : R, calculate_psi reference current bins = Ok (Fin psi) /\ 0 <= psi.
Proof.
  intros Hr Hc.
  pose proof (binned_distribution_eq reference reference bins Hr) as Er.
  pose proof (binned_distribution_eq reference current bins Hr) as Ec.
  destruct (binned_fractions reference reference bins Hr) as (Lr & Pr & _).
  destruct (binned_fractions reference current bins Hc) as (Lc & Pc & _).
  set (ref_dist := clamped reference reference bins) in *.
  set (cur_dist := clamped reference current bins) in *.
  destruct (psi_sum cur_dist ref_dist Pc Pr ltac:(congruence)) as (psi & Epsi & Hpos & _).
  exists psi.
  rewrite (calculate_psi_eq reference current bins Hr ref_dist cur_dist Er Ec).
  now rewrite Epsi.
Qed.



End Rounding.


(** *** Feature drift *)


Section FeatureDrift.
Context `{Externals} {N : NumPy} {laws : NumPyLaws N}.
Variables (self : FraudDriftDetector) (reference_data current_data : DataFrame).

Local Abbreviation ordinary_finding := (ordinary_finding self reference_data current_data).
Local Abbreviation on_both_sides := (on_both_sides reference_data current_data).
Local Abbreviation computable := (computable reference_data current_data).

Lemma detect_feature_drift_loop_ok (features : list string) :
  Forall computable features ->
  forall acc : Py.dict DriftFinding,
  exists report : Py.dict DriftFinding,
    detect_feature_drift_loop self reference_data current_data features acc = Ok report /\
    forall feature : string,
      (feature ∈ features -> on_both_sides feature ->
       exists finding, dict_get report feature = Some finding /\
                       ordinary_finding feature finding) /\
      (~ (feature ∈ features /\ on_both_sides feature) ->
       dict_get report feature = dict_get acc feature).
Proof.
  induction 1 as [|f features Hf Hrest IH]; intros acc.
  - exists acc. split; [reflexivity|]. intros feature. split.
    + intros Hin. apply elem_of_nil in Hin. contradiction.
    + reflexivity.
  - cbn [detect_feature_drift_loop].
    destruct (reference_data !! f) as [ref_column|] eqn:Er;
      [destruct (current_data !! f) as [cur_column|] eqn:Ec|].
    + destruct (Hf ref_column cur_column Er Ec) as (Hr & Hc & [ks_stat p_value] & Eks).
      destruct (calculate_psi_total _ _ 10 Hr Hc) as (x & Epsi & _).
      rewrite Epsi. change (Ok ?a ≫= ?k) with (k a). cbv beta.
      unfold calculate_ks_test. rewrite Eks.
      change (Ok ?a ≫= ?k) with (k a). cbv beta iota.
      change (Ok ?a ≫= ?k) with (k a). cbv beta iota zeta.
      match goal with
      | |- context [dict_set acc f ?v] => set (finding := v)
      end.
      destruct (IH (dict_set acc f finding)) as (report & Erun & Hreport).
      exists report. split; [exact Erun|]. intros feature. split.
      * intros Hin Hboth.
        destruct (decide (feature ∈ features)) as [Htl | Hntl].
        -- apply Hreport; assumption.
        -- apply elem_of_cons in Hin as [-> | Hin]; [|contradiction].
           exists finding. split.
           ++ destruct (Hreport f) as [_ Hkeep]. rewrite Hkeep by tauto.
              rewrite dict_get_set. now rewrite decide_True.
           ++ exists ref_column, cur_column, x, ks_stat, p_value.
              repeat split; assumption || reflexivity.
      * intros Hnot. destruct (Hreport feature) as [_ Hkeep].
        rewrite Hkeep.
        -- rewrite dict_get_set. rewrite decide_False; [reflexivity|].
           intros <-. apply Hnot. split; [apply list_elem_of_here|].
           split; eexists; eassumption.
        -- intros [Hin Hboth]. apply Hnot. split; [now apply list_elem_of_further | exact Hboth].
    + destruct (IH acc) as (report & Erun & Hreport).
      exists report. split; [exact Erun|]. intros feature. split.
      * intros Hin Hboth.
        apply elem_of_cons in Hin as [-> | Hin]; [|now apply Hreport].
        destruct Hboth as [_ [? Hcur]]. congruence.
      * intros Hnot. apply Hreport. intros [Hin Hboth]. apply Hnot.
        split; [now apply list_elem_of_further | exact Hboth].
    + destruct (IH acc) as (report & Erun & Hreport).
      exists report. split; [exact Erun|]. intros feature. split.
      * intros Hin Hboth.
        apply elem_of_cons in Hin as [-> | Hin]; [|now apply Hreport].
        destruct Hboth as [[? Href] _]. congruence.
      * intros Hnot. apply Hreport. intros [Hin Hboth]. apply Hnot.
        split; [now apply list_elem_of_further | exact Hboth].
Qed.


End FeatureDrift.



(** *** Target drift *)

Section Target.
Context `{Externals} {N : NumPy} {laws : NumPyLaws N}.
Local Open Scope R_scope.








(** Without rounding, the rounded formula is the one of the specification. *)
Lemma rounded_rate_change_exact (current_rate reference_rate : R) :
  rounded_rate_change (N := exact_numpy) current_rate reference_rate =
  spec_rate_change current_rate reference_rate.
Proof. reflexivity. Qed.


End Target.



(** *** The textual summary *)

Section Summary.
Context `{Externals}.

Lemma summary_lines_listing (drift_report : Py.dict DriftFinding)
    (items : list (string * DriftFinding)) (summary : string) :
  NoDup (dict_keys drift_report) ->
  (forall item, In item items -> In item drift_report) ->
  summary_lines drift_report (map fst items) summary = Ok (summary ++ concat_lines items).
Proof.
  intros Hnd. revert summary.
  induction items as [|[feature metrics] items IH]; intros summary Hsub.
  - simpl. now rewrite string_app_empty_r.
  - simpl. rewrite (dict_get_In drift_report feature metrics Hnd) by (apply Hsub; now left).
    rewrite IH by (intros item Hi; apply Hsub; now right).
    now rewrite string_app_assoc.
Qed.

(** What the summary holds in general: the number of entries, the number of
    drifted entries, and one line for each of the first five drifted
    entries in the order of the report. *)
Theorem generate_drift_summary_listing (drift_report : Py.dict DriftFinding) :
  NoDup (dict_keys drift_report) ->
  generate_drift_summary drift_report =
  Ok ("Drift Detection Summary:" ++ newline ++
      "  Total features monitored: " ++ pretty (length drift_report) ++ newline ++
      "  Features with drift: " ++
        pretty (length (List.filter (fun item : string * DriftFinding =>
                                       drift_detected (snd item)) drift_report)) ++ newline ++
      match listed drift_report with
      | [] => ""
      | _ :: _ => newline ++ "  Critical features:" ++ newline ++ concat_lines (listed drift_report)
      end).
Proof.
  intros Hnd. unfold generate_drift_summary, listed.
  set (hits := List.filter _ drift_report).
  assert (Hsub : forall item, In item (take 5 hits) -> In item drift_report).
  { intros item Hi. apply list_elem_of_In in Hi. apply elem_of_take in Hi as (i & Hi & _).
    apply list_elem_of_lookup_2 in Hi. apply list_elem_of_In in Hi.
    unfold hits in Hi. apply filter_In in Hi. tauto. }
  rewrite length_map.
  destruct hits as [|hit hits'] eqn:Ehits.
  - simpl. now rewrite !string_app_assoc.
  - rewrite firstn_map.
    rewrite (summary_lines_listing drift_report (take 5 (hit :: hits')) _ Hnd Hsub).
    cbn [take]. now rewrite !string_app_assoc.
Qed.

(** C8 (the code at the failing input).  For a report with six drifted
    features whose sixth entry has the largest PSI, the summary gives the two
    counts and lists the first five entries in report order; the feature
    with the largest PSI is not listed. *)
Theorem C8_summary_skips_largest_psi :
  generate_drift_summary six_drifted =
  Ok ("Drift Detection Summary:" ++ newline ++
      "  Total features monitored: 6" ++ newline ++
      "  Features with drift: 6" ++ newline ++
      newline ++ "  Critical features:" ++ newline ++
      "    - f1: PSI = " ++ format_4f (Fin (21 / 100)) ++ newline ++
      "    - f2: PSI = " ++ format_4f (Fin (22 / 100)) ++ newline ++
      "    - f3: PSI = " ++ format_4f (Fin (23 / 100)) ++ newline ++
      "    - f4: PSI = " ++ format_4f (Fin (24 / 100)) ++ newline ++
      "    - f5: PSI = " ++ format_4f (Fin (25 / 100)) ++ newline).
Proof.
  rewrite generate_drift_summary_listing.
  - unfold listed, six_drifted, drifted.
    cbn [List.filter snd drift_detected firstn concat_lines psi length].
    unfold summary_line. rewrite !string_app_assoc, string_app_empty_r. reflexivity.
  - unfold six_drifted, dict_keys. cbn [map fst].
    repeat (apply NoDup_cons_2; [rewrite ?elem_of_cons, elem_of_nil; intuition discriminate|]).
    apply NoDup_nil_2.
Qed.
End Summary.

End DriftSpec.

(* --------------------------------------------------------------------- *)
(** ** Tokens and authorization *)

Module AuthSpec.
Import Auth PyFacts.

(** *** Strings *)

Lemma split_on_no_sep (sep : ascii) (s : string) :
  mem_char sep s = false -> split_on sep s = [s].
Proof.
  induction s as [|c s IH]; intros Hs; [reflexivity|].
  simpl in Hs. apply orb_false_iff in Hs as [Hc Hs].
  simpl. rewrite Hc, (IH Hs). reflexivity.
Qed.

Lemma split_on_app (sep : ascii) (a b : string) :
  mem_char sep a = false ->
  split_on sep (a ++ String sep b) = a :: split_on sep b.
Proof.
  induction a as [|c a IH]; intros Ha.
  - change (EmptyString ++ String sep b) with (String sep b).
    simpl. now rewrite Ascii.eqb_refl.
  - simpl in Ha. apply orb_false_iff in Ha as [Hc Ha].
    change (String c a ++ String sep b) with (String c (a ++ String sep b)).
    simpl. rewrite Hc, (IH Ha). reflexivity.
Qed.

Lemma split_token (payload signature : string) :
  mem_char "." payload = false -> mem_char "." signature = false ->
  unpack2 (split_on "." (payload ++ "." ++ signature)) = Ok (payload, signature).
Proof.
  intros Hp Hs. change ("." ++ signature) with (String "." signature).
  rewrite (split_on_app _ _ _ Hp), (split_on_no_sep _ _ Hs). reflexivity.
Qed.

Lemma dict_set_wf (d : Py.dict json) (k : string) (v : json) :
  json_wf (JObj d) -> json_wf v -> json_wf (JObj (dict_set d k v)).
Proof.
  intros [Hnd Hvals] Hv. split; [now apply dict_set_NoDup|].
  clear Hnd. induction d as [|[k0 v0] d IH]; simpl.
  - tauto.
  - destruct Hvals as [H0 Hvals]. destruct (String.eqb k0 k); simpl; tauto.
Qed.

(** *** The model runtime satisfies the laws *)

Lemma pos_of_digits_of_pos (p : positive) : pos_of_digits (digits_of_pos p) = Some p.
Proof. induction p as [p IH | p IH |]; simpl; [now rewrite IH | now rewrite IH | reflexivity]. Qed.

Lemma digits_no_dot (p : positive) : mem_char "." (digits_of_pos p) = false.
Proof. induction p as [p IH | p IH |]; simpl; [exact IH | exact IH | reflexivity]. Qed.

Lemma json_of_tree_of_json : forall v : json, json_of_tree (tree_of_json v) = v.
Proof.
  fix IH 1. intros [| b | z | [q | | |] | s | items | items]; simpl; try reflexivity.
  - destruct q; reflexivity.
  - f_equal. induction items as [|x items IHitems]; simpl; [reflexivity|].
    now rewrite IH, IHitems.
  - f_equal. induction items as [|[k x] items IHitems]; simpl; [reflexivity|].
    now rewrite IH, IHitems.
Qed.

#[global] Instance model_runtime_laws : RuntimeLaws model_runtime.
Proof.
  split.
  - intros b. cbn [urlsafe_b64decode urlsafe_b64encode model_runtime].
    rewrite pos_of_digits_of_pos. cbn [mbind option_bind]. now rewrite decode_encode.
  - intros b. apply digits_no_dot.
  - intros s. apply digits_no_dot.
  - intros v _. cbn [json_loads json_dumps model_runtime].
    rewrite pos_of_digits_of_pos. cbn [mbind option_bind]. rewrite decode_encode.
    now rewrite json_of_tree_of_json.
  - reflexivity.
Qed.

(** *** Token validation *)

Ltac py_step := cbn [unpack2 mbind result_bind Py.bind Py.try_except negb].
Ltac py_step_in H := cbn [unpack2 mbind result_bind Py.bind Py.try_except negb] in H.

Section Modes.
Context `{Runtime}.

Lemma try_except_uniform {A : Type} (body : result A) (e0 e : exn) :
  try_except body (fun _ => Raise e0) = Raise e -> e = e0.
Proof. destruct body; simpl; congruence. Qed.

Lemma decode_access_token_raises (clock : Q) (token : string) (e : exn) :
  decode_access_token clock token = Raise e -> e = credentials_exception.
Proof. unfold decode_access_token. apply try_except_uniform. Qed.

Lemma unpack2_length (pieces : list string) :
  length pieces <> 2%nat -> unpack2 pieces = Raise ValueError.
Proof. destruct pieces as [|a [|b [|c l]]]; simpl; intros Hl; try reflexivity. lia. Qed.

Lemma py_get_not_object (payload : json) (key : string) (default : json) :
  (forall items, payload <> JObj items) -> py_get payload key default = Raise AttributeError.
Proof. destruct payload; intros Hn; try reflexivity. now destruct (Hn items). Qed.

Lemma failure_mode_rejected (clock : Q) (token : string) :
  failure_mode clock token -> decode_access_token clock token = Raise credentials_exception.
Proof.
  intros Hmode. unfold decode_access_token.
  destruct Hmode as
    [ Hlen
    | p s Hsplit Hsig
    | p e Hsplit Hb64
    | p raw e Hsplit Hb64 Hjson
    | p raw payload Hsplit Hb64 Hjson Hobj
    | p raw payload subject Hsplit Hb64 Hjson Hsub Htruthy
    | p raw payload subject exp_ts e Hsplit Hb64 Hjson Hsub Htruthy Hexp Hcmp
    | p raw payload subject exp_ts Hsplit Hb64 Hjson Hsub Htruthy Hexp Hcmp
    | p raw payload subject exp_ts e Hsplit Hb64 Hjson Hsub Htruthy Hexp Hcmp Hval ].
  - rewrite (unpack2_length _ Hlen). reflexivity.
  - rewrite Hsplit. py_step.
    destruct (String.eqb_spec s (_sign p)) as [E | NE]; [contradiction | reflexivity].
  - rewrite Hsplit. py_step.
    rewrite String.eqb_refl. py_step. rewrite Hb64. reflexivity.
  - rewrite Hsplit. py_step.
    rewrite String.eqb_refl. py_step. rewrite Hb64. py_step. rewrite Hjson. reflexivity.
  - rewrite Hsplit. py_step.
    rewrite String.eqb_refl. py_step. rewrite Hb64. py_step. rewrite Hjson.
    py_step. rewrite (py_get_not_object payload "sub" JNull Hobj). reflexivity.
  - rewrite Hsplit. py_step.
    rewrite String.eqb_refl. py_step. rewrite Hb64. py_step. rewrite Hjson.
    py_step. rewrite Hsub. py_step.
    destruct (py_get payload "exp" (JInt 0)) as [exp_ts | e]; [|reflexivity].
    py_step. rewrite Htruthy. reflexivity.
  - rewrite Hsplit. py_step.
    rewrite String.eqb_refl. py_step. rewrite Hb64. py_step. rewrite Hjson.
    py_step. rewrite Hsub. py_step. rewrite Hexp. py_step.
    rewrite Htruthy. py_step. rewrite Hcmp. reflexivity.
  - rewrite Hsplit. py_step.
    rewrite String.eqb_refl. py_step. rewrite Hb64. py_step. rewrite Hjson.
    py_step. rewrite Hsub. py_step. rewrite Hexp. py_step.
    rewrite Htruthy. py_step. rewrite Hcmp. reflexivity.
  - rewrite Hsplit. py_step.
    rewrite String.eqb_refl. py_step. rewrite Hb64. py_step. rewrite Hjson.
    py_step. rewrite Hsub. py_step. rewrite Hexp. py_step.
    rewrite Htruthy. py_step. rewrite Hcmp. py_step. rewrite Hval. reflexivity.
Qed.

(** Acceptance: what a token that passes looks like. *)
Lemma decode_access_token_accepts (clock : Q) (token : string) (td : TokenData) :
  decode_access_token clock token = Ok td ->
  exists (payload_b64 raw name : string) (payload subject exp_ts : json),
    split_on "." token = [payload_b64; _sign payload_b64] /\
    urlsafe_b64decode payload_b64 = Ok raw /\
    json_loads raw = Ok payload /\
    py_get payload "sub" JNull = Ok subject /\
    truthy subject = true /\
    py_get payload "exp" (JInt 0) = Ok exp_ts /\
    float_gt_json (time_time clock) exp_ts = Ok false /\
    validate_username subject = Ok name /\
    td = {| username := Some name; scopes := [] |}.
Proof.
  unfold decode_access_token. intros Hrun.
  destruct (split_on "." token) as [|p [|s [|x l]]] eqn:Hsplit;
    py_step_in Hrun; try discriminate.
  destruct (String.eqb_spec s (_sign p)) as [-> | NE];
    py_step_in Hrun; [|discriminate].
  destruct (urlsafe_b64decode p) as [raw|] eqn:Hb64;
    py_step_in Hrun; [|discriminate].
  destruct (json_loads raw) as [payload|] eqn:Hjson;
    py_step_in Hrun; [|discriminate].
  destruct (py_get payload "sub" JNull) as [subject|] eqn:Hsub;
    py_step_in Hrun; [|discriminate].
  destruct (py_get payload "exp" (JInt 0)) as [exp_ts|] eqn:Hexp;
    py_step_in Hrun; [|discriminate].
  destruct (truthy subject) eqn:Htruthy;
    py_step_in Hrun; [|discriminate].
  destruct (float_gt_json (time_time clock) exp_ts) as [[|]|] eqn:Hcmp;
    py_step_in Hrun; try discriminate.
  destruct (validate_username subject) as [name|] eqn:Hval;
    py_step_in Hrun; [|discriminate].
  injection Hrun as <-.
  exists p, raw, name, payload, subject, exp_ts. repeat split; assumption.
Qed.

Lemma rejected_failure_mode (clock : Q) (token : string) (e : exn) :
  decode_access_token clock token = Raise e -> failure_mode clock token.
Proof.
  unfold decode_access_token. intros Hrun.
  destruct (split_on "." token) as [|p [|s [|x l]]] eqn:Hsplit;
    try (apply wrong_separator_count; rewrite Hsplit; simpl; lia).
  py_step_in Hrun.
  destruct (String.eqb_spec s (_sign p)) as [-> | NE];
    [|now apply (signature_mismatch clock token p s)].
  py_step_in Hrun.
  destruct (urlsafe_b64decode p) as [raw | e1] eqn:Hb64;
    [|now apply (malformed_encoding clock token p e1)].
  py_step_in Hrun.
  destruct (json_loads raw) as [payload | e2] eqn:Hjson;
    [|now apply (malformed_json clock token p raw e2)].
  py_step_in Hrun.
  destruct (py_get payload "sub" JNull) as [subject | e3] eqn:Hsub.
  2:{ apply (claims_not_an_object clock token p raw payload); try assumption.
      intros items ->. simpl in Hsub. destruct (dict_get items "sub"); discriminate. }
  py_step_in Hrun.
  destruct (py_get payload "exp" (JInt 0)) as [exp_ts | e4] eqn:Hexp.
  2:{ apply (claims_not_an_object clock token p raw payload); try assumption.
      intros items ->. simpl in Hexp. destruct (dict_get items "exp"); discriminate. }
  py_step_in Hrun.
  destruct (truthy subject) eqn:Htruthy;
    [|now apply (missing_or_empty_subject clock token p raw payload subject)].
  py_step_in Hrun.
  destruct (float_gt_json (time_time clock) exp_ts) as [[|] | e5] eqn:Hcmp.
  - now apply (expired clock token p raw payload subject exp_ts).
  - py_step_in Hrun.
    destruct (validate_username subject) as [name | e6] eqn:Hval; [discriminate|].
    now apply (subject_not_a_string clock token p raw payload subject exp_ts e6).
  - now apply (expiry_not_a_number clock token p raw payload subject exp_ts e5).
Qed.

(** C5.  Token validation has one rejection outcome.  Every failure mode
    (separator count, signature, encoding, JSON, claim structure, missing or
    empty subject, expiry) yields [credentials_exception], a rejection is
    always caused by one of these modes, no other exception ever leaves the
    validator, and every token is either accepted or rejected that way. *)
Theorem C5_uniform_rejection :
  forall (clock : Q) (token : string),
    (failure_mode clock token <->
     decode_access_token clock token = Raise credentials_exception) /\
    (forall e : exn, decode_access_token clock token = Raise e -> e = credentials_exception) /\
    ((exists td : TokenData, decode_access_token clock token = Ok td) \/
     decode_access_token clock token = Raise credentials_exception).
Proof.
  intros clock token. split; [split|split].
  - apply failure_mode_rejected.
  - apply rejected_failure_mode.
  - apply decode_access_token_raises.
  - destruct (decode_access_token clock token) as [td | e] eqn:Hrun.
    + left. now exists td.
    + right. now rewrite (decode_access_token_raises clock token e Hrun).
Qed.

End Modes.

(** *** Issuing *)

Section Issue.
Context `{Runtime}.

Lemma fresh_not_in_heap (h : heap) : h !! fresh (dom h) = None.
Proof. apply not_elem_of_dom. apply is_fresh. Qed.

Lemma create_access_token_run (h : heap) (clock : Q) (data : loc)
    (expires_delta : option Z) (items : Py.dict json) :
  h !! data = Some items ->
  create_access_token h clock data expires_delta =
  (Ok (issued_token clock expires_delta items),
   <[fresh (dom h) := issued_claims clock expires_delta items]> h).
Proof.
  intros Hdata. unfold create_access_token, dict_copy. rewrite Hdata.
  cbv zeta. unfold dict_update. cbn [fold_left fst snd].

  rewrite lookup_alter_eq, lookup_insert_eq. cbn [fmap option_fmap option_map].
  unfold issued_token, issued_claims. f_equal.
  apply map_eq. intros l. destruct (decide (l = fresh (dom h))) as [-> | NE].
  - now rewrite lookup_alter_eq, !lookup_insert_eq.
  - now rewrite lookup_alter_ne, !lookup_insert_ne by congruence.
Qed.

Lemma create_access_token_dangling (h : heap) (clock : Q) (data : loc)
    (expires_delta : option Z) :
  h !! data = None ->
  create_access_token h clock data expires_delta =
  (Raise (OtherException "dangling reference"), h).
Proof. intros Hdata. unfold create_access_token, dict_copy. now rewrite Hdata. Qed.

(** C9.  [create_access_token] works on a copy: after the call the caller's
    dictionary holds exactly the items it held before (so no "exp" entry is
    added to it), every dictionary of the heap is as it was, and when the
    argument refers to a dictionary a token is returned. *)
Theorem C9_create_access_token_frame :
  forall (h : heap) (clock : Q) (data : loc) (expires_delta : option Z),
    let out := create_access_token h clock data expires_delta in
    snd out !! data = h !! data /\
    h ⊆ snd out /\
    (is_Some (h !! data) -> exists token : string, fst out = Ok token).
Proof.
  intros h clock data expires_delta.
  destruct (h !! data) as [items|] eqn:Hdata.
  - rewrite (create_access_token_run h clock data expires_delta items Hdata).
    cbn [fst snd]. split; [|split].
    + rewrite lookup_insert_ne; [exact Hdata|].
      intros E. rewrite <- E, fresh_not_in_heap in Hdata. discriminate.
    + apply insert_subseteq, fresh_not_in_heap.
    + intros _. eexists. reflexivity.
  - rewrite (create_access_token_dangling h clock data expires_delta Hdata).
    cbn [fst snd]. split; [exact Hdata | split; [reflexivity|]].
    intros [? ?]. discriminate.
Qed.

End Issue.

(** *** Round trip *)

Section RoundTrip.
Context `{R : Runtime} `{!RuntimeLaws R}.

Lemma truthy_JStr (s : string) : s <> "" -> truthy (JStr s) = true.
Proof.
  intros Hs. simpl. destruct (String.eqb_spec s "") as [-> | NE]; [contradiction | reflexivity].
Qed.

(** Validating, at clock reading [clock'], a token that was issued at
    [clock]: the outcome only depends on whether the validation clock has
    passed the whole-second expiry. *)
Lemma decode_issued_token (clock clock' : Q) (expires_delta : option Z)
    (items : Py.dict json) (subject : string) :
  json_wf (JObj items) ->
  dict_get items "sub" = Some (JStr subject) ->
  subject <> "" ->
  decode_access_token clock' (issued_token clock expires_delta items) =
  if Qlt_bool
       (inject_Z (int_timestamp
                    (datetime_now clock
                     + timedelta_or expires_delta
                         (timedelta_minutes ACCESS_TOKEN_EXPIRE_MINUTES))))
       clock'
  then Raise credentials_exception
  else Ok {| username := Some subject; scopes := [] |}.
Proof.
  intros Hwf Hsub Hne. unfold decode_access_token, issued_token. cbv zeta.
  rewrite split_token by (apply b64_alphabet || apply hexdigest_alphabet).
  py_step. rewrite String.eqb_refl. py_step.
  rewrite b64_roundtrip. py_step.
  rewrite json_roundtrip by (apply dict_set_wf; [exact Hwf | exact I]). py_step.
  unfold py_get, issued_claims.
  rewrite (dict_get_set_other items "exp" "sub") by discriminate. rewrite Hsub. py_step.
  rewrite dict_get_set_same. py_step.
  rewrite (truthy_JStr subject Hne). py_step.
  unfold float_gt_json, time_time.
  destruct (Qlt_bool _ clock'); py_step; [reflexivity|].
  rewrite validate_username_str. reflexivity.
Qed.




End RoundTrip.

Lemma alice_wf : json_wf (JObj [("sub", JStr "alice")]).
Proof. split; [apply NoDup_singleton | simpl; tauto]. Qed.




(** *** The optional-authentication dependency *)

Section Optional.
Context `{Runtime}.

Lemma get_current_user_raises (clock : Q) (creds : option HTTPAuthorizationCredentials)
    (e : exn) :
  get_current_user clock creds = Raise e -> is_HTTPException e = true.
Proof.
  unfold get_current_user. destruct creds as [c|]; [|intros [= <-]; reflexivity].
  destruct (String.eqb (credentials c) ""); [intros [= <-]; reflexivity|].
  destruct (decode_access_token clock (credentials c)) as [td | e'] eqn:Hdec.
  - apply decode_access_token_accepts in Hdec
      as (p & raw & name & payload & subject & exp_ts & _ & _ & _ & _ & _ & _ & _ & _ & ->).
    py_step. cbn [username]. discriminate.
  - py_step. intros [= <-]. now rewrite (decode_access_token_raises clock _ e' Hdec).
Qed.

Lemma get_current_user_not_api_key_user (clock : Q)
    (creds : option HTTPAuthorizationCredentials) :
  get_current_user clock creds <> Ok api_key_user.
Proof.
  unfold get_current_user. destruct creds as [c|]; [|discriminate].
  destruct (String.eqb (credentials c) ""); [discriminate|].
  destruct (decode_access_token clock (credentials c)) as [td | e']; py_step; [|discriminate].
  destruct (username td); discriminate.
Qed.

Lemma verify_api_key_passes (env : gmap string string) (key : string) :
  verify_api_key env (Some key) = Ok true <->
  api_key_auth_enabled env = false \/ configured_key env = None \/
  configured_key env = Some key.
Proof.
  unfold verify_api_key, configured_key.
  destruct (api_key_auth_enabled env); cbn [negb]; [|intuition].
  destruct (env !! "API_KEY") as [valid|]; [|intuition].
  destruct (String.eqb_spec valid "") as [-> | NE]; [intuition|].
  destruct (String.eqb_spec key valid) as [-> | NE']; cbn [negb].
  - intuition.
  - split; [discriminate|]. intros [? | [? | ?]]; congruence.
Qed.

Lemma verify_api_key_outcome (env : gmap string string) (api_key : option string) :
  verify_api_key env api_key = Ok true \/
  verify_api_key env api_key = Raise (HTTPException 401 "Invalid or missing API Key" "API-Key").
Proof.
  unfold verify_api_key.
  destruct (api_key_auth_enabled env); cbn [negb]; [|now left].
  destruct (env !! "API_KEY") as [valid|]; [|now left].
  destruct (String.eqb valid ""); [now left|].
  destruct api_key as [key|]; [|now right].
  destruct (String.eqb key valid); cbn [negb]; [now left | now right].
Qed.

Lemma bearer_path (clock : Q) (creds : option HTTPAuthorizationCredentials) :
  match creds with
  | Some _ => try_return (get_current_user clock creds)
  | None => Ok None
  end = Ok (bearer_identity clock creds).
Proof.
  unfold bearer_identity. destruct creds as [c|]; [|reflexivity]. unfold try_return.
  destruct (get_current_user clock (Some c)) as [user | e] eqn:Hrun; [reflexivity|].
  py_step. cbn [try_except_HTTP]. now rewrite (get_current_user_raises _ _ _ Hrun).
Qed.

Lemma api_key_path (env : gmap string string) (api_key : option string) :
  match api_key with
  | Some key =>
      if negb (String.eqb key "")
      then try_return (_ ← verify_api_key env api_key; Ok api_key_user)
      else Ok None
  | None => Ok None
  end =
  Ok match api_key with
     | Some key =>
         if negb (String.eqb key "")
         then match verify_api_key env api_key with
              | Ok _ => Some api_key_user
              | Raise _ => None
              end
         else None
     | None => None
     end.
Proof.
  destruct api_key as [key|]; [|reflexivity].
  destruct (negb (String.eqb key "")); [|reflexivity]. unfold try_return.
  destruct (verify_api_key_outcome env (Some key)) as [-> | ->]; reflexivity.
Qed.

(** C7 (amended).  [get_current_user_optional] resolves to the generic
    API-key identity exactly when the bearer path yields no identity, a
    non-empty API key is presented, and either API-key authentication is
    not enabled, or no valid key is configured, or the configured key equals
    the presented key. *)
Theorem C7_api_key_identity :
  forall (env : gmap string string) (clock : Q)
         (creds : option HTTPAuthorizationCredentials) (api_key : option string),
    get_current_user_optional env clock creds api_key = Ok (Some api_key_user) <->
    bearer_identity clock creds = None /\
    exists key : string,
      api_key = Some key /\ key <> "" /\
      (api_key_auth_enabled env = false \/ configured_key env = None \/
       configured_key env = Some key).
Proof.
  intros env clock creds api_key. unfold get_current_user_optional.
  rewrite bearer_path. py_step.
  destruct (bearer_identity clock creds) as [user|] eqn:Hbearer.
  - split; [|intros [? _]; discriminate].
    intros [= ->]. exfalso. unfold bearer_identity in Hbearer.
    destruct creds as [c|]; [|discriminate].
    destruct (get_current_user clock (Some c)) as [user|] eqn:Hrun; [|discriminate].
    injection Hbearer as ->. now apply (get_current_user_not_api_key_user clock (Some c)).
  - rewrite api_key_path. py_step.
    destruct api_key as [key|].
    2:{ split; [discriminate | intros [_ (key & ? & _)]; discriminate]. }
    destruct (String.eqb_spec key "") as [-> | NE]; cbn [negb].
    { split; [discriminate | intros [_ (key & [= <-] & ? & _)]; contradiction]. }
    pose proof (verify_api_key_passes env key) as Hpass.
    destruct (verify_api_key_outcome env (Some key)) as [E | E]; rewrite E in *.
    + split; [|reflexivity]. intros _. split; [reflexivity|].
      exists key. split; [reflexivity | split; [exact NE | now apply Hpass]].
    + split; [discriminate|]. intros [_ (key' & [= <-] & _ & Hcond)].
      apply Hpass in Hcond. discriminate.
Qed.

End Optional.

(** The claim as stated fails: with API-key authentication disabled (the
    environment is empty) any presented key yields the API-key identity. *)
Lemma C7_counterexample :
  get_current_user_optional (H := model_runtime) ∅ 0 None (Some "guess")
    = Ok (Some api_key_user) /\
  api_key_auth_enabled ∅ = false /\
  (∅ : gmap string string) !! "API_KEY" = None.
Proof. repeat split. Qed.

End AuthSpec.

(* --------------------------------------------------------------------- *)
(** ** Alert fan-out *)

Module AlertsSpec.
Import Alerts.

Section SendAlert.
Context `{Outside}.

Lemma truthy_str_spec (s : option string) :
  truthy_str s = true <-> exists v : string, s = Some v /\ v <> "".
Proof.
  destruct s as [v|]; simpl.
  - destruct (String.eqb_spec v "") as [-> | NE]; simpl.
    + split; [discriminate | intros (v & [= <-] & Hv); contradiction].
    + split; [intros _; now exists v | reflexivity].
  - split; [discriminate | intros (v & Hv & _); discriminate].
Qed.

(** What [send_alert] does, channel by channel, for any manager. *)
Lemma send_alert_channels (self : AlertManager) (env : gmap string string)
    (title message : string) (severity : AlertSeverity)
    (metrics metadata : option (Py.dict Auth.json)) (log : list AlertChannel) :
  let out := send_alert self env title message severity metrics metadata log in
  (SLACK ∈ dom (fst out) <-> slack_enabled self && truthy_str (slack_webhook self) = true) /\
  (TEAMS ∈ dom (fst out) <-> teams_enabled self && truthy_str (teams_webhook self) = true) /\
  (EMAIL ∈ dom (fst out) <-> email_enabled self = true) /\
  (WEBHOOK ∉ dom (fst out)) /\
  (forall ch : AlertChannel, ch ∈ snd out <-> (ch ∈ log \/ ch ∈ dom (fst out))).
Proof.
  unfold send_alert, _send_slack, _send_teams, _send_email, attempt.
  destruct (slack_enabled self && truthy_str (slack_webhook self));
    destruct (teams_enabled self && truthy_str (teams_webhook self));
    destruct (email_enabled self); cbn [fst snd];
    rewrite ?dom_insert_L, ?dom_empty_L;
    (split; [|split; [|split; [|split]]]);
    try (intros ch; rewrite ?elem_of_app, ?list_elem_of_singleton);
    rewrite ?elem_of_union, ?elem_of_singleton, ?elem_of_empty;
    intuition (discriminate || congruence).
Qed.

(** C10.  For a manager built from the environment, the outcome mapping of
    [send_alert] has a key exactly for the channels enabled at construction
    (Slack and Teams also needing a non-empty webhook URL); a disabled
    channel has no entry; delivery is attempted on exactly the channels that
    get an entry; and the webhook channel is neither attempted nor present. *)
Theorem C10_send_alert_keys :
  forall (env_init env : gmap string string) (title message : string)
         (severity : AlertSeverity) (metrics metadata : option (Py.dict Auth.json)),
    let self := AlertManager_init env_init in
    let out := send_alert self env title message severity metrics metadata [] in
    (forall ch : AlertChannel, ch ∈ dom (fst out) <-> spec_channel_enabled env_init ch) /\
    (forall ch : AlertChannel, ch ∈ snd out <-> ch ∈ dom (fst out)) /\
    (WEBHOOK ∉ dom (fst out)) /\ (WEBHOOK ∉ snd out).
Proof.
  intros env_init env title message severity metrics metadata self out.
  destruct (send_alert_channels self env title message severity metrics metadata [])
    as (Hslack & Hteams & Hemail & Hwebhook & Hlog).
  fold out in Hslack, Hteams, Hemail, Hwebhook, Hlog.
  assert (Hattempts : forall ch : AlertChannel, ch ∈ snd out <-> ch ∈ dom (fst out)).
  { intros ch. rewrite Hlog, elem_of_nil. tauto. }
  split; [|split; [exact Hattempts | split; [exact Hwebhook | now rewrite Hattempts]]].
  intros [].
  - rewrite Hslack, andb_true_iff, truthy_str_spec. unfold self. cbn [slack_enabled slack_webhook AlertManager_init spec_channel_enabled].
    now rewrite String.eqb_eq.
  - rewrite Hteams, andb_true_iff, truthy_str_spec. unfold self. cbn [teams_enabled teams_webhook AlertManager_init spec_channel_enabled].
    now rewrite String.eqb_eq.
  - rewrite Hemail. unfold self. cbn [email_enabled AlertManager_init spec_channel_enabled].
    now rewrite String.eqb_eq.
  - simpl. tauto.
Qed.

End SendAlert.

End AlertsSpec.

(* --------------------------------------------------------------------- *)
(** ** Further laws of the drift engine *)

Module DriftLaws.
Import Drift PyFacts DriftSpec.
Local Open Scope R_scope.

(** *** When [calculate_psi] raises *)

Section Raises.
Context {N : NumPy} {laws : NumPyLaws N}.




End Raises.


(** *** An empty current sample *)

Section EmptyCurrent.
Context `{Externals} {N : NumPy} {laws : NumPyLaws N}.








End EmptyCurrent.


(** *** The histogram partitions the sample *)

Section Partition.
Context {N : NumPy} {laws : NumPyLaws N}.










End Partition.

(** *** The order of the samples does not matter *)

Section Order.
Context {N : NumPy} {laws : NumPyLaws N}.
Local Open Scope Q_scope.











End Order.


(** *** The feature report *)

Section Report.
Context `{Externals} {N : NumPy}.
Variables (self : FraudDriftDetector) (reference_data current_data : DataFrame).

Local Abbreviation computed_finding := (computed_finding self reference_data current_data).

Lemma detect_feature_drift_loop_present (features : list string) :
  forall acc : Py.dict DriftFinding,
    detect_feature_drift_loop self reference_data current_data features acc =
    detect_feature_drift_loop self reference_data current_data
      (List.filter (in_both_frames reference_data current_data) features) acc.
Proof.
  induction features as [|feature features IH]; intros acc; [reflexivity|].
  cbn [List.filter detect_feature_drift_loop]. unfold in_both_frames at 1.
  destruct (reference_data !! feature) as [ref_column|] eqn:Href.
  - destruct (current_data !! feature) as [cur_column|] eqn:Hcur.
    + rewrite !bool_decide_eq_true_2 by (eexists; reflexivity).
      cbn [andb detect_feature_drift_loop]. rewrite Href, Hcur.
      destruct (calculate_psi _ _ 10) as [psi|e]; [|reflexivity].
      cbn [mbind result_bind Py.bind].
      destruct (calculate_ks_test _ _) as [[ks_stat p_value]|e]; [|reflexivity].
      cbn [mbind result_bind Py.bind]. apply IH.
    + rewrite (bool_decide_eq_false_2 (is_Some None)) by (intros [? ?]; discriminate).
      rewrite andb_false_r. apply IH.
  - rewrite (bool_decide_eq_false_2 (is_Some None)) by (intros [? ?]; discriminate).
    cbn [andb]. apply IH.
Qed.

(** X5.  Requested features that are not a column of both frames are
    skipped: the run gives the same report, or the same exception, as the
    run on the requested features that both frames have. *)
Theorem X5_absent_features_skipped :
  forall features : list string,
    detect_feature_drift self reference_data current_data features =
    detect_feature_drift self reference_data current_data
      (List.filter (in_both_frames reference_data current_data) features).
Proof. intros features. apply detect_feature_drift_loop_present. Qed.

Lemma detect_feature_drift_loop_entries (features : list string) :
  forall acc report : Py.dict DriftFinding,
    NoDup (dict_keys acc) ->
    detect_feature_drift_loop self reference_data current_data features acc = Ok report ->
    NoDup (dict_keys report) /\
    (forall (feature : string) (finding : DriftFinding),
       dict_get report feature = Some finding ->
       dict_get acc feature = Some finding \/
       (feature ∈ features /\ computed_finding feature finding)) /\
    (forall feature : string,
       is_Some (dict_get acc feature) \/
       (feature ∈ features /\ on_both_sides reference_data current_data feature) ->
       is_Some (dict_get report feature)).
Proof.
  induction features as [|f features IH]; intros acc report Hnd Hrun.
  - injection Hrun as <-. split; [exact Hnd|]. split; [intros; now left|].
    intros feature [Hacc | [Hin _]]; [exact Hacc | now apply elem_of_nil in Hin].
  - cbn [detect_feature_drift_loop] in Hrun.
    destruct (reference_data !! f) as [ref_column|] eqn:Href;
      [destruct (current_data !! f) as [cur_column|] eqn:Hcur|].
    + destruct (calculate_psi _ _ 10) as [x|e] eqn:Hpsi; [|discriminate].
      cbn [mbind result_bind Py.bind] in Hrun.
      unfold calculate_ks_test in Hrun.
      destruct (stats_ks_2samp _ _) as [[ks_stat p_value]|e] eqn:Hks; [|discriminate].
      cbn [mbind result_bind Py.bind] in Hrun.
      apply IH in Hrun as (Hnd' & Hentries & Hall); [|now apply dict_set_NoDup].
      split; [exact Hnd'|]. split.
      * intros feature finding Hget.
        destruct (Hentries feature finding Hget) as [Hacc | [Hin Hc]].
        -- rewrite dict_get_set in Hacc. destruct (decide (f = feature)) as [<- | NE].
           ++ injection Hacc as <-. right. split; [apply list_elem_of_here|].
              exists ref_column, cur_column. cbn [Drift.psi ks_statistic ks_p_value
                drift_detected drift_severity]. repeat split; assumption || reflexivity.
           ++ now left.
        -- right. split; [now apply list_elem_of_further | exact Hc].
      * intros feature Hcase. apply Hall. rewrite dict_get_set.
        destruct (decide (f = feature)) as [<- | NE]; [left; now eexists|].
        destruct Hcase as [Hacc | [Hin Hboth]]; [now left|].
        apply elem_of_cons in Hin as [-> | Hin]; [congruence|]. right. now split.
    + apply IH in Hrun as (Hnd' & Hentries & Hall); [|exact Hnd].
      split; [exact Hnd'|]. split.
      * intros feature finding Hget.
        destruct (Hentries feature finding Hget) as [Hacc | [Hin Hc]]; [now left|].
        right. split; [now apply list_elem_of_further | exact Hc].
      * intros feature [Hacc | [Hin Hboth]]; apply Hall; [now left|].
        apply elem_of_cons in Hin as [-> | Hin]; [|right; now split].
        destruct Hboth as [_ [? Hsome]]. congruence.
    + apply IH in Hrun as (Hnd' & Hentries & Hall); [|exact Hnd].
      split; [exact Hnd'|]. split.
      * intros feature finding Hget.
        destruct (Hentries feature finding Hget) as [Hacc | [Hin Hc]]; [now left|].
        right. split; [now apply list_elem_of_further | exact Hc].
      * intros feature [Hacc | [Hin Hboth]]; apply Hall; [now left|].
        apply elem_of_cons in Hin as [-> | Hin]; [|right; now split].
        destruct Hboth as [[? Hsome] _]. congruence.
Qed.

(** X6.  Whenever [detect_feature_drift] returns, the keys of the report
    are distinct, and the report has an entry exactly for the requested
    features that are columns of both frames; each entry holds the index and
    the KS pair of the two null-dropped columns, the flag
    [psi > threshold_psi or p_value < threshold_ks] and the severity label
    of that index. *)
Theorem X6_report_entries :
  forall (features : list string) (report : Py.dict DriftFinding),
    detect_feature_drift self reference_data current_data features = Ok report ->
    NoDup (dict_keys report) /\
    forall feature : string,
      match dict_get report feature with
      | Some finding => feature ∈ features /\ computed_finding feature finding
      | None => ~ (feature ∈ features /\ on_both_sides reference_data current_data feature)
      end.
Proof.
  intros features report Hrun.
  apply detect_feature_drift_loop_entries in Hrun as (Hnd & Hentries & Hall);
    [|apply NoDup_nil_2].
  split; [exact Hnd|]. intros feature.
  destruct (dict_get report feature) as [finding|] eqn:Hget.
  - destruct (Hentries feature finding Hget) as [Hacc | Hc]; [discriminate | exact Hc].
  - intros Hboth. destruct (Hall feature (or_intror Hboth)) as [finding Hsome]. congruence.
Qed.

(** X7.  The summary of a report that [detect_feature_drift] returned is
    never an exception: it is the header with the number of entries and the
    number of flagged entries, followed, when an entry is flagged, by one
    line for each of the first five flagged entries in the order of the
    report. *)
Theorem X7_summary_of_report :
  forall (features : list string) (report : Py.dict DriftFinding),
    detect_feature_drift self reference_data current_data features = Ok report ->
    generate_drift_summary report =
    Ok ("Drift Detection Summary:" ++ newline ++
        "  Total features monitored: " ++ pretty (length report) ++ newline ++
        "  Features with drift: " ++
          pretty (length (List.filter (fun item : string * DriftFinding =>
                                         drift_detected (snd item)) report)) ++ newline ++
        match listed report with
        | [] => ""
        | _ :: _ => newline ++ "  Critical features:" ++ newline ++ concat_lines (listed report)
        end).
Proof.
  intros features report Hrun. apply generate_drift_summary_listing.
  apply detect_feature_drift_loop_entries in Hrun as (Hnd & _); [exact Hnd | apply NoDup_nil_2].
Qed.

Lemma dict_get_key {V : Type} (d : Py.dict V) (k : string) :
  k ∈ dict_keys d -> is_Some (dict_get d k).
Proof.
  induction d as [|[k0 v0] d IH]; cbn [dict_keys map fst dict_get].
  - intros Hin. now apply elem_of_nil in Hin.
  - intros Hin. destruct (String.eqb_spec k0 k) as [-> | NE]; [now eexists|].
    apply elem_of_cons in Hin as [-> | Hin]; [congruence | now apply IH].
Qed.

Lemma summary_lines_returns (drift_report : Py.dict DriftFinding) (features : list string) :
  (forall feature, feature ∈ features -> feature ∈ dict_keys drift_report) ->
  forall summary : string,
    exists text : string, summary_lines drift_report features summary = Ok text.
Proof.
  induction features as [|f features IH]; intros Hsub summary; [now eexists|].
  cbn [summary_lines].
  destruct (dict_get_key drift_report f (Hsub f (list_elem_of_here _ _))) as [metrics ->].
  apply IH. intros feature Hin. apply Hsub. now apply list_elem_of_further.
Qed.

(** X8.  [generate_drift_summary] returns a text for every report: the
    lookup [drift_report[feature]] inside its loop never fails. *)
Theorem X8_summary_never_raises :
  forall drift_report : Py.dict DriftFinding,
    exists text : string, generate_drift_summary drift_report = Ok text.
Proof.
  intros drift_report. unfold generate_drift_summary.
  set (hits := List.filter _ drift_report).
  assert (Hsub : forall feature, feature ∈ take 5 (map fst hits) ->
                                 feature ∈ dict_keys drift_report).
  { intros feature Hin. apply elem_of_take in Hin as (i & Hi & _).
    apply list_elem_of_lookup_2 in Hi. apply list_elem_of_In in Hi.
    apply in_map_iff in Hi as (item & <- & Hitem). unfold hits in Hitem.
    apply filter_In in Hitem as [Hitem _]. apply list_elem_of_In.
    unfold dict_keys. apply in_map_iff. now exists item. }
  destruct (map fst hits) as [|f fs] eqn:Efs; [now eexists|].
  now apply summary_lines_returns.
Qed.

End Report.

(** A run that returns, on the two frames with a constant "amount" column. *)
Lemma flat_run :
  exists report : Py.dict DriftFinding,
    detect_feature_drift (H := stub_externals) (N := exact_numpy) default_detector
      flat_reference flat_current ["amount"; "hour"] = Ok report.
Proof.
  destruct (detect_feature_drift_loop_ok (H := stub_externals) (N := exact_numpy)
              (laws := exact_numpy_laws) default_detector
              flat_reference flat_current ["amount"; "hour"]) with (acc := @nil (string * DriftFinding))
    as (report & Hrun & _).
  - apply Forall_forall. intros feature Hin ref_column cur_column Href Hcur.
    apply elem_of_cons in Hin as [-> | Hin].
    + vm_compute in Href. vm_compute in Hcur.
      injection Href as <-. injection Hcur as <-.
      split; [discriminate | split; [discriminate | eexists; reflexivity]].
    + apply list_elem_of_singleton in Hin as ->. vm_compute in Href. discriminate.
  - exists report. exact Hrun.
Qed.

Lemma X6_witness :
  exists report : Py.dict DriftFinding,
    detect_feature_drift (H := stub_externals) (N := exact_numpy) default_detector
      flat_reference flat_current ["amount"; "hour"] = Ok report /\
    NoDup (dict_keys report) /\
    forall feature : string,
      match dict_get report feature with
      | Some finding =>
          feature ∈ ["amount"; "hour"] /\
          Drift.computed_finding (H := stub_externals) (N := exact_numpy) default_detector
            flat_reference flat_current feature finding
      | None =>
          ~ (feature ∈ ["amount"; "hour"] /\
             on_both_sides flat_reference flat_current feature)
      end.
Proof.
  destruct flat_run as [report Hrun]. exists report. split; [exact Hrun|].
  exact (X6_report_entries (H := stub_externals) (N := exact_numpy) default_detector
           flat_reference flat_current
           ["amount"; "hour"] report Hrun).
Defined.

Lemma X7_witness :
  exists report : Py.dict DriftFinding,
    detect_feature_drift (H := stub_externals) (N := exact_numpy) default_detector
      flat_reference flat_current ["amount"; "hour"] = Ok report /\
    generate_drift_summary (H := stub_externals) report =
    Ok ("Drift Detection Summary:" ++ newline ++
        "  Total features monitored: " ++ pretty (length report) ++ newline ++
        "  Features with drift: " ++
          pretty (length (List.filter (fun item : string * DriftFinding =>
                                         drift_detected (snd item)) report)) ++ newline ++
        match listed report with
        | [] => ""
        | _ :: _ =>
            newline ++ "  Critical features:" ++ newline ++
            concat_lines (H := stub_externals) (listed report)
        end).
Proof.
  destruct flat_run as [report Hrun]. exists report. split; [exact Hrun|].
  exact (X7_summary_of_report (H := stub_externals) (N := exact_numpy) default_detector
           flat_reference flat_current ["amount"; "hour"] report Hrun).
Defined.

(** *** Identical score arrays *)

Section Same.
Context `{Externals} {N : NumPy} {laws : NumPyLaws N}.

End Same.


(** *** Severity labels *)

Lemma classify_cases (psi : float) :
  (exists x, psi = Fin x /\ x < 1 / 10 /\ _classify_drift_severity psi = "none") \/
  (exists x, psi = Fin x /\ 1 / 10 <= x < 2 / 10 /\ _classify_drift_severity psi = "moderate") \/
  ((psi = NaN \/ exists x, psi = Fin x /\ 2 / 10 <= x) /\
   _classify_drift_severity psi = "significant").
Proof.
  destruct psi as [x|]; [|right; right; split; [now left | reflexivity]].
  unfold _classify_drift_severity, float_lt.
  destruct (decide (x < 1 / 10)) as [H1|H1].
  - left. exists x. rewrite bool_decide_eq_true_2 by exact H1. repeat split; assumption.
  - rewrite (bool_decide_eq_false_2 _ H1).
    destruct (decide (x < 2 / 10)) as [H2|H2].
    + right; left. exists x. rewrite bool_decide_eq_true_2 by exact H2.
      repeat split; lra.
    + right; right. rewrite (bool_decide_eq_false_2 _ H2).
      split; [right; exists x; split; [reflexivity | lra] | reflexivity].
Qed.

(** X10.  The severity label never decreases when the index grows, it is
    always one of the three labels, and a NaN index is labelled
    "significant". *)
Theorem X10_severity_monotone :
  (forall x y : R,
     x <= y ->
     (severity_rank (_classify_drift_severity (Fin x)) <=
      severity_rank (_classify_drift_severity (Fin y)))%nat) /\
  (forall psi : float,
     _classify_drift_severity psi = "none" \/
     _classify_drift_severity psi = "moderate" \/
     _classify_drift_severity psi = "significant") /\
  _classify_drift_severity NaN = "significant".
Proof.
  split; [|split; [|reflexivity]].
  - intros x y Hxy.
    destruct (classify_cases (Fin x)) as [(x' & Ex & Hx & ->) | [(x' & Ex & Hx & ->) | [Hx ->]]];
    destruct (classify_cases (Fin y)) as [(y' & Ey & Hy & ->) | [(y' & Ey & Hy & ->) | [Hy ->]]];
      try (injection Ex as <-); try (injection Ey as <-);
      try (cbv; lia); exfalso.
    + lra.
    + destruct Hx as [Hx | (x' & Ex & Hx)]; [discriminate|]. injection Ex as <-. lra.
    + destruct Hx as [Hx | (x' & Ex & Hx)]; [discriminate|]. injection Ex as <-. lra.
  - intros psi.
    destruct (classify_cases psi) as [(x & _ & _ & ->) | [(x & _ & _ & ->) | [_ ->]]]; tauto.
Qed.


End DriftLaws.

(* --------------------------------------------------------------------- *)
(** ** Further laws of tokens and identities *)

Module AuthLaws.
Import Auth PyFacts AuthSpec.

(** *** Tokens and the clock *)

Section Clock.
Context `{Runtime}.

Lemma Qlt_bool_false_iff (x y : Q) : Qlt_bool x y = false <-> (y <= x)%Q.
Proof. unfold Qlt_bool. rewrite negb_false_iff. apply Qle_bool_iff. Qed.

Lemma Qlt_bool_true_iff (x y : Q) : Qlt_bool x y = true <-> (x < y)%Q.
Proof.
  unfold Qlt_bool. rewrite negb_true_iff. split.
  - intros Hf. apply Qnot_le_lt. intros Hle. apply Qle_bool_iff in Hle. congruence.
  - intros Hlt. destruct (Qle_bool y x) eqn:Hle; [|reflexivity].
    apply Qle_bool_iff in Hle. exfalso. now apply (Qlt_not_le x y).
Qed.

Lemma float_gt_json_earlier (t t' : Q) (v : json) :
  (t' <= t)%Q -> float_gt_json t v = Ok false -> float_gt_json t' v = Ok false.
Proof.
  intros Hle. destruct v as [|b|z|[q| | |]|s|items|items]; cbn [float_gt_json];
    try discriminate; try (intros; reflexivity);
    intros Hgt; injection Hgt as Hgt; f_equal;
    apply Qlt_bool_false_iff; apply Qlt_bool_false_iff in Hgt; lra.
Qed.

(** X12.  A token that validates at one clock reading validates, with the
    same data, at every earlier reading: validation has no not-before
    check, and only time can invalidate a token. *)
Theorem X12_token_valid_earlier :
  forall (clock clock' : Q) (token : string) (token_data : TokenData),
    decode_access_token clock token = Ok token_data ->
    (clock' <= clock)%Q ->
    decode_access_token clock' token = Ok token_data.
Proof.
  intros clock clock' token token_data Hok Hle.
  apply decode_access_token_accepts in Hok
    as (payload_b64 & raw & name & payload & subject & exp_ts &
        Hsplit & Hraw & Hloads & Hsub & Htruthy & Hexp & Hgt & Hname & ->).
  unfold decode_access_token. rewrite Hsplit. py_step.
  rewrite String.eqb_refl. py_step. rewrite Hraw. py_step. rewrite Hloads. py_step.
  rewrite Hsub. py_step. rewrite Hexp. py_step. rewrite Htruthy. py_step.
  rewrite (float_gt_json_earlier (time_time clock) (time_time clock') _ Hle Hgt). py_step.
  rewrite Hname. reflexivity.
Qed.

End Clock.

Section Lifetime.
Context `{R : Runtime} `{!RuntimeLaws R}.



(** X14.  The token that [create_access_token] returns splits at its dot
    into a payload and the signature of that payload; decoding the payload
    gives back the caller's claims with "exp" set to the expiry (replacing
    any "exp" the caller supplied) and every other key unchanged; the
    caller's dictionary is left as it was. *)
Theorem X14_issued_claims_roundtrip :
  forall (h : heap) (clock : Q) (data : loc) (items : Py.dict json)
         (expires_delta : option Z),
    h !! data = Some items ->
    json_wf (JObj items) ->
    exists (token payload_b64 : string) (h' : heap) (claims : Py.dict json),
      create_access_token h clock data expires_delta = (Ok token, h') /\
      unpack2 (split_on "." token) = Ok (payload_b64, _sign payload_b64) /\
      (raw ← urlsafe_b64decode payload_b64; json_loads raw) = Ok (JObj claims) /\
      dict_get claims "exp" =
        Some (JInt (int_timestamp
                      (datetime_now clock
                       + timedelta_or expires_delta
                           (timedelta_minutes ACCESS_TOKEN_EXPIRE_MINUTES)))) /\
      (forall key : string, key <> "exp" -> dict_get claims key = dict_get items key) /\
      h' !! data = Some items.
Proof.
  intros h clock data items expires_delta Hdata Hwf.
  exists (issued_token clock expires_delta items),
         (urlsafe_b64encode (json_dumps (JObj (issued_claims clock expires_delta items)))),
         (<[fresh (dom h) := issued_claims clock expires_delta items]> h),
         (issued_claims clock expires_delta items).
  split; [now apply create_access_token_run|].
  split; [unfold issued_token; cbv zeta;
          apply split_token; (apply b64_alphabet || apply hexdigest_alphabet)|].
  split.
  { rewrite b64_roundtrip. py_step.
    apply json_roundtrip. apply dict_set_wf; [exact Hwf | exact I]. }
  unfold issued_claims. split; [apply dict_get_set_same|].
  split; [intros key Hkey; apply dict_get_set_other; congruence|].
  rewrite lookup_insert_ne; [exact Hdata|].
  intros <-. rewrite fresh_not_in_heap in Hdata. discriminate.
Qed.

End Lifetime.

Lemma X12_witness :
  decode_access_token (H := model_runtime) (1 # 4)
    (issued_token (H := model_runtime) (1 # 2) None [("sub", JStr "alice")])
  = Ok {| username := Some "alice"; scopes := [] |}.
Proof.
  apply (X12_token_valid_earlier (H := model_runtime) (1 # 2) (1 # 4)).
  - rewrite (decode_issued_token (R := model_runtime) (1 # 2) (1 # 2) None _ "alice"
               alice_wf eq_refl); [reflexivity | discriminate].
  - apply Qle_bool_iff. reflexivity.
Defined.


Lemma X14_witness :
  exists (token payload_b64 : string) (h' : heap) (claims : Py.dict json),
    create_access_token (H := model_runtime) alice_heap (1 # 2) 1%positive None
      = (Ok token, h') /\
    unpack2 (split_on "." token) = Ok (payload_b64, _sign (H := model_runtime) payload_b64) /\
    (raw ← urlsafe_b64decode (Runtime := model_runtime) payload_b64;
     json_loads (Runtime := model_runtime) raw) = Ok (JObj claims) /\
    dict_get claims "exp" =
      Some (JInt (int_timestamp
                    (datetime_now (1 # 2)
                     + timedelta_or None (timedelta_minutes ACCESS_TOKEN_EXPIRE_MINUTES)))) /\
    (forall key : string,
       key <> "exp" -> dict_get claims key = dict_get [("sub", JStr "alice")] key) /\
    h' !! 1%positive = Some [("sub", JStr "alice")].
Proof.
  apply (X14_issued_claims_roundtrip (R := model_runtime) alice_heap (1 # 2) 1%positive
           [("sub", JStr "alice")] None).
  - reflexivity.
  - exact alice_wf.
Defined.

(** *** The dependencies *)

Section Deps.
Context `{Runtime}.

Lemma get_current_user_cases :
  forall (clock : Q) (creds : option HTTPAuthorizationCredentials),
    match get_current_user clock creds with
    | Ok user =>
        exists (c : HTTPAuthorizationCredentials) (name : string),
          creds = Some c /\ credentials c <> "" /\
          decode_access_token clock (credentials c)
            = Ok {| username := Some name; scopes := [] |} /\
          user = {| user_username := name;
                    email := Some (name ++ "@example.com");
                    full_name := Some (str_title name);
                    disabled := Some false |}
    | Raise e =>
        (e = HTTPException 403 "Not authenticated" "Bearer" /\
         (creds = None \/ exists c, creds = Some c /\ credentials c = "")) \/
        (e = credentials_exception /\
         exists c, creds = Some c /\ credentials c <> "" /\
                   decode_access_token clock (credentials c) = Raise credentials_exception)
    end.
Proof.
  intros clock [c|]; cbn [get_current_user]; [|left; split; [reflexivity | now left]].
  destruct (String.eqb_spec (credentials c) "") as [Hempty | Hne].
  - left. split; [reflexivity | right; now exists c].
  - destruct (decode_access_token clock (credentials c)) as [token_data|e] eqn:Hdec.
    + py_step. pose proof Hdec as Hacc.
      apply decode_access_token_accepts in Hacc
        as (_ & _ & name & _ & _ & _ & _ & _ & _ & _ & _ & _ & _ & _ & ->).
      cbn [username]. exists c, name. repeat split; assumption.
    + py_step. right. apply decode_access_token_raises in Hdec as Heq. subst e.
      split; [reflexivity|]. exists c. repeat split; assumption.
Qed.

Lemma get_current_user_enabled (clock : Q) (creds : option HTTPAuthorizationCredentials)
    (user : User) :
  get_current_user clock creds = Ok user -> disabled user = Some false.
Proof.
  intros Hok. pose proof (get_current_user_cases clock creds) as Hout.
  rewrite Hok in Hout. destruct Hout as (c & name & _ & _ & _ & ->). reflexivity.
Qed.

(** X15.  [get_current_user] has three outcomes: without credentials, or
    with an empty token, it raises 403 "Not authenticated"; with a token
    that does not validate it raises the 401 credentials exception; with a
    token that validates for subject [name] it returns the user [name] with
    the derived address [name@example.com], the title-cased name, and
    [disabled=False].  The scheme of the credentials is not looked at. *)
Theorem X15_get_current_user_outcomes :
  forall (clock : Q) (creds : option HTTPAuthorizationCredentials),
    match get_current_user clock creds with
    | Ok user =>
        exists (c : HTTPAuthorizationCredentials) (name : string),
          creds = Some c /\ credentials c <> "" /\
          decode_access_token clock (credentials c)
            = Ok {| username := Some name; scopes := [] |} /\
          user = {| user_username := name;
                    email := Some (name ++ "@example.com");
                    full_name := Some (str_title name);
                    disabled := Some false |}
    | Raise e =>
        (e = HTTPException 403 "Not authenticated" "Bearer" /\
         (creds = None \/ exists c, creds = Some c /\ credentials c = "")) \/
        (e = credentials_exception /\
         exists c, creds = Some c /\ credentials c <> "" /\
                   decode_access_token clock (credentials c) = Raise credentials_exception)
    end.
Proof. exact get_current_user_cases. Qed.

(** X16.  Behind [get_current_user], the active-user dependency changes
    nothing: it returns and raises exactly what [get_current_user] does, so
    it never raises 400 "Inactive user"; that error needs a user with
    [disabled=True], which [get_current_user] never builds. *)
Theorem X16_active_user_never_inactive :
  forall (clock : Q) (creds : option HTTPAuthorizationCredentials),
    current_active_user clock creds = get_current_user clock creds /\
    (forall e : exn, current_active_user clock creds = Raise e ->
                     e <> HTTPException 400 "Inactive user" "") /\
    (forall user : User,
       get_current_active_user (Some user) = Raise (HTTPException 400 "Inactive user" "")
       <-> disabled user = Some true).
Proof.
  intros clock creds.
  assert (Heq : current_active_user clock creds = get_current_user clock creds).
  { unfold current_active_user.
    destruct (get_current_user clock creds) as [user|e] eqn:Hrun; [|reflexivity].
    py_step. unfold get_current_active_user.
    now rewrite (get_current_user_enabled clock creds user Hrun). }
  split; [exact Heq|]. split.
  - intros e. rewrite Heq. intros Hrun.
    pose proof (get_current_user_cases clock creds) as Hout. rewrite Hrun in Hout.
    destruct Hout as [[-> _] | [-> _]]; discriminate.
  - intros user. unfold get_current_active_user.
    destruct (disabled user) as [[|]|]; split; congruence.
Qed.

(** X17.  [verify_api_key] either returns [True] or raises 401 "Invalid or
    missing API Key"; it returns [True] exactly when API-key authentication
    is disabled, or no non-empty key is configured, or the presented key is
    the configured one. *)
Theorem X17_verify_api_key_outcomes :
  forall (env : gmap string string) (api_key : option string),
    (verify_api_key env api_key = Ok true \/
     verify_api_key env api_key
       = Raise (HTTPException 401 "Invalid or missing API Key" "API-Key")) /\
    (verify_api_key env api_key = Ok true <->
     api_key_auth_enabled env = false \/ configured_key env = None \/
     exists key : string, api_key = Some key /\ configured_key env = Some key).
Proof.
  intros env api_key. unfold verify_api_key, configured_key.
  destruct (api_key_auth_enabled env); cbn [negb];
    [|split; [now left | split; [now left | reflexivity]]].
  destruct (env !! "API_KEY") as [valid|];
    [|split; [now left | split; [right; now left | reflexivity]]].
  destruct (String.eqb_spec valid "") as [-> | Hvalid];
    [split; [now left | split; [right; now left | reflexivity]]|].
  destruct api_key as [key|].
  - destruct (String.eqb_spec key valid) as [-> | NE]; cbn [negb].
    + split; [now left|]. split; [intros _; right; right; now exists valid | reflexivity].
    + split; [now right|]. split; [discriminate|].
      intros [Hd | [Hn | (key' & Hk & Hc)]]; try discriminate. congruence.
  - split; [now right|]. split; [discriminate|].
    intros [Hd | [Hn | (key' & Hk & Hc)]]; discriminate.
Qed.

(** X18.  [get_current_user_optional] never raises.  A bearer token that
    validates decides the result, whatever API key comes with it; without a
    bearer identity the result is the API-key identity or [None]; and it is
    [None] exactly when there is no bearer identity and no non-empty
    presented key that [verify_api_key] accepts. *)
Theorem X18_optional_auth :
  forall (env : gmap string string) (clock : Q)
         (creds : option HTTPAuthorizationCredentials) (api_key : option string),
    exists returned : option User,
      get_current_user_optional env clock creds api_key = Ok returned /\
      (forall user : User, bearer_identity clock creds = Some user -> returned = Some user) /\
      (bearer_identity clock creds = None ->
       returned = Some api_key_user \/ returned = None) /\
      (returned = None <->
       bearer_identity clock creds = None /\
       ~ exists key : string,
           api_key = Some key /\ key <> "" /\ verify_api_key env (Some key) = Ok true).
Proof.
  intros env clock creds api_key. unfold get_current_user_optional.
  rewrite bearer_path. py_step.
  destruct (bearer_identity clock creds) as [user|] eqn:Hbearer.
  - exists (Some user). split; [reflexivity|]. split; [congruence|].
    split; [discriminate|]. split; [discriminate | intros [Hn _]; discriminate].
  - rewrite api_key_path. py_step.
    destruct api_key as [key|].
    + destruct (String.eqb_spec key "") as [-> | Hkey]; cbn [negb].
      * exists None. split; [reflexivity|]. split; [discriminate|].
        split; [now right|]. split; [|reflexivity].
        intros _. split; [reflexivity|]. intros (key' & Hk & Hne & _). congruence.
      * destruct (verify_api_key_outcome env (Some key)) as [Hok | Hraise].
        -- rewrite Hok. exists (Some api_key_user). split; [reflexivity|].
           split; [discriminate|]. split; [now left|]. split; [discriminate|].
           intros [_ Hno]. exfalso. apply Hno. now exists key.
        -- rewrite Hraise. exists None. split; [reflexivity|].
           split; [discriminate|]. split; [now right|]. split; [|reflexivity].
           intros _. split; [reflexivity|]. intros (key' & Hk & _ & Hok).
           injection Hk as <-. congruence.
    + exists None. split; [reflexivity|]. split; [discriminate|].
      split; [now right|]. split; [|reflexivity].
      intros _. split; [reflexivity|]. intros (key' & Hk & _). discriminate.
Qed.

End Deps.

(** *** Passwords *)

Section Users.
Context `{Runtime}.

Lemma authenticate_user_cases (username password : string) :
  authenticate_user username password =
  Ok (if decide (username = "admin")
      then if decide (get_password_hash password = get_password_hash "admin123")
           then Some {| user_username := "admin";
                        email := Some "admin@frauddetection.com";
                        full_name := Some "Admin User";
                        disabled := Some false |}
           else None
      else if decide (username = "testuser")
      then if decide (get_password_hash password = get_password_hash "test123")
           then Some {| user_username := "testuser";
                        email := Some "test@frauddetection.com";
                        full_name := Some "Test User";
                        disabled := Some false |}
           else None
      else None).
Proof.
  unfold authenticate_user, fake_users_db. cbn [dict_get].
  destruct (String.eqb_spec "admin" username) as [<- | Hadmin].
  - rewrite decide_True by reflexivity.
    cbn [truthy length Nat.eqb negb dict_get String.eqb Ascii.eqb Bool.eqb].
    unfold verify_password.
    destruct (String.eqb_spec (get_password_hash "admin123") (get_password_hash password))
      as [Heq | Hne]; cbn [negb].
    + rewrite decide_True by congruence. reflexivity.
    + rewrite decide_False by congruence. reflexivity.
  - rewrite decide_False by congruence.
    destruct (String.eqb_spec "testuser" username) as [<- | Htest].
    + rewrite decide_True by reflexivity.
      cbn [truthy length Nat.eqb negb dict_get String.eqb Ascii.eqb Bool.eqb].
      unfold verify_password.
      destruct (String.eqb_spec (get_password_hash "test123") (get_password_hash password))
        as [Heq | Hne]; cbn [negb].
      * rewrite decide_True by congruence. reflexivity.
      * rewrite decide_False by congruence. reflexivity.
    + rewrite decide_False by congruence. reflexivity.
Qed.

Lemma authenticate_user_name (username password : string) (user : User) :
  authenticate_user username password = Ok (Some user) ->
  user_username user = username /\ username <> "" /\ disabled user = Some false.
Proof.
  rewrite authenticate_user_cases. intros Hok. injection Hok as Hok.
  repeat destruct (decide _); try discriminate; injection Hok as <-; subst;
    repeat split; discriminate.
Qed.

(** X19.  [authenticate_user] never raises.  It returns a user exactly for
    one of the two names of the table together with a password whose digest
    equals the stored digest; the user returned carries the requested name,
    is not disabled, and passes the active-user check; the two documented
    logins are accepted. *)
Theorem X19_authenticate_user :
  forall username password : string,
    exists outcome : option User,
      authenticate_user username password = Ok outcome /\
      (is_Some outcome <->
       (username = "admin" /\ get_password_hash password = get_password_hash "admin123") \/
       (username = "testuser" /\ get_password_hash password = get_password_hash "test123")) /\
      (forall user : User,
         outcome = Some user ->
         user_username user = username /\ disabled user = Some false /\
         get_current_active_user (Some user) = Ok user) /\
      authenticate_user "admin" "admin123" <> Ok None /\
      authenticate_user "testuser" "test123" <> Ok None.
Proof.
  intros username password. eexists. split; [apply authenticate_user_cases|].
  split; [|split; [|split]].
  - repeat destruct (decide _); subst; split;
      try (intros [? ?]; discriminate); try (intros _; now eexists);
      try (intros [[? ?] | [? ?]]; congruence); intros _; tauto.
  - intros user Huser.
    assert (Hrun : authenticate_user username password = Ok (Some user))
      by (rewrite authenticate_user_cases; now rewrite Huser).
    destruct (authenticate_user_name username password user Hrun) as (Hn & _ & Hd).
    repeat split; try assumption. unfold get_current_active_user. now rewrite Hd.
  - rewrite authenticate_user_cases. rewrite !decide_True by reflexivity. discriminate.
  - rewrite authenticate_user_cases. rewrite decide_False by discriminate.
    rewrite !decide_True by reflexivity. discriminate.
Qed.

End Users.

End AuthLaws.

(* --------------------------------------------------------------------- *)
(** ** Further laws of the alert manager *)

Module AlertsLaws.
Import Alerts AlertsSpec AuthLaws.
Import Auth(json, JFloat, JInt, JStr, jfloat, FFin, FNaN, FPosInf, FNegInf, Qlt_bool).

(** *** The senders *)

Section Senders.
Context `{Outside}.

(** X20.  [send_alert] tries Slack, Teams and e-mail in this order, each
    only when enabled; the value recorded for a channel is the outcome of
    that channel's own delivery ([False] when it raised), so a failure on
    one channel neither stops nor changes the others; the webhook channel
    gets no entry. *)
Theorem X20_send_alert_isolation :
  forall (self : AlertManager) (env : gmap string string) (title message : string)
         (severity : AlertSeverity) (metrics metadata : option (Py.dict json))
         (log : list AlertChannel),
    let alert :=
      {| title := title; message := message; severity := severity;
         timestamp := now_string; metrics := metrics; metadata := metadata |} in
    let slack_on := slack_enabled self && truthy_str (slack_webhook self) in
    let teams_on := teams_enabled self && truthy_str (teams_webhook self) in
    let out := send_alert self env title message severity metrics metadata log in
    snd out = (log ++ (if slack_on then [SLACK] else [])
                   ++ (if teams_on then [TEAMS] else [])
                   ++ (if email_enabled self then [EMAIL] else []))%list /\
    fst out !! SLACK
      = (if slack_on then Some (delivered (requests_post (slack_webhook self) alert))
         else None) /\
    fst out !! TEAMS
      = (if teams_on then Some (delivered (requests_post (teams_webhook self) alert))
         else None) /\
    fst out !! EMAIL
      = (if email_enabled self then Some (fst (_send_email env alert [])) else None) /\
    fst out !! WEBHOOK = None.
Proof.
  intros self env title message severity metrics metadata log alert slack_on teams_on out.
  assert (Hsend : forall url : option string,
            match try_except (_ ← requests_post url alert; Ok true) (fun _ => Ok false) with
            | Ok b => b
            | Raise _ => false
            end = delivered (requests_post url alert)).
  { intros url. now destruct (requests_post url alert). }
  set (sent := fst (_send_email env alert [])).
  assert (Hemail : forall l : list AlertChannel,
            _send_email env alert l = (sent, (l ++ [EMAIL])%list)) by reflexivity.
  unfold out, send_alert, _send_slack, _send_teams, attempt. fold alert.
  rewrite !Hsend. fold slack_on teams_on.
  destruct slack_on, teams_on, (email_enabled self); cbv beta iota zeta;
    rewrite ?Hemail; cbn [fst snd];
    rewrite <- ?app_assoc; cbn [app]; rewrite ?app_nil_r;
    repeat split; reflexivity.
Qed.

(** X21.  [_send_email] always records one attempt and never raises; it
    reports [True] exactly when the configured port parses as an integer,
    the user name, password, sender and recipient are all set and
    non-empty, and the SMTP conversation succeeds. *)
Theorem X21_send_email_outcome :
  forall (env : gmap string string) (alert : Alert) (log : list AlertChannel),
    snd (_send_email env alert log) = (log ++ [EMAIL])%list /\
    (fst (_send_email env alert log) = true <->
     exists smtp_port : Z,
       int_of_string (getenv env "SMTP_PORT" "587") = Ok smtp_port /\
       truthy_str (env !! "SMTP_USERNAME") = true /\
       truthy_str (env !! "SMTP_PASSWORD") = true /\
       truthy_str (env !! "ALERT_EMAIL_FROM") = true /\
       truthy_str (env !! "ALERT_EMAIL_TO") = true /\
       exists done : unit,
         smtp_send (getenv env "SMTP_SERVER" "smtp.gmail.com") smtp_port alert = Ok done).
Proof.
  intros env alert log. split; [reflexivity|].
  unfold _send_email. cbn [fst].
  destruct (int_of_string (getenv env "SMTP_PORT" "587")) as [smtp_port|e]; cbn;
    [|split; [discriminate | intros (p & Hp & _); discriminate]].
  destruct (truthy_str (env !! "SMTP_USERNAME")), (truthy_str (env !! "SMTP_PASSWORD")),
    (truthy_str (env !! "ALERT_EMAIL_FROM")), (truthy_str (env !! "ALERT_EMAIL_TO")); cbn;
    try (split; [discriminate | intros (p & _ & ? & ? & ? & ? & _); discriminate]).
  destruct (smtp_send _ smtp_port alert) as [done|e] eqn:Hsmtp; cbn.
  - split; [|reflexivity]. intros _. exists smtp_port. repeat split. now exists done.
  - split; [discriminate|]. intros (p & Hp & _ & _ & _ & _ & done & Hdone).
    injection Hp as <-. congruence.
Qed.

End Senders.

(** *** The wrappers *)

Section Wrappers.
Context `{Outside} `{Formats}.

Lemma spike_threshold (current_rate expected_rate : Q) :
  (0 < expected_rate)%Q ->
  Qlt_bool (Qabs (current_rate - expected_rate) / expected_rate * 100) 50 = false <->
  (expected_rate <= 2 * Qabs (current_rate - expected_rate))%Q.
Proof.
  intros Hpos. rewrite Qlt_bool_false_iff.
  set (d := Qabs (current_rate - expected_rate)).
  assert (Hd : (d / expected_rate * expected_rate == d)%Q)
    by (field; intros Hz; rewrite Hz in Hpos; now apply (Qlt_irrefl 0)).
  split; intros Hle.
  - assert (Hm : (50 * expected_rate <= d / expected_rate * 100 * expected_rate)%Q)
      by (apply Qmult_le_compat_r; [exact Hle | now apply Qlt_le_weak]).
    nra.
  - apply Qmult_le_r with expected_rate; [exact Hpos|]. nra.
Qed.

(** X22.  [send_fraud_spike_alert] is [send_alert] with the fixed title,
    the text and the three metrics of the two rates, and a severity that is
    CRITICAL exactly when the expected rate is positive and the current
    rate is at least half the expected rate away from it, in either
    direction; without a positive expected rate the severity is WARNING and
    the reported increase is 0. *)
Theorem X22_fraud_spike_severity :
  forall (self : AlertManager) (env : gmap string string) (current_rate expected_rate : Q)
         (log : list AlertChannel),
    let increase : Q :=
      if Qlt_bool 0 expected_rate
      then (Qabs (current_rate - expected_rate) / expected_rate * 100)%Q
      else 0%Q in
    send_fraud_spike_alert self env current_rate expected_rate log =
    send_alert self env
      "Fraud Rate Spike Detected"
      ("Current fraud rate (" ++ fmt_2pct current_rate ++ ") is " ++ fmt_1f increase
         ++ "% higher " ++ "than expected (" ++ fmt_2pct expected_rate
         ++ "). Investigate immediately.")
      (if Qlt_bool 0 expected_rate &&
          Qle_bool expected_rate (2 * Qabs (current_rate - expected_rate))
       then CRITICAL else WARNING)
      (Some [("current_fraud_rate", JFloat (FFin current_rate));
             ("expected_fraud_rate", JFloat (FFin expected_rate));
             ("increase_pct",
              if Qlt_bool 0 expected_rate then JFloat (FFin increase) else JInt 0)])
      (Some [("alert_type", JStr "fraud_spike")])
      log.
Proof.
  intros self env current_rate expected_rate log. unfold send_fraud_spike_alert.
  destruct (Qlt_bool 0 expected_rate) eqn:Hpos; cbv zeta; cbn [andb]; [|reflexivity].
  apply Qlt_bool_true_iff in Hpos.
  destruct (Qlt_bool (Qabs (current_rate - expected_rate) / expected_rate * 100) 50)
    eqn:Hlt.
  - destruct (Qle_bool expected_rate _) eqn:Hle; [|reflexivity].
    apply Qle_bool_iff, (spike_threshold current_rate expected_rate Hpos) in Hle.
    congruence.
  - apply (spike_threshold current_rate expected_rate Hpos), Qle_bool_iff in Hlt.
    now rewrite Hlt.
Qed.

(** X23.  Neither wrapper ever holds an alert back: whatever the drift
    score, the threshold and the two rates are, the result of
    [send_drift_alert] and of [send_fraud_spike_alert] has an entry exactly
    for the enabled channels. *)
Theorem X23_alert_wrappers_always_send :
  forall (self : AlertManager) (env : gmap string string) (feature_name : string)
         (drift_score threshold : jfloat) (current_rate expected_rate : Q)
         (log : list AlertChannel) (ch : AlertChannel),
    let enabled :=
      match ch with
      | SLACK => slack_enabled self && truthy_str (slack_webhook self)
      | TEAMS => teams_enabled self && truthy_str (teams_webhook self)
      | EMAIL => email_enabled self
      | WEBHOOK => false
      end in
    (ch ∈ dom (fst (send_drift_alert self env feature_name drift_score threshold log))
     <-> enabled = true) /\
    (ch ∈ dom (fst (send_fraud_spike_alert self env current_rate expected_rate log))
     <-> enabled = true).
Proof.
  intros self env feature_name drift_score threshold current_rate expected_rate log ch
         enabled.
  unfold send_drift_alert, send_fraud_spike_alert. cbv zeta.
  split.
  - match goal with
    | |- context [send_alert self env ?t ?m ?s ?me ?md log] =>
        destruct (send_alert_channels self env t m s me md log)
          as (Hslack & Hteams & Hemail & Hwebhook & _)
    end.
    destruct ch; unfold enabled; [assumption | assumption | assumption |].
    split; [intros Hin; contradiction | discriminate].
  - match goal with
    | |- context [send_alert self env ?t ?m ?s ?me ?md log] =>
        destruct (send_alert_channels self env t m s me md log)
          as (Hslack & Hteams & Hemail & Hwebhook & _)
    end.
    destruct ch; unfold enabled; [assumption | assumption | assumption |].
    split; [intros Hin; contradiction | discriminate].
Qed.

End Wrappers.

End AlertsLaws.

(* --------------------------------------------------------------------- *)
(** ** The endpoints *)

Module ApiLaws.
Import Auth PyFacts AuthSpec AuthLaws.
Import Api.

(** *** Logging in and asking who one is *)

Section Login.
Context `{R : Runtime} `{!RuntimeLaws R}.





End Login.


(** *** Risk levels and single predictions *)

Section Risk.

Lemma classify_risk_level_cases (p : Q) :
  (p < 3 # 10 /\ classify_risk_level p = "LOW")%Q \/
  (3 # 10 <= p /\ p < 5 # 10 /\ classify_risk_level p = "MEDIUM")%Q \/
  (5 # 10 <= p /\ p < 7 # 10 /\ classify_risk_level p = "HIGH")%Q \/
  (7 # 10 <= p /\ classify_risk_level p = "CRITICAL")%Q.
Proof.
  unfold classify_risk_level.
  destruct (Qlt_bool p (3 # 10)) eqn:H3;
    [apply Qlt_bool_true_iff in H3; now left | apply Qlt_bool_false_iff in H3].
  destruct (Qlt_bool p (5 # 10)) eqn:H5;
    [apply Qlt_bool_true_iff in H5; right; now left | apply Qlt_bool_false_iff in H5].
  destruct (Qlt_bool p (7 # 10)) eqn:H7;
    [apply Qlt_bool_true_iff in H7; right; right; now left
    | apply Qlt_bool_false_iff in H7; right; right; now right].
Qed.

Lemma fraud_iff_high_risk (p : Q) :
  Qle_bool (1 # 2) p = true <->
  classify_risk_level p = "HIGH" \/ classify_risk_level p = "CRITICAL".
Proof.
  rewrite Qle_bool_iff.
  destruct (classify_risk_level_cases p) as [[Hp ->] | [(Hp & Hp' & ->) | [(Hp & Hp' & ->) | [Hp ->]]]];
    split; try (intros [E | E]; discriminate); try (intros _; tauto); intros Hle; lra.
Qed.

(** X25.  The risk level never decreases when the probability grows, and
    a probability is at least one half exactly when its level is HIGH or
    CRITICAL. *)
Theorem X25_risk_level_order :
  (forall p q : Q,
     (p <= q)%Q ->
     (risk_rank (classify_risk_level p) <= risk_rank (classify_risk_level q))%nat) /\
  (forall p : Q,
     Qle_bool (1 # 2) p = true <->
     classify_risk_level p = "HIGH" \/ classify_risk_level p = "CRITICAL").
Proof.
  split.
  - intros p q Hpq.
    destruct (classify_risk_level_cases p) as [[Hp ->] | [(Hp & Hp' & ->) | [(Hp & Hp' & ->) | [Hp ->]]]];
    destruct (classify_risk_level_cases q) as [[Hq ->] | [(Hq & Hq' & ->) | [(Hq & Hq' & ->) | [Hq ->]]]];
      try (cbv; lia); exfalso; lra.
  - exact fraud_iff_high_risk.
Qed.

End Risk.

Section Predict.
Context `{Server}.

Lemma predict_one_ok (model : Model) (threshold : Q) (transaction : Py.dict Q)
    (draws draws' : nat) (response : PredictionResponse) :
  predict_one model threshold transaction draws = Ok (response, draws') ->
  draws' = S draws /\
  exists (features_df : Py.dict Q),
    align_features (Some model) transaction = Ok features_df /\
    predict_proba model features_df = Ok (fraud_probability response) /\
    Qle_bool 0 (fraud_probability response) = true /\
    Qle_bool (fraud_probability response) 1 = true /\
    is_fraud response = Qle_bool threshold (fraud_probability response) /\
    risk_level response = classify_risk_level (fraud_probability response) /\
    threshold_used response = threshold /\
    model_version response = MODEL_VERSION /\
    transaction_id response = "TXN-" ++ upper (String.substring 0 12 (uuid4_hex draws)).
Proof.
  unfold predict_one. cbv zeta.
  destruct (align_features (Some model) transaction) as [features_df|e]; [|discriminate].
  py_step. destruct (predict_proba model features_df) as [p|e] eqn:Hp; [|discriminate].
  py_step. unfold generate_transaction_id, PredictionResponse_new.
  destruct (Qle_bool 0 p) eqn:H0; [|discriminate].
  destruct (Qle_bool p 1) eqn:H1; [|discriminate].
  cbn [andb]. py_step. intros Hok. injection Hok as <- <-.
  split; [reflexivity|]. exists features_df.
  cbn [fraud_probability is_fraud risk_level threshold_used model_version transaction_id].
  repeat split; assumption || reflexivity.
Qed.

Lemma predict_one_any_draws (model : Model) (threshold : Q) (transaction : Py.dict Q)
    (draws draws' : nat) :
  (exists out, predict_one model threshold transaction draws = Ok out) ->
  exists out, predict_one model threshold transaction draws' = Ok out.
Proof.
  unfold predict_one. cbv zeta.
  destruct (align_features (Some model) transaction) as [features_df|e];
    [|intros [out Hout]; discriminate].
  py_step. destruct (predict_proba model features_df) as [p|e];
    [|intros [out Hout]; discriminate].
  py_step. unfold generate_transaction_id, PredictionResponse_new.
  destruct (Qle_bool 0 p && Qle_bool p 1); py_step;
    [intros _; now eexists | intros [out Hout]; discriminate].
Qed.

(** X26.  [predict_single] raises 503 "Model not loaded" exactly when no
    model is loaded, and otherwise turns every failure of the prediction
    into a 500 "Prediction error: ..."; a response it returns has a
    probability in [0, 1], the fraud flag [probability >= threshold], the
    risk level of the probability and the threshold in use, and draws one
    transaction id.  At the initial threshold of one half the flag is set
    exactly for the levels HIGH and CRITICAL. *)
Theorem X26_predict_single_outcomes :
  forall (MODEL : option Model) (threshold : Q) (transaction : Py.dict Q) (draws : nat),
    match predict_single MODEL threshold transaction draws with
    | Ok (response, draws') =>
        is_Some MODEL /\ draws' = S draws /\
        (0 <= fraud_probability response <= 1)%Q /\
        is_fraud response = Qle_bool threshold (fraud_probability response) /\
        risk_level response = classify_risk_level (fraud_probability response) /\
        threshold_used response = threshold /\
        ((threshold == 1 # 2)%Q ->
         (is_fraud response = true <->
          risk_level response = "HIGH" \/ risk_level response = "CRITICAL"))
    | Raise e =>
        (MODEL = None /\ e = HTTPException 503 "Model not loaded" "") \/
        (is_Some MODEL /\
         exists cause : exn,
           e = HTTPException 500 ("Prediction error: " ++ str_of_exn cause) "")
    end.
Proof.
  intros [model|] threshold transaction draws; cbn [predict_single];
    [|left; now split].
  destruct (predict_one model threshold transaction draws) as [[response draws']|e] eqn:Hone;
    cbn [try_except].
  - apply predict_one_ok in Hone
      as (-> & features_df & _ & _ & H0 & H1 & Hfraud & Hrisk & Hthr & _).
    apply Qle_bool_iff in H0, H1.
    split; [now eexists|]. split; [reflexivity|]. split; [now split|].
    split; [exact Hfraud|]. split; [exact Hrisk|]. split; [exact Hthr|].
    intros Hhalf. rewrite Hfraud, Hrisk.
    rewrite (Qleb_comp _ _ Hhalf _ _ (Qeq_refl (fraud_probability response))).
    apply fraud_iff_high_risk.
  - right. split; [now eexists | now exists e].
Qed.

End Predict.

(** *** Feature alignment *)

Section Align.

Lemma dict_get_is_Some {V : Type} (d : Py.dict V) (k : string) :
  is_Some (dict_get d k) <-> k ∈ dict_keys d.
Proof.
  induction d as [|[k0 v0] d IH]; cbn [dict_keys map fst dict_get].
  - split; [intros [v Hv]; discriminate | intros Hin; now apply elem_of_nil in Hin].
  - rewrite elem_of_cons. destruct (String.eqb_spec k0 k) as [-> | NE].
    + split; [now left | intros _; now eexists].
    + rewrite IH. unfold dict_keys. split; [now right | intros [-> | Hin]; [congruence | exact Hin]].
Qed.

Lemma add_missing_cons (col : string) (columns : list string) (df : Py.dict Q) :
  add_missing (col :: columns) df =
  add_missing columns (if bool_decide (col ∈ dict_keys df) then df else dict_set df col 0%Q).
Proof. reflexivity. Qed.

Lemma add_missing_get (columns : list string) :
  forall (df : Py.dict Q) (col : string),
    dict_get (add_missing columns df) col =
    match dict_get df col with
    | Some value => Some value
    | None => if bool_decide (col ∈ columns) then Some 0%Q else None
    end.
Proof.
  induction columns as [|c columns IH]; intros df col.
  - change (add_missing [] df) with df. rewrite bool_decide_eq_false_2 by apply not_elem_of_nil.
    now destruct (dict_get df col).
  - rewrite add_missing_cons, IH.
    destruct (decide (c ∈ dict_keys df)) as [Hc | Hc].
    + rewrite (bool_decide_eq_true_2 _ Hc).
      destruct (dict_get df col) as [value|] eqn:Hget; [reflexivity|].
      assert (Hne : col <> c).
      { intros ->. apply dict_get_is_Some in Hc as [v Hv]. congruence. }
      destruct (decide (col ∈ columns)) as [Hin | Hin].
      * rewrite !bool_decide_eq_true_2 by (rewrite ?elem_of_cons; auto). reflexivity.
      * rewrite !bool_decide_eq_false_2 by (rewrite ?elem_of_cons; intuition congruence). reflexivity.
    + rewrite (bool_decide_eq_false_2 _ Hc), dict_get_set.
      destruct (decide (c = col)) as [<- | NE].
      * assert (Hnone : dict_get df c = None).
        { destruct (dict_get df c) eqn:Hget; [|reflexivity].
          exfalso. apply Hc, dict_get_is_Some. eexists. exact Hget. }
        rewrite Hnone, bool_decide_eq_true_2 by (rewrite elem_of_cons; auto). reflexivity.
      * destruct (dict_get df col) as [value|]; [reflexivity|].
        destruct (decide (col ∈ columns)) as [Hin | Hin].
        -- rewrite !bool_decide_eq_true_2 by (rewrite ?elem_of_cons; auto). reflexivity.
        -- rewrite !bool_decide_eq_false_2 by (rewrite ?elem_of_cons; intuition congruence). reflexivity.
Qed.

Lemma select_columns_cons (df : Py.dict Q) (col : string) (columns : list string) :
  select_columns df (col :: columns) =
  match dict_get df col with
  | None => Raise KeyError
  | Some value =>
      match select_columns df columns with
      | Ok selected => Ok ((col, value) :: selected)
      | Raise e => Raise e
      end
  end.
Proof.
  cbn [select_columns]. destruct (dict_get df col); [|reflexivity].
  now destruct (select_columns df columns).
Qed.

Lemma select_columns_ok (df : Py.dict Q) (columns : list string) :
  (forall col, col ∈ columns -> is_Some (dict_get df col)) ->
  select_columns df columns =
  Ok (map (fun col => (col, default 0%Q (dict_get df col))) columns).
Proof.
  induction columns as [|c columns IH]; intros Hall; [reflexivity|].
  rewrite select_columns_cons. cbn [map].
  destruct (Hall c (list_elem_of_here _ _)) as [value Hvalue]. rewrite Hvalue.
  rewrite IH by (intros col Hin; apply Hall; now apply list_elem_of_further).
  reflexivity.
Qed.

Lemma tabulate_keys (g : string -> Q) (columns : list string) :
  dict_keys (map (fun col => (col, g col)) columns) = columns.
Proof.
  unfold dict_keys. rewrite map_map. cbn [fst]. apply map_id.
Qed.

Lemma tabulate_get (g : string -> Q) (columns : list string) (col : string) :
  dict_get (map (fun col => (col, g col)) columns) col =
  if bool_decide (col ∈ columns) then Some (g col) else None.
Proof.
  induction columns as [|c columns IH]; cbn [map dict_get].
  - now rewrite bool_decide_eq_false_2 by apply not_elem_of_nil.
  - destruct (String.eqb_spec c col) as [-> | NE].
    + rewrite bool_decide_eq_true_2 by (rewrite elem_of_cons; auto). reflexivity.
    + rewrite IH. destruct (decide (col ∈ columns)) as [Hin | Hin].
      * rewrite !bool_decide_eq_true_2 by (rewrite ?elem_of_cons; auto). reflexivity.
      * rewrite !bool_decide_eq_false_2 by (rewrite ?elem_of_cons; intuition congruence). reflexivity.
Qed.

Lemma add_missing_present (columns : list string) (df : Py.dict Q) (col : string) :
  col ∈ columns -> is_Some (dict_get (add_missing columns df) col).
Proof.
  intros Hin. rewrite add_missing_get.
  destruct (dict_get df col); [now eexists|].
  rewrite bool_decide_eq_true_2 by exact Hin. now eexists.
Qed.

(** X27.  Without a model [align_features] returns the frame unchanged.
    With a model it never raises: the columns of the result are the
    model's [feature_names_in_], or the thirty expected columns when the
    model has no such attribute, in that order; a column that is one of the
    thirty expected ones keeps the value of the input (0.0 when the input
    lacks it), and every other column that the model names is 0.0, even
    when the input has a value for it. *)
Theorem X27_align_features :
  forall (model : Model) (df : Py.dict Q),
    align_features None df = Ok df /\
    exists aligned : Py.dict Q,
      align_features (Some model) df = Ok aligned /\
      dict_keys aligned = default expected_columns (feature_names_in_ model) /\
      forall col : string,
        dict_get aligned col =
        if bool_decide (col ∈ dict_keys aligned)
        then Some (if bool_decide (col ∈ expected_columns)
                   then default 0%Q (dict_get df col)
                   else 0%Q)
        else None.
Proof.
  intros model df. split; [reflexivity|].
  unfold align_features. cbv zeta.
  rewrite (select_columns_ok _ expected_columns)
    by (intros col Hin; now apply add_missing_present).
  py_step.
  set (first := map (fun col => (col, default 0%Q (dict_get (add_missing expected_columns df) col)))
                    expected_columns).
  assert (Hfirst : forall col,
            dict_get first col =
            if bool_decide (col ∈ expected_columns)
            then Some (default 0%Q (dict_get df col)) else None).
  { intros col. unfold first.
    rewrite (tabulate_get (fun col => default 0%Q (dict_get (add_missing expected_columns df) col))).
    destruct (decide (col ∈ expected_columns)) as [Hin | Hin].
    - rewrite !bool_decide_eq_true_2 by exact Hin. rewrite add_missing_get.
      rewrite bool_decide_eq_true_2 by exact Hin. now destruct (dict_get df col).
    - now rewrite !bool_decide_eq_false_2 by exact Hin. }
  destruct (feature_names_in_ model) as [model_features|]; cbn [default].
  - rewrite (select_columns_ok _ model_features)
      by (intros col Hin; now apply add_missing_present).
    eexists. split; [reflexivity|].
    rewrite (tabulate_keys (fun col => default 0%Q (dict_get (add_missing model_features first) col))).
    split; [reflexivity|]. intros col.
    rewrite (tabulate_get (fun col => default 0%Q (dict_get (add_missing model_features first) col))).
    destruct (decide (col ∈ model_features)) as [Hin | Hin].
    + rewrite !bool_decide_eq_true_2 by exact Hin. rewrite add_missing_get, Hfirst.
      rewrite (bool_decide_eq_true_2 _ Hin).
      now destruct (bool_decide (col ∈ expected_columns)).
    + now rewrite !bool_decide_eq_false_2 by exact Hin.
  - exists first. split; [reflexivity|].
    assert (Hkeys : dict_keys first = expected_columns)
      by apply (tabulate_keys (fun col => default 0%Q (dict_get (add_missing expected_columns df) col))).
    rewrite Hkeys. split; [reflexivity|]. intros col. rewrite Hfirst.
    now destruct (bool_decide (col ∈ expected_columns)).
Qed.

End Align.

(** *** Batches *)

Section Batch.
Context `{Server}.

Lemma predict_loop_cons (model : Model) (threshold : Q) (t : Py.dict Q)
    (ts : list (Py.dict Q)) (acc : list PredictionResponse) (draws : nat) :
  predict_loop model threshold (t :: ts) acc draws =
  match predict_one model threshold t draws with
  | Ok (response, d1) => predict_loop model threshold ts (acc ++ [response]) d1
  | Raise e => Raise e
  end.
Proof.
  destruct (predict_one model threshold t draws) as [[response d1]|e] eqn:Hone;
    cbn [predict_loop]; rewrite Hone; reflexivity.
Qed.

Lemma predict_loop_ok (model : Model) (threshold : Q) (transactions : list (Py.dict Q)) :
  forall (acc out : list PredictionResponse) (draws draws' : nat),
    predict_loop model threshold transactions acc draws = Ok (out, draws') ->
    draws' = (draws + length transactions)%nat /\
    exists new : list PredictionResponse,
      out = (acc ++ new)%list /\
      Forall2 (fun transaction response =>
                 exists d d' : nat,
                   predict_one model threshold transaction d = Ok (response, d'))
              transactions new.
Proof.
  induction transactions as [|t ts IH]; intros acc out draws draws' Hrun.
  - injection Hrun as <- <-. split; [cbn [length]; lia|].
    exists []. rewrite app_nil_r. split; [reflexivity | constructor].
  - rewrite predict_loop_cons in Hrun.
    destruct (predict_one model threshold t draws) as [[response d1]|e] eqn:Hone;
      [|discriminate].
    apply IH in Hrun as (-> & new & -> & Hall).
    pose proof Hone as Hd. apply predict_one_ok in Hd as [-> _].
    split; [cbn [length]; lia|].
    exists (response :: new). split; [rewrite <- app_assoc; reflexivity|].
    constructor; [exists draws, (S draws); exact Hone | exact Hall].
Qed.

Lemma predict_loop_total (model : Model) (threshold : Q) (transactions : list (Py.dict Q)) :
  forall (acc : list PredictionResponse) (draws : nat),
    (forall transaction, transaction ∈ transactions ->
       exists out, predict_one model threshold transaction O = Ok out) ->
    exists out, predict_loop model threshold transactions acc draws = Ok out.
Proof.
  induction transactions as [|t ts IH]; intros acc draws Hall; [eexists; reflexivity|].
  rewrite predict_loop_cons.
  destruct (predict_one_any_draws model threshold t O draws
              (Hall t (list_elem_of_here _ _))) as [[response d1] ->].
  apply IH. intros t' Hin. apply Hall. apply list_elem_of_further. exact Hin.
Qed.

Lemma predict_loop_fails (model : Model) (threshold : Q) (transactions : list (Py.dict Q)) :
  forall (acc : list PredictionResponse) (draws : nat) (transaction : Py.dict Q) (e : exn),
    transaction ∈ transactions ->
    predict_one model threshold transaction O = Raise e ->
    exists e', predict_loop model threshold transactions acc draws = Raise e'.
Proof.
  induction transactions as [|t ts IH]; intros acc draws transaction e Hin Hfail.
  - apply elem_of_nil in Hin. contradiction.
  - rewrite predict_loop_cons.
    destruct (predict_one model threshold t draws) as [[response d1]|e1] eqn:Hone;
      [|eexists; reflexivity].
    apply elem_of_cons in Hin as [-> | Hin]; [|exact (IH _ _ transaction e Hin Hfail)].
    destruct (predict_one_any_draws model threshold t draws O) as [out Hout];
      [eexists; exact Hone | congruence].
Qed.

Lemma filter_length_le {A : Type} (f : A -> bool) (l : list A) :
  (length (List.filter f l) <= length l)%nat.
Proof.
  induction l as [|x l IH]; [reflexivity|]. cbn [List.filter].
  destruct (f x); cbn [length]; lia.
Qed.

(** X28.  A batch response has one prediction for each transaction, in
    order; [total_transactions] is their number, [fraud_count] the number
    of flagged ones (at most the total), and [fraud_rate] their quotient,
    between 0 and 1, and 0 for an empty batch; every prediction has the
    flag, the level and the threshold of a single prediction.  The batch
    raises 503 exactly when no model is loaded and otherwise only 500
    "Batch prediction error: ...". *)
Theorem X28_predict_batch_statistics :
  forall (MODEL : option Model) (threshold : Q) (transactions : list (Py.dict Q))
         (start_time end_time : Q) (draws : nat),
    match predict_batch MODEL threshold transactions start_time end_time draws with
    | Ok (response, draws') =>
        is_Some MODEL /\
        draws' = (draws + length transactions)%nat /\
        length (predictions response) = length transactions /\
        total_transactions response = length transactions /\
        fraud_count response = length (List.filter is_fraud (predictions response)) /\
        (fraud_count response <= total_transactions response)%nat /\
        (0 <= fraud_rate response <= 1)%Q /\
        (fraud_rate response * inject_Z (Z.of_nat (total_transactions response))
         == inject_Z (Z.of_nat (fraud_count response)))%Q /\
        (transactions = [] -> fraud_rate response = 0%Q) /\
        Forall (fun prediction =>
                  is_fraud prediction = Qle_bool threshold (fraud_probability prediction) /\
                  risk_level prediction = classify_risk_level (fraud_probability prediction) /\
                  threshold_used prediction = threshold)
               (predictions response)
    | Raise e =>
        (MODEL = None /\ e = HTTPException 503 "Model not loaded" "") \/
        (is_Some MODEL /\
         exists cause : exn,
           e = HTTPException 500 ("Batch prediction error: " ++ str_of_exn cause) "")
    end.
Proof.
  intros [model|] threshold transactions start_time end_time draws; cbn [predict_batch];
    [|left; now split].
  destruct (predict_loop model threshold transactions [] draws) as [[preds d1]|e] eqn:Hloop;
    py_step; [|right; split; [now eexists | now exists e]].
  apply predict_loop_ok in Hloop as (-> & new & -> & Hall). cbn [app].
  cbn [predictions total_transactions fraud_count fraud_rate].
  pose proof (Forall2_length _ _ _ Hall) as Hlen.
  pose proof (filter_length_le is_fraud new) as Hle.
  split; [now eexists|]. split; [reflexivity|]. split; [now symmetry|].
  split; [now symmetry|]. split; [reflexivity|]. split; [exact Hle|].
  assert (Hrate :
    forall count total : nat, (count <= total)%nat -> (0 < total)%nat ->
      (0 <= inject_Z (Z.of_nat count) / inject_Z (Z.of_nat total) <= 1)%Q /\
      (inject_Z (Z.of_nat count) / inject_Z (Z.of_nat total) * inject_Z (Z.of_nat total)
       == inject_Z (Z.of_nat count))%Q).
  { intros count total Hct Htot.
    assert (Hc : (0 <= inject_Z (Z.of_nat count))%Q)
      by (change 0%Q with (inject_Z 0); rewrite <- Zle_Qle; lia).
    assert (Ht : (0 < inject_Z (Z.of_nat total))%Q)
      by (change 0%Q with (inject_Z 0); rewrite <- Zlt_Qlt; lia).
    assert (Hcle : (inject_Z (Z.of_nat count) <= inject_Z (Z.of_nat total))%Q)
      by (rewrite <- Zle_Qle; lia).
    split; [split|].
    - apply Qle_shift_div_l; [exact Ht | lra].
    - apply Qle_shift_div_r; [exact Ht | lra].
    - field. intros Hz. rewrite Hz in Ht. now apply (Qlt_irrefl 0). }
  destruct new as [|r new'].
  - cbn [List.filter length]. split; [split; discriminate|].
    split; [reflexivity|]. split; [reflexivity|]. constructor.
  - destruct (Hrate (length (List.filter is_fraud (r :: new'))) (length (r :: new')) Hle
                ltac:(cbn [length]; lia)) as [Hrange Hprod].
    split; [exact Hrange|]. split; [exact Hprod|].
    split; [intros ->; inversion Hall|].
    clear Hprod Hrange Hle Hlen Hrate. revert Hall. generalize (r :: new').
    intros rs Hall. induction Hall as [|t r' ts rs' (d & d' & Hone) _ IH]; constructor;
      [|exact IH].
    apply predict_one_ok in Hone as (_ & _ & _ & _ & _ & _ & Hf & Hr & Ht & _).
    now repeat split.
Qed.

(** X29.  A batch is all or nothing: [predict_batch] returns a response
    exactly when a model is loaded and [predict_single] would return one
    for each transaction of the batch; one transaction that fails makes the
    whole batch fail. *)
Theorem X29_predict_batch_all_or_nothing :
  forall (MODEL : option Model) (threshold : Q) (transactions : list (Py.dict Q))
         (start_time end_time : Q) (draws : nat),
    (exists out, predict_batch MODEL threshold transactions start_time end_time draws = Ok out)
    <->
    is_Some MODEL /\
    forall transaction : Py.dict Q,
      transaction ∈ transactions ->
      exists out, predict_single MODEL threshold transaction O = Ok out.
Proof.
  intros [model|] threshold transactions start_time end_time draws;
    cbn [predict_batch predict_single];
    [|split; [intros [out Hout]; discriminate | intros [[m Hm] _]; discriminate]].
  split.
  - intros [out Hout]. split; [now eexists|]. intros transaction Hin.
    destruct (predict_one model threshold transaction O) as [one|e] eqn:Hone;
      [now eexists|].
    destruct (predict_loop_fails model threshold transactions [] draws transaction e Hin Hone)
      as [e' He']. rewrite He' in Hout. discriminate.
  - intros [_ Hall].
    destruct (predict_loop_total model threshold transactions [] draws) as [[preds d1] Hloop].
    + intros transaction Hin. destruct (Hall transaction Hin) as [out Hout].
      destruct (predict_one model threshold transaction O) as [one|e]; [now eexists|].
      discriminate.
    + rewrite Hloop. py_step. now eexists.
Qed.

End Batch.

(** *** Loading the model *)

Section Loading.
Context `{Loader} `{Server}.


End Loading.

End ApiLaws.
